(** * fastpeer: the central processing node (central_processing.py)

    A shallow embedding of the normalisation, matching, consolidation and
    classification pipeline, and the properties its specification states.

    Conventions of the embedding.
    - A Python value of a [Dict[str, Any]] entry is a [pyval]: [None], a
      [bool], an unbounded [int], a binary64 [float] (Rocq's primitive floats,
      which are IEEE 754 binary64 like CPython's), a [str], or a nested
      container ([VList]; the Zillow agent stores nested objects such as
      ['address'] in [raw_fields]).
    - A [str] is a [string]; the character classes [\w], [\s], [\d] and
      [str.upper] are given for the ASCII range, a byte above 127 is in none
      of the classes and has no upper case.
    - A dict is a [gmap string pyval].
    - A call that can raise returns a [result]: [Ok v] or [Raise e].
    - A [datetime] is a naive instant, counted from [datetime.min]; the
      clock reading [datetime.utcnow()] is the argument [now] of the
      functions that read it.
    - [str(v)], the interpreter's printing of an arbitrary value, is the
      argument [py_str] of the two functions that print values. *)

From Stdlib Require Import ZArith String Ascii List Bool Floats Lia.
From stdpp Require Import base option list gmap strings pretty.

#[local] Set Warnings "-inexact-float".
Local Open Scope string_scope.
Local Open Scope list_scope.
Local Open Scope Z_scope.

(** ** Python values, exceptions and results *)

Module Py.

Inductive exn : Type :=
| AttributeError
| KeyError
| OverflowError
| TypeError
| ValueError
| ZeroDivisionError.

Inductive result (A : Type) : Type :=
| Ok (a : A)
| Raise (e : exn).
Arguments Ok {A} a.
Arguments Raise {A} e.

Definition bind {A B : Type} (r : result A) (k : A → result B) : result B :=
  match r with
  | Ok a => k a
  | Raise e => Raise e
  end.

(** A loop that collects the results of [f], stopping at the first raise. *)
Fixpoint mapM_result {A B : Type} (f : A → result B) (l : list A) : result (list B) :=
  match l with
  | [] => Ok []
  | x :: l' =>
      match f x with
      | Ok y =>
          match mapM_result f l' with
          | Ok ys => Ok (y :: ys)
          | Raise e => Raise e
          end
      | Raise e => Raise e
      end
  end.

#[local] Unset Elimination Schemes.
Inductive pyval : Type :=
| VNone
| VBool (b : bool)
| VInt (z : Z)
| VFloat (f : float)
| VStr (s : string)
| VList (l : list pyval).
#[local] Set Elimination Schemes.

Definition datetime : Type := N.
Definition datetime_min : datetime := 0%N.

(** [bool(v)]: the truth value Python's [if], [not], [and] and [or] test. *)
Definition truthy (v : pyval) : bool :=
  match v with
  | VNone => false
  | VBool b => b
  | VInt z => negb (z =? 0)
  | VFloat f => negb (PrimFloat.eqb f 0%float)
  | VStr s => negb (String.eqb s "")
  | VList l => match l with [] => false | _ => true end
  end.

(** [a or b] on values. *)
Definition py_or (a b : pyval) : pyval := if truthy a then a else b.

(** [d.get(k)] and [d.get(k, default)]. *)
Definition get (d : gmap string pyval) (k : string) : pyval :=
  default VNone (d !! k).

Definition get_or (d : gmap string pyval) (k : string) (dflt : pyval) : pyval :=
  default dflt (d !! k).

End Py.

Notation "x <- e1 ;; e2" := (Py.bind e1 (λ x, e2))
  (at level 100, e1 at next level, right associativity).

(** ** Strings and the regular expressions of the module

    Each [re.sub(pattern, repl, s)] of the source is the scan [re_sub] with the
    matcher of its pattern: a matcher is tried at every position from the
    left, sees the character before the position (for [\b]) and the rest of
    the subject, and answers with the replacement and the number of
    characters the match consumes; the scan resumes after the match. None of
    the patterns of the module matches the empty string. *)

Module Str.

Definition code (c : ascii) : nat := nat_of_ascii c.

Definition in_range (lo hi : nat) (c : ascii) : bool :=
  ((lo <=? code c) && (code c <=? hi))%nat.

(** [str.isspace], which is also [\s]: TAB..CR, FS..US and the space. *)
Definition is_space (c : ascii) : bool := in_range 9 13 c || in_range 28 32 c.
(** [\d] *)
Definition is_digit (c : ascii) : bool := in_range 48 57 c.
Definition is_upper (c : ascii) : bool := in_range 65 90 c.
Definition is_lower (c : ascii) : bool := in_range 97 122 c.
(** [\w] *)
Definition is_word (c : ascii) : bool :=
  is_digit c || is_upper c || is_lower c || Ascii.eqb c "_".

Definition upper_char (c : ascii) : ascii :=
  if is_lower c then ascii_of_nat (code c - 32) else c.

(** [s.upper()] *)
Fixpoint upper (s : string) : string :=
  match s with
  | EmptyString => EmptyString
  | String c r => String (upper_char c) (upper r)
  end.

Fixpoint lstrip (s : string) : string :=
  match s with
  | EmptyString => EmptyString
  | String c r => if is_space c then lstrip r else s
  end.

Fixpoint rstrip (s : string) : string :=
  match s with
  | EmptyString => EmptyString
  | String c r =>
      let r' := rstrip r in
      if is_space c && String.eqb r' "" then "" else String c r'
  end.

(** [s.strip()] *)
Definition strip (s : string) : string := rstrip (lstrip s).

(** [s.split(sep)] for a one-character separator. *)
Fixpoint split (sep : ascii) (s : string) : list string :=
  match s with
  | EmptyString => [""]
  | String c r =>
      if Ascii.eqb c sep then "" :: split sep r
      else match split sep r with
           | h :: t => String c h :: t
           | [] => [String c ""]
           end
  end.

(** [a in b] on strings. *)
Fixpoint contains (a b : string) : bool :=
  String.prefix a b ||
  match b with
  | EmptyString => false
  | String _ r => contains a r
  end.

(** [sep.join(parts)] *)
Definition join (sep : string) (parts : list string) : string :=
  String.concat sep parts.

Fixpoint drop (n : nat) (s : string) : string :=
  match n, s with
  | O, _ => s
  | S k, String _ r => drop k r
  | S _, EmptyString => EmptyString
  end.

Fixpoint take (n : nat) (s : string) : string :=
  match n, s with
  | S k, String c r => String c (take k r)
  | _, _ => EmptyString
  end.

(** The longest prefix of [s] whose characters satisfy [p]. *)
Fixpoint span (p : ascii → bool) (s : string) : string :=
  match s with
  | String c r => if p c then String c (span p r) else EmptyString
  | EmptyString => EmptyString
  end.

Fixpoint all_chars (p : ascii → bool) (s : string) : bool :=
  match s with
  | String c r => p c && all_chars p r
  | EmptyString => true
  end.

Definition head (s : string) : option ascii :=
  match s with String c _ => Some c | EmptyString => None end.

Fixpoint last (s : string) : option ascii :=
  match s with
  | EmptyString => None
  | String c EmptyString => Some c
  | String _ r => last r
  end.

(** [\b] between the character before a position ([None] at the start) and
    the character at it ([None] at the end). *)
Definition word_boundary (prev next : option ascii) : bool :=
  xorb (from_option is_word false prev) (from_option is_word false next).

Definition matcher : Type := option ascii → string → option (string * nat).

Fixpoint sub_from (m : matcher) (prev : option ascii) (skip : nat) (s : string)
  : string :=
  match s with
  | EmptyString => EmptyString
  | String c r =>
      match skip with
      | S k => sub_from m (Some c) k r
      | O =>
          match m prev s with
          | Some (repl, n) => repl +:+ sub_from m (Some c) (Nat.pred n) r
          | None => String c (sub_from m (Some c) O r)
          end
      end
  end.

Definition re_sub (m : matcher) (s : string) : string := sub_from m None 0%nat s.

(** [\s+] replaced by one space. *)
Definition m_spaces : matcher := λ _ s,
  match String.length (span is_space s) with
  | O => None
  | n => Some (" ", n)
  end.

(** [[^\w\s\-]] replaced by nothing. *)
Definition m_punct : matcher := λ _ s,
  match s with
  | String c _ =>
      if is_word c || is_space c || Ascii.eqb c "-" then None else Some ("", 1%nat)
  | EmptyString => None
  end.

(** [\bABBR\b] replaced by [full]. *)
Definition m_word (abbr full : string) : matcher := λ prev s,
  let rest := drop (String.length abbr) s in
  if word_boundary prev (head s) && String.prefix abbr s
     && word_boundary (last abbr) (head rest)
  then Some (full, String.length abbr) else None.

(** [\b0+(\d+)\b] replaced by [\1]. The digits at the position form the run
    [ds]; a match has to end where the run ends, for inside the run there is
    no [\b]. The greedy [0+] takes every leading zero and [\d+] the other
    digits; when the run is all zeros, [0+] gives one back and the group is
    ["0"]. A run of one digit does not match. *)
Definition m_zeros : matcher := λ prev s,
  let ds := span is_digit s in
  let zs := span (Ascii.eqb "0") s in
  let rest := drop (String.length ds) s in
  if word_boundary prev (head s)
     && (1 <=? String.length zs)%nat && (2 <=? String.length ds)%nat
     && word_boundary (last ds) (head rest)
  then
    Some (if (String.length zs =? String.length ds)%nat then "0"
          else drop (String.length zs) ds,
          String.length ds)
  else None.

(** [\b(UNIT|APT|SUITE|STE|#)\s*] replaced by ["UNIT "]: the first
    alternative that is a prefix, then every white space after it. *)
Definition m_unit : matcher := λ prev s,
  if word_boundary prev (head s) then
    match List.find (λ alt, String.prefix alt s) ["UNIT"; "APT"; "SUITE"; "STE"; "#"] with
    | Some alt =>
        let rest := drop (String.length alt) s in
        Some ("UNIT ", (String.length alt + String.length (span is_space rest))%nat)
    | None => None
    end
  else None.

End Str.

Import Py.

(** ** AddressNormalizer *)

Module AddressNormalizer.

Definition STREET_SUFFIXES : list (string * string) :=
  [("ST", "STREET"); ("AVE", "AVENUE"); ("BLVD", "BOULEVARD"); ("DR", "DRIVE");
   ("RD", "ROAD"); ("LN", "LANE"); ("CT", "COURT"); ("PL", "PLACE");
   ("TER", "TERRACE"); ("WAY", "WAY"); ("CIR", "CIRCLE"); ("PKWY", "PARKWAY")].

Definition DIRECTIONALS : list (string * string) :=
  [("N", "NORTH"); ("S", "SOUTH"); ("E", "EAST"); ("W", "WEST");
   ("NE", "NORTHEAST"); ("NW", "NORTHWEST"); ("SE", "SOUTHEAST");
   ("SW", "SOUTHWEST")].

(** [for abbr, full in table.items(): addr = re.sub(rf'\b{abbr}\b', full, addr)] *)
Definition expand (table : list (string * string)) (addr : string) : string :=
  fold_left (λ a '(abbr, full), Str.re_sub (Str.m_word abbr full) a) table addr.

(** The body of [normalize_address] once the argument is known to be a
    non-empty [str]. *)
Definition normalize_str (address : string) : string :=
  let addr := Str.strip (Str.upper address) in
  let addr := Str.re_sub Str.m_spaces addr in
  let addr := Str.re_sub Str.m_punct addr in
  let addr := expand STREET_SUFFIXES addr in
  let addr := expand DIRECTIONALS addr in
  let addr := Str.re_sub Str.m_zeros addr in
  let addr := Str.re_sub Str.m_unit addr in
  Str.strip addr.

(** [normalize_address(address)]: a falsy argument of any type gives [""],
    and [.upper()] exists on a [str] only. *)
Definition normalize_address (address : pyval) : result string :=
  if negb (truthy address) then Ok ""
  else match address with
       | VStr s => Ok (normalize_str s)
       | _ => Raise AttributeError
       end.

Record components : Type := {
  full_address : string;
  street : string;
  city : string;
  state : string;
  zip : string
}.

(** [re.match(r'([A-Z]{2})\s*(\d{5}(?:-\d{4})?)?', s)]: groups 1 and 2. *)
Definition match_state_zip (s : string) : option (string * option string) :=
  let st := Str.take 2 s in
  if (String.length st =? 2)%nat && Str.all_chars Str.is_upper st then
    let r := Str.drop 2 s in
    let r := Str.drop (String.length (Str.span Str.is_space r)) r in
    let z5 := Str.take 5 r in
    if (String.length z5 =? 5)%nat && Str.all_chars Str.is_digit z5 then
      let r4 := Str.drop 5 r in
      let z4 := Str.take 4 (Str.drop 1 r4) in
      if String.prefix "-" r4 && (String.length z4 =? 4)%nat
         && Str.all_chars Str.is_digit z4
      then Some (st, Some (z5 +:+ "-" +:+ z4))
      else Some (st, Some z5)
    else Some (st, None)
  else None.

(** [extract_address_components(address)]; [.split] exists on a [str] only. *)
Definition extract_address_components (address : pyval) : result components :=
  match address with
  | VStr a =>
      let parts := map Str.strip (Str.split "," a) in
      let street := default "" (parts !! 0%nat) in
      let city := default "" (parts !! 1%nat) in
      let '(state, zip) :=
        match parts !! 2%nat with
        | Some p =>
            match match_state_zip (Str.strip p) with
            | Some (st, z) => (st, default "" z)
            | None => ("", "")
            end
        | None => ("", "")
        end in
      Ok {| full_address := a; street := street; city := city;
            state := state; zip := zip |}
  | _ => Raise AttributeError
  end.

End AddressNormalizer.

(** ** Python numbers

    [int] is [Z]; [float] is binary64. Conversions round to nearest, ties to
    even, as CPython's do; they go through the Standard Library's
    specification of binary64 ([SpecFloat]) and back to primitive floats. *)

Module Num.

Definition of_spec (x : spec_float) : float := SF2Prim x.

(** The float nearest to the integer [z]. *)
Definition float_of_Z (z : Z) : float :=
  of_spec (binary_normalize prec emax z 0 false).

(** The float nearest to the quotient [a / b] of two integers, [b ≠ 0]. *)
Definition float_of_quotient (a b : Z) : float :=
  let neg := xorb (a <? 0) (b <? 0) in
  if a =? 0 then of_spec (S754_zero neg)
  else
    let '(q, e, l) := SFdiv_core_binary prec emax (Z.abs a) 0 (Z.abs b) 0 in
    of_spec (binary_round_aux prec emax neg q e l).

(** [float(n)] of an [int]: too large a magnitude raises. *)
Definition float_of_int (z : Z) : result float :=
  let f := float_of_Z z in
  if PrimFloat.is_infinity f then Raise OverflowError else Ok f.

(** [a / b] of two [int]s. *)
Definition int_truediv (a b : Z) : result float :=
  if b =? 0 then Raise ZeroDivisionError
  else
    let f := float_of_quotient a b in
    if PrimFloat.is_infinity f then Raise OverflowError else Ok f.

(** [a / b] of two [float]s. *)
Definition float_truediv (a b : float) : result float :=
  if PrimFloat.eqb b 0%float then Raise ZeroDivisionError
  else Ok (PrimFloat.div a b).

(** [max(a, b)] and [min(a, b)] of two [float]s: the first argument stays
    unless the second compares strictly beyond it. *)
Definition float_max (a b : float) : float := if PrimFloat.ltb a b then b else a.
Definition float_min (a b : float) : float := if PrimFloat.ltb b a then b else a.

(** The order between an [int] and a [float], exact; [None] against NaN. *)
Definition compare_Z_float (z : Z) (f : float) : option comparison :=
  match Prim2SF f with
  | S754_nan => None
  | S754_infinity s => Some (if s then Gt else Lt)
  | S754_zero _ => Some (z ?= 0)
  | S754_finite s m e =>
      let m := if s then Z.neg m else Z.pos m in
      Some (if 0 <=? e then z ?= m * 2 ^ e else z * 2 ^ (- e) ?= m)
  end.

(** A number of the tower [bool] ⊂ [int], [float]. *)
Inductive num : Type :=
| NInt (z : Z)
| NFloat (f : float).

Definition as_num (v : pyval) : option num :=
  match v with
  | VBool b => Some (NInt (if b then 1 else 0))
  | VInt z => Some (NInt z)
  | VFloat f => Some (NFloat f)
  | _ => None
  end.

(** [a < b] of two numbers. *)
Definition num_lt (a b : num) : bool :=
  match a, b with
  | NInt x, NInt y => x <? y
  | NFloat x, NFloat y => PrimFloat.ltb x y
  | NInt x, NFloat y => bool_decide (compare_Z_float x y = Some Lt)
  | NFloat x, NInt y => bool_decide (compare_Z_float y x = Some Gt)
  end.

Definition num_gt (a b : num) : bool := num_lt b a.

(** [a == b] of two numbers. *)
Definition num_eq (a b : num) : bool :=
  match a, b with
  | NInt x, NInt y => x =? y
  | NFloat x, NFloat y => PrimFloat.eqb x y
  | NInt x, NFloat y => bool_decide (compare_Z_float x y = Some Eq)
  | NFloat x, NInt y => bool_decide (compare_Z_float y x = Some Eq)
  end.

Definition to_float (a : num) : result float :=
  match a with
  | NInt z => float_of_int z
  | NFloat f => Ok f
  end.

(** [a - b] *)
Definition num_sub (a b : num) : result num :=
  match a, b with
  | NInt x, NInt y => Ok (NInt (x - y))
  | _, _ => x <- to_float a;; y <- to_float b;; Ok (NFloat (PrimFloat.sub x y))
  end.

(** [a / b] *)
Definition num_truediv (a b : num) : result float :=
  match a, b with
  | NInt x, NInt y => int_truediv x y
  | _, _ => x <- to_float a;; y <- to_float b;; float_truediv x y
  end.

End Num.

(** ** Conversions: [float(v)], [int(v)] and [format(x, ',.0f')] *)

Module Conv.

(** The white space [float] and [int] skip around a numeral (C's [isspace]). *)
Definition is_cspace (c : ascii) : bool :=
  Str.in_range 9 13 c || Str.in_range 32 32 c.

Definition cstrip (s : string) : string :=
  let l := Str.drop (String.length (Str.span is_cspace s)) s in
  (fix go (s : string) : string :=
     match s with
     | EmptyString => EmptyString
     | String c r =>
         let r' := go r in
         if is_cspace c && String.eqb r' "" then "" else String c r'
     end) l.

(** An underscore of a numeral stands between two digits; the numeral is
    read without its underscores. *)
Fixpoint remove_underscores (prev : option ascii) (s : string) : option string :=
  match s with
  | EmptyString => if bool_decide (prev = Some "_"%char) then None else Some ""
  | String c r =>
      if Ascii.eqb c "_" then
        if from_option Str.is_digit false prev then remove_underscores (Some c) r
        else None
      else if bool_decide (prev = Some "_"%char) && negb (Str.is_digit c) then None
      else String c <$> remove_underscores (Some c) r
  end.

Definition digit_value (c : ascii) : Z := Z.of_nat (Str.code c) - 48.

(** The value of a string of decimal digits. *)
Definition digits_value (s : string) : Z :=
  fold_left (λ acc c, acc * 10 + digit_value c) (list_ascii_of_string s) 0.

(** An optional sign and what follows it. *)
Definition split_sign (s : string) : bool * string :=
  match s with
  | String "-" r => (true, r)
  | String "+" r => (false, r)
  | _ => (false, s)
  end.

(** A decimal numeral [digits [. digits] [e [sign] digits]] with a digit in
    its mantissa, as the integer [n] of its mantissa digits and the power of
    ten [e] that scales it. *)
Definition parse_decimal (s : string) : option (Z * Z) :=
  let ip := Str.span Str.is_digit s in
  let r1 := Str.drop (String.length ip) s in
  let '(fp, r2) :=
    match r1 with
    | String "." r =>
        let fp := Str.span Str.is_digit r in (fp, Str.drop (String.length fp) r)
    | _ => ("", r1)
    end in
  if String.eqb (ip +:+ fp) "" then None
  else
    let n := digits_value (ip +:+ fp) in
    let scale := - Z.of_nat (String.length fp) in
    match r2 with
    | EmptyString => Some (n, scale)
    | String c r =>
        if Ascii.eqb c "e" || Ascii.eqb c "E" then
          let '(neg, ed) := split_sign r in
          if negb (String.eqb ed "") && Str.all_chars Str.is_digit ed then
            let e := digits_value ed in
            Some (n, scale + (if neg then - e else e))
          else None
        else None
    end.

(** The float nearest to [n * 10 ^ e], [0 ≤ n]; infinite beyond the range. *)
Definition float_of_decimal (n e : Z) : float :=
  if n =? 0 then 0%float
  else if 0 <=? e then Num.float_of_Z (n * 10 ^ e)
  else Num.float_of_quotient n (10 ^ (- e)).

(** [float(s)] of a [str]. *)
Definition float_of_str (s : string) : result float :=
  match remove_underscores None (cstrip s) with
  | None => Raise ValueError
  | Some s =>
      let '(neg, body) := split_sign s in
      let signed (f : float) := if neg then PrimFloat.opp f else f in
      let u := Str.upper body in
      if String.eqb u "INF" || String.eqb u "INFINITY" then Ok (signed infinity)
      else if String.eqb u "NAN" then Ok nan
      else match parse_decimal body with
           | Some (n, e) => Ok (signed (float_of_decimal n e))
           | None => Raise ValueError
           end
  end.

(** [sys.get_int_max_str_digits()], CPython's default. *)
Definition int_max_str_digits : nat := 4300.

(** [int(s)] of a [str], base ten. *)
Definition int_of_str (s : string) : result Z :=
  let '(neg, body) := split_sign (cstrip s) in
  match remove_underscores None body with
  | Some ds =>
      if negb (String.eqb ds "") && Str.all_chars Str.is_digit ds
         && (String.length ds <=? int_max_str_digits)%nat
      then Ok (if neg then - digits_value ds else digits_value ds)
      else Raise ValueError
  | None => Raise ValueError
  end.

(** [float(v)] *)
Definition py_float (v : pyval) : result float :=
  match v with
  | VBool b => Ok (if b then 1%float else 0%float)
  | VInt z => Num.float_of_int z
  | VFloat f => Ok f
  | VStr s => float_of_str s
  | VNone | VList _ => Raise TypeError
  end.

(** [int(f)] of a [float]: towards zero. *)
Definition int_of_float (f : float) : result Z :=
  match Prim2SF f with
  | S754_nan => Raise ValueError
  | S754_infinity _ => Raise OverflowError
  | S754_zero _ => Ok 0
  | S754_finite s m e =>
      let a := if 0 <=? e then Z.pos m * 2 ^ e else Z.pos m / 2 ^ (- e) in
      Ok (if s then - a else a)
  end.

(** [int(v)] *)
Definition py_int (v : pyval) : result Z :=
  match v with
  | VBool b => Ok (if b then 1 else 0)
  | VInt z => Ok z
  | VFloat f => int_of_float f
  | VStr s => int_of_str s
  | VNone | VList _ => Raise TypeError
  end.

(** Decimal digits in groups of three, as [format(n, ',')] prints [0 ≤ n]. *)
Fixpoint group_thousands (fuel : nat) (n : N) : string :=
  match fuel with
  | O => pretty n
  | S k =>
      if (n <? 1000)%N then pretty n
      else
        let low := pretty (n mod 1000)%N in
        group_thousands k (n / 1000)%N +:+ ","
        +:+ Str.drop (String.length low) "000" +:+ low
  end.

Definition format_comma (n : N) : string := group_thousands (N.to_nat (N.log2 n)) n.

(** [format(x, ',.0f')]: the nearest integer, ties to even. *)
Definition format_comma_0f (x : float) : string :=
  match Prim2SF x with
  | S754_nan => "nan"
  | S754_infinity s => if s then "-inf" else "inf"
  | S754_zero s => if s then "-0" else "0"
  | S754_finite s m e =>
      let n :=
        if 0 <=? e then Z.pos m * 2 ^ e
        else
          let d := 2 ^ (- e) in
          let q := Z.pos m / d in
          let r2 := 2 * (Z.pos m mod d) in
          if r2 <? d then q
          else if d <? r2 then q + 1
          else if Z.even q then q else q + 1 in
      (if s then "-" else "") +:+ format_comma (Z.to_N n)
  end.

End Conv.

(** ** PropertyMatcher *)

Module PropertyMatcher.

Import AddressNormalizer.

Local Open Scope float_scope.

(** [v.upper()]: the method exists on a [str] only. *)
Definition py_upper (v : pyval) : result string :=
  match v with
  | VStr s => Ok (Str.upper s)
  | _ => Raise AttributeError
  end.

(** [a == b] on values: numbers by value across [bool], [int] and [float],
    strings and [None] by content, containers element by element. *)
Fixpoint py_eq (a b : pyval) : bool :=
  match Num.as_num a, Num.as_num b with
  | Some x, Some y => Num.num_eq x y
  | _, _ =>
      match a, b with
      | VNone, VNone => true
      | VStr s, VStr t => String.eqb s t
      | VList l, VList m =>
          (fix go (l m : list pyval) : bool :=
             match l, m with
             | [], [] => true
             | x :: l', y :: m' => py_eq x y && go l' m'
             | _, _ => false
             end) l m
      | _, _ => false
      end
  end.

(** [listing.get('address_full') or listing.get('address', '')] *)
Definition address_of (listing : gmap string pyval) : pyval :=
  py_or (get listing "address_full") (get_or listing "address" (VStr "")).

(** The address signal: [score += 0.40] or [score += 0.30]. *)
Definition add_address (score : float) (addr1 addr2 : string) : float :=
  if negb (String.eqb addr1 "") && negb (String.eqb addr2 "") then
    if String.eqb addr1 addr2 then score + 0.40
    else if Str.contains addr1 addr2 || Str.contains addr2 addr1 then score + 0.30
    else score
  else score.

(** City, state and ZIP of one listing: the structured fields, completed
    from the full address when the city or the state is missing. *)
Definition location_of (listing : gmap string pyval)
  : result (pyval * pyval * pyval) :=
  let city := py_or (get listing "address_city") (VStr "") in
  let state := py_or (get listing "address_state") (VStr "") in
  let zip := py_or (get listing "address_zip") (VStr "") in
  if negb (truthy city) || negb (truthy state) then
    comp <- extract_address_components (address_of listing);;
    Ok (py_or city (VStr (AddressNormalizer.city comp)),
        py_or state (VStr (AddressNormalizer.state comp)),
        py_or zip (VStr (AddressNormalizer.zip comp)))
  else Ok (city, state, zip).

(** [a and b and a.upper() == b.upper()] *)
Definition same_upper (a b : pyval) : result bool :=
  if truthy a && truthy b then
    ua <- py_upper a;; ub <- py_upper b;; Ok (String.eqb ua ub)
  else Ok false.

(** The location signal, [location_match]. *)
Definition location_match (loc1 loc2 : pyval * pyval * pyval) : result float :=
  let '(city1, state1, zip1) := loc1 in
  let '(city2, state2, zip2) := loc2 in
  let m : float := 0 in
  c <- same_upper city1 city2;;
  let m := if c then m + 0.07 else m in
  s <- same_upper state1 state2;;
  let m := if s then m + 0.07 else m in
  let m := if truthy zip1 && truthy zip2 && py_eq zip1 zip2 then m + 0.06 else m in
  Ok m.

(** [t.upper() if t else ''] of the property type of one listing. *)
Definition type_of (listing : gmap string pyval) : result string :=
  let t := py_or (get listing "homeType") (get_or listing "property_type" (VStr "")) in
  if truthy t then py_upper t else Ok "".

Definition add_type (score : float) (type1 type2 : string) : float :=
  if negb (String.eqb type1 "") && negb (String.eqb type2 "") && String.eqb type1 type2
  then score + 0.15 else score.

(** [x, y = float(x), float(y); abs(x - y) / max(x, y)] *)
Definition variance (x y : pyval) : result float :=
  x <- Conv.py_float x;;
  y <- Conv.py_float y;;
  Num.float_truediv (abs (x - y)) (Num.float_max x y).

(** [try: ... except (ValueError, ZeroDivisionError): pass] around a step
    that updates the score. *)
Definition except_value_zero (score : float) (r : result float) : result float :=
  match r with
  | Raise ValueError | Raise ZeroDivisionError => Ok score
  | _ => r
  end.

Definition size_of (listing : gmap string pyval) : pyval :=
  py_or (py_or (get listing "area") (get listing "square_feet")) (get listing "sqft").

Definition add_size (score : float) (size1 size2 : pyval) : result float :=
  if truthy size1 && truthy size2 then
    except_value_zero score
      (v <- variance size1 size2;;
       Ok (if v <? 0.05 then score + 0.15
           else if v <? 0.10 then score + 0.10
           else if v <? 0.15 then score + 0.05
           else score))
  else Ok score.

Definition price_of (listing : gmap string pyval) : pyval :=
  py_or (get listing "unformattedPrice") (get listing "price").

Definition add_price (score : float) (price1 price2 : pyval) : result float :=
  if truthy price1 && truthy price2 then
    except_value_zero score
      (v <- variance price1 price2;;
       Ok (if v <? 0.05 then score + 0.10
           else if v <? 0.20 then score + 0.05
           else score))
  else Ok score.

Definition calculate_match_score (listing1 listing2 : gmap string pyval)
  : result float :=
  let score : float := 0 in
  addr1 <- normalize_address (address_of listing1);;
  addr2 <- normalize_address (address_of listing2);;
  let score := add_address score addr1 addr2 in
  loc1 <- location_of listing1;;
  loc2 <- location_of listing2;;
  m <- location_match loc1 loc2;;
  let score := score + m in
  type1 <- type_of listing1;;
  type2 <- type_of listing2;;
  let score := add_type score type1 type2 in
  score <- add_size score (size_of listing1) (size_of listing2);;
  add_price score (price_of listing1) (price_of listing2).

Definition is_match_at (threshold : float)
  (listing1 listing2 : gmap string pyval) : result (bool * float) :=
  score <- calculate_match_score listing1 listing2;;
  Ok (threshold <=? score, score).

(** [is_match(listing1, listing2)] with the default threshold. *)
Definition is_match := is_match_at 0.70.

End PropertyMatcher.

(** ** Listings

    A listing is the dict [process_listings] builds from a
    [RawListingRecord]; a key read with [.get] may be missing. *)

Record listing : Type := {
  source_platform : option string;
  extraction_timestamp : option datetime;
  listing_id : option string;
  raw_fields : option (gmap string pyval);
  metadata : option (gmap string pyval)
}.

(** [l.get('raw_fields', {})] *)
Definition raw_of (l : listing) : gmap string pyval := default ∅ (raw_fields l).

(** [l.get('extraction_timestamp', datetime.min)] *)
Definition timestamp_of (l : listing) : datetime :=
  default datetime_min (extraction_timestamp l).

(** ** DataConsolidator *)

Module DataConsolidator.

Local Open Scope float_scope.

(** [sorted(l, key=key, reverse=True)]: descending keys; the sort is stable,
    and [reverse=True] keeps elements with equal keys in their original
    order. *)
Section Sorted.
Context {A : Type} (key : A → datetime).

Fixpoint insert_desc (x : A) (l : list A) : list A :=
  match l with
  | [] => [x]
  | y :: l' => if (key x <? key y)%N then y :: insert_desc x l' else x :: l
  end.

Definition sorted_desc (l : list A) : list A := foldr insert_desc [] l.
End Sorted.

(** [field_name in l.get('raw_fields', {})] *)
Definition has_field (field_name : string) (l : listing) : bool :=
  bool_decide (is_Some (raw_of l !! field_name)).

Definition get_field_precedence (field_name : string) (listings : list listing)
  : pyval :=
  let candidates := List.filter (has_field field_name) listings in
  match candidates with
  | [] => VNone
  | _ =>
      match sorted_desc timestamp_of candidates with
      | first :: _ => get (raw_of first) field_name
      | [] => VNone
      end
  end.

Record observation : Type := {
  source : option string;
  value : pyval
}.

Record conflict : Type := {
  field : string;
  values : list observation;
  variance_percent : option float
}.

(** The observations [detect_conflicts] gathers: one per listing whose
    value of the field is not [None]. *)
Definition observations (field_name : string) (listings : list listing)
  : list observation :=
  omap (λ l, match get (raw_of l) field_name with
             | VNone => None
             | val => Some {| source := source_platform l; value := val |}
             end) listings.

(** An operand of [>] or [<] against a number: a value that is no number
    has no order with one. *)
Definition num_of (v : pyval) : result Num.num :=
  match Num.as_num v with
  | Some n => Ok n
  | None => Raise TypeError
  end.

(** [max(...)] and [min(...)] of a sequence that starts with the number
    [first]: the running extremum is replaced by an item strictly beyond it. *)
Definition py_max (first : Num.num) (rest : list pyval) : result Num.num :=
  foldl (λ acc v, m <- acc;; x <- num_of v;;
                  Ok (if Num.num_gt x m then x else m)) (Ok first) rest.

Definition py_min (first : Num.num) (rest : list pyval) : result Num.num :=
  foldl (λ acc v, m <- acc;; x <- num_of v;;
                  Ok (if Num.num_lt x m then x else m)) (Ok first) rest.

Section Detect.
(** [str(v)], the interpreter's printing of a value. *)
Variable py_str : pyval → string.

Definition detect_conflicts (field_name : string) (listings : list listing)
  (variance_threshold : float) : result (option conflict) :=
  let values := observations field_name listings in
  match values with
  | [] | [_] => Ok None
  | first :: rest =>
      match Num.as_num (value first) with
      | Some first_val =>
          max_val <- py_max first_val (map value rest);;
          min_val <- py_min first_val (map value rest);;
          if Num.num_gt max_val (Num.NInt 0) then
            d <- Num.num_sub max_val min_val;;
            variance <- Num.num_truediv d max_val;;
            if variance_threshold <? variance then
              Ok (Some {| field := field_name; values := values;
                          variance_percent := Some (variance * 100) |})
            else Ok None
          else Ok None
      | None =>
          let unique_vals : gset string :=
            list_to_set (map (λ v, py_str (value v)) values) in
          if (1 <? size unique_vals)%nat then
            Ok (Some {| field := field_name; values := values;
                        variance_percent := None |})
          else Ok None
      end
  end.
End Detect.

End DataConsolidator.

(** ** PropertyClassifier *)

Module PropertyClassifier.

Definition ALLOWED_PROPERTY_TYPES : list string :=
  ["MULTIFAMILY"; "OFFICE"; "RETAIL"; "INDUSTRIAL"; "MIXED-USE"].
Definition MIN_PRICE : Z := 100000.
Definition MAX_PRICE : Z := 50000000.
Definition MAX_DAYS_ON_MARKET : Z := 365.

Record details : Type := {
  reason_category : string;
  explanation : string;
  discarded_date : datetime
}.

Definition zillow_type_mapping : list (string * string) :=
  [("SINGLE_FAMILY", "SINGLE_FAMILY"); ("MULTI_FAMILY", "MULTIFAMILY");
   ("APARTMENT", "MULTIFAMILY"); ("CONDO", "CONDO"); ("TOWNHOUSE", "TOWNHOUSE");
   ("LOT", "LAND"); ("FARM", "LAND")].

(** The property type, upper-cased and mapped; the allow-list that would
    use it is commented out in the source, so only a failure of [.upper()]
    shows. *)
Definition prop_type_of (consolidated_data : gmap string pyval) : result string :=
  let prop_type :=
    py_or (get consolidated_data "homeType")
          (get_or consolidated_data "property_type" (VStr "")) in
  prop_type <- (if truthy prop_type then PropertyMatcher.py_upper prop_type else Ok "");;
  Ok (default prop_type (snd <$> List.find (λ kv, String.eqb (fst kv) prop_type)
                                           zillow_type_mapping)).

(** [re.sub(r'[^\d.]', '', price)] *)
Definition m_not_digit_dot : Str.matcher := λ _ s,
  match s with
  | String c _ =>
      if Str.is_digit c || Ascii.eqb c "." then None else Some ("", 1%nat)
  | EmptyString => None
  end.

(** The number the price rule compares: a [str] is stripped first. *)
Definition price_number (price : pyval) : result float :=
  let price :=
    match price with
    | VStr s => VStr (Str.re_sub m_not_digit_dot s)
    | _ => price
    end in
  Conv.py_float price.

Definition outside_range (price : float) : bool :=
  Num.num_lt (Num.NFloat price) (Num.NInt MIN_PRICE)
  || Num.num_gt (Num.NFloat price) (Num.NInt MAX_PRICE).

(** [try: ... except (ValueError, TypeError): pass]: the handled
    exceptions turn into [dflt]. *)
Definition except_value_type {A : Type} (dflt : A) (r : result A) : result A :=
  match r with
  | Raise ValueError | Raise TypeError => Ok dflt
  | _ => r
  end.

Definition verdict : Type := string * option string * option details.

(** [classify_property(consolidated_data)]. [now] is the reading of
    [datetime.utcnow()]. The rules run in the order of the source: missing
    fields, property type (computed, not enforced), price range, days on
    market. A [return] inside a [try] block shows as the value of the
    guarded step: [rejected] holds the price the range rule returns on,
    [stale] tells that the staleness rule returns. *)
Definition classify_property (now : datetime) (consolidated_data : gmap string pyval)
  : result verdict :=
  let required_fields := ["address"] in
  let missing_fields :=
    List.filter (λ f, negb (truthy (get consolidated_data f))) required_fields in
  match missing_fields with
  | _ :: _ =>
      Ok ("discarded", Some "missing_critical_fields",
          Some {| reason_category := "incomplete_data";
                  explanation := "Missing required fields: "
                                 +:+ Str.join ", " missing_fields;
                  discarded_date := now |})
  | [] =>
      _ <- prop_type_of consolidated_data;;
      let price :=
        py_or (get consolidated_data "unformattedPrice") (get consolidated_data "price") in
      rejected <-
        (if truthy price then
           except_value_type None
             (price <- price_number price;;
              Ok (if outside_range price then Some price else None))
         else Ok None);;
      match rejected with
      | Some price =>
          Ok ("discarded", Some "outside_investment_mandate",
              Some {| reason_category := "price_out_of_range";
                      explanation :=
                        "Price $" +:+ Conv.format_comma_0f price
                        +:+ " outside range ($"
                        +:+ Conv.format_comma (Z.to_N MIN_PRICE) +:+ " - $"
                        +:+ Conv.format_comma (Z.to_N MAX_PRICE) +:+ ")";
                      discarded_date := now |})
      | None =>
          let days_on_market :=
            py_or (get consolidated_data "daysOnZillow")
                  (get consolidated_data "days_on_market") in
          stale <-
            (if truthy days_on_market then
               except_value_type false
                 (days <- Conv.py_int days_on_market;;
                  Ok (MAX_DAYS_ON_MARKET <? days))
             else Ok false);;
          if stale then Ok ("flagged", None, None)
          else Ok ("usable", None, None)
      end
  end.

End PropertyClassifier.

(** ** The records of models.py *)

Module Models.

Record RawListingRecord : Type := {
  source_platform : string;
  extraction_timestamp : datetime;
  listing_id_native : string;
  raw_fields : gmap string pyval;
  metadata : gmap string pyval
}.

(** One entry of [source_listings]; [extracted] stands for the ISO text of
    the instant. *)
Record source_summary : Type := {
  platform : string;
  listing_id : string;
  extracted : datetime
}.

Record ConsolidatedProperty : Type := {
  property_id : string;
  consolidated_data : gmap string pyval;
  source_listings : list source_summary;
  conflicts : list DataConsolidator.conflict;
  classification : string;
  discard_reason : option string;
  discard_details : option PropertyClassifier.details;
  last_updated : datetime
}.

End Models.

(** ** CentralProcessingNode *)

Module CentralProcessingNode.

(** [d[key]]: a missing key raises. *)
Definition item {A : Type} (o : option A) : result A :=
  match o with
  | Some a => Ok a
  | None => Raise KeyError
  end.

(** [is_match(listing1['raw_fields'], listing2['raw_fields'])], the flag. *)
Definition matches (listing1 listing2 : listing) : result bool :=
  raw1 <- item (raw_fields listing1);;
  raw2 <- item (raw_fields listing2);;
  r <- PropertyMatcher.is_match raw1 raw2;;
  Ok (fst r).

(** The inner loop of [_group_listings]:
    [for j, listing2 in enumerate(listings[i+1:], start=i+1)], entered with
    [rest = listings[i+1:]] and [j = i+1]. *)
Fixpoint find_matches (listing1 : listing) (j : nat) (rest : list listing)
  (group : list listing) (processed : gset nat)
  : result (list listing * gset nat) :=
  match rest with
  | [] => Ok (group, processed)
  | listing2 :: rest' =>
      if bool_decide (j ∈ processed) then
        find_matches listing1 (S j) rest' group processed
      else
        is_match <- matches listing1 listing2;;
        if is_match : bool then
          find_matches listing1 (S j) rest' (group ++ [listing2]) ({[j]} ∪ processed)
        else find_matches listing1 (S j) rest' group processed
  end.

(** The outer loop, [for i, listing1 in enumerate(listings)], at index [i]
    with [suffix = listings[i:]]. *)
Fixpoint group_from (i : nat) (suffix : list listing)
  (groups : list (list listing)) (processed : gset nat)
  : result (list (list listing)) :=
  match suffix with
  | [] => Ok groups
  | listing1 :: rest =>
      if bool_decide (i ∈ processed) then group_from (S i) rest groups processed
      else
        r <- find_matches listing1 (S i) rest [listing1] ({[i]} ∪ processed);;
        group_from (S i) rest (groups ++ [fst r]) (snd r)
  end.

Definition _group_listings (listings : list listing) : result (list (list listing)) :=
  group_from 0 listings [] ∅.

Definition common_fields : list string :=
  ["address"; "address_full"; "address_street"; "address_city"; "address_state";
   "address_zip"; "price"; "unformattedPrice"; "beds"; "baths"; "area";
   "latitude"; "longitude"; "homeType"; "homeStatus"; "daysOnZillow"].

(** [f"PROP-{group_id:06d}"] *)
Definition property_id_of (group_id : nat) : string :=
  let digits := pretty group_id in
  "PROP-" +:+ Str.drop (String.length digits) "000000" +:+ digits.

Section Consolidate.
(** [str(v)], the interpreter's printing of a value. *)
Variable py_str : pyval → string.
(** [datetime.utcnow()], the clock reading of the run. *)
Variable now : datetime.

(** The loop over [common_fields]: the best value and the conflict of
    each field. *)
Definition consolidate_fields (group_listings : list listing)
  : result (gmap string pyval * list DataConsolidator.conflict) :=
  foldl (λ (acc : result (gmap string pyval * list DataConsolidator.conflict)) field,
           st <- acc;;
           let value := DataConsolidator.get_field_precedence field group_listings in
           let data :=
             match value with
             | VNone => fst st
             | _ => <[field := value]> (fst st)
             end in
           conflict <- DataConsolidator.detect_conflicts py_str field group_listings 0.05;;
           Ok (data, match conflict with
                     | Some c => (snd st ++ [c])%list
                     | None => snd st
                     end))
        (Ok (∅, [])) common_fields.

(** The standard [address] entry classification reads. *)
Definition with_address (data : gmap string pyval) : gmap string pyval :=
  match data !! "address_full", data !! "address" with
  | Some full, None => <["address" := full]> data
  | _, _ =>
      match data !! "address", data !! "address_street" with
      | None, Some _ =>
          let parts :=
            omap (λ f, match data !! f with
                       | Some v => if truthy v then Some (py_str v) else None
                       | None => None
                       end)
                 ["address_street"; "address_city"; "address_state"; "address_zip"] in
          match parts with
          | [] => data
          | _ => <["address" := VStr (Str.join ", " parts)]> data
          end
      | _, _ => data
      end
  end.

Definition summary_of (l : listing) : result Models.source_summary :=
  p <- item (source_platform l);;
  i <- item (listing_id l);;
  t <- item (extraction_timestamp l);;
  Ok {| Models.platform := p; Models.listing_id := i; Models.extracted := t |}.

Definition _consolidate_group (group_id : nat) (group_listings : list listing)
  : result Models.ConsolidatedProperty :=
  st <- consolidate_fields group_listings;;
  let consolidated_data := with_address (fst st) in
  v <- PropertyClassifier.classify_property now consolidated_data;;
  source_listings <- mapM_result summary_of group_listings;;
  Ok {| Models.property_id := property_id_of group_id;
        Models.consolidated_data := consolidated_data;
        Models.source_listings := source_listings;
        Models.conflicts := snd st;
        Models.classification := fst (fst v);
        Models.discard_reason := snd (fst v);
        Models.discard_details := snd v;
        Models.last_updated := now |}.

(** The dict [process_listings] makes of a record. *)
Definition to_listing (l : Models.RawListingRecord) : listing :=
  {| source_platform := Some (Models.source_platform l);
     extraction_timestamp := Some (Models.extraction_timestamp l);
     listing_id := Some (Models.listing_id_native l);
     raw_fields := Some (Models.raw_fields l);
     metadata := Some (Models.metadata l) |}.

Definition process_listings (raw_listings : list Models.RawListingRecord)
  : result (list Models.ConsolidatedProperty) :=
  let listings_dict := map to_listing raw_listings in
  property_groups <- _group_listings listings_dict;;
  mapM_result (λ '(group_id, group_listings),
                 _consolidate_group group_id group_listings)
              (imap pair property_groups).
End Consolidate.

End CentralProcessingNode.

(** ** The Zillow listing of models.py *)

Module ZillowListing.

Record ZillowAddress : Type := {
  street : option string;
  city : option string;
  state : option string;
  zipcode : option string
}.

(** A part of the address that is set and not empty. *)
Definition part (p : option string) : option string :=
  match p with
  | Some s => if String.eqb s "" then None else Some s
  | None => None
  end.

(** [listing.get_full_address()], from the [address] of the listing. *)
Definition get_full_address (address : option ZillowAddress) : string :=
  match address with
  | None => ""
  | Some a =>
      Str.join ", " (omap part [street a; city a; state a; zipcode a])
  end.

End ZillowListing.

(** ** The helpers of utils.py *)

Module Utils.

(** [range(0, n, step)] for a positive [step], from [i] on: one unit of
    fuel per index. *)
Fixpoint range_from (fuel i n step : nat) : list nat :=
  match fuel with
  | O => []
  | S fuel' => if (i <? n)%nat then i :: range_from fuel' (i + step) n step else []
  end.

(** [items[i:j]] for [0 ≤ i ≤ j]. *)
Definition slice {A : Type} (items : list A) (i j : nat) : list A :=
  take (j - i) (drop i items).

(** [batch_list(items, batch_size)]: [range] rejects a zero step, and a
    negative step from 0 gives no index. *)
Definition batch_list {A : Type} (items : list A) (batch_size : Z)
  : result (list (list A)) :=
  if batch_size =? 0 then Raise ValueError
  else if batch_size <? 0 then Ok []
  else
    let step := Z.to_nat batch_size in
    Ok (map (λ i, slice items i (i + step))
            (range_from (length items) 0 (length items) step)).

(** [text[:stop]]: a negative [stop] counts from the end. *)
Definition slice_to (text : string) (stop : Z) : string :=
  if stop <? 0 then Str.take (Z.to_nat (Z.of_nat (String.length text) + stop)) text
  else Str.take (Z.to_nat stop) text.

Definition truncate_string (text : string) (max_length : Z) (suffix : string)
  : string :=
  if Z.of_nat (String.length text) <=? max_length then text
  else slice_to text (max_length - Z.of_nat (String.length suffix)) +:+ suffix.

(** [clean_string(text)]: a falsy argument gives [""], and [.strip()]
    exists on a [str] only. *)
Definition clean_string (text : pyval) : result string :=
  if negb (truthy text) then Ok ""
  else match text with
       | VStr s => Ok (Str.re_sub Str.m_spaces (Str.strip s))
       | _ => Raise AttributeError
       end.

(** [calculate_variance(value1, value2)] on two [float]s. *)
Definition calculate_variance (value1 value2 : float) : result float :=
  if PrimFloat.eqb value1 0 && PrimFloat.eqb value2 0 then Ok 0%float
  else
    let max_val := Num.float_max (PrimFloat.abs value1) (PrimFloat.abs value2) in
    if PrimFloat.eqb max_val 0 then Ok 0%float
    else Num.float_truediv (PrimFloat.abs (value1 - value2)) max_val.

End Utils.

(** ** Notions the properties are stated with *)

Module Notions.

Import PropertyClassifier.

(** The verdict of the first rule of [classify_property]. *)
Definition missing_address_verdict (now : datetime) : verdict :=
  ("discarded", Some "missing_critical_fields",
   Some {| reason_category := "incomplete_data";
           explanation := "Missing required fields: address";
           discarded_date := now |}).

(** The value the price rule reads and the one the staleness rule reads. *)
Definition record_price (d : gmap string pyval) : pyval :=
  py_or (get d "unformattedPrice") (get d "price").

Definition record_days (d : gmap string pyval) : pyval :=
  py_or (get d "daysOnZillow") (get d "days_on_market").


(** The property type the record carries, if any, is text. *)
Definition type_is_text (d : gmap string pyval) : bool :=
  match py_or (get d "homeType") (get_or d "property_type" (VStr "")) with
  | VStr _ => true
  | v => negb (truthy v)
  end.

(** What the specification states of every [ConsolidatedProperty]. *)
Definition discard_fields_iff_discarded (p : Models.ConsolidatedProperty) : Prop :=
  (Models.discard_reason p ≠ None ↔ Models.classification p = "discarded")
  ∧ (Models.discard_details p ≠ None ↔ Models.classification p = "discarded").

(** The grouping as the specification words it: the first listing not yet
    assigned leads a new group; every later unassigned listing is compared
    with the leader, and with the leader only; those that match join the
    group; the scan goes on with the listings left over. *)
Fixpoint split_by_leader (leader : listing) (rest : list listing)
  : result (list listing * list listing) :=
  match rest with
  | [] => Ok ([], [])
  | x :: rest' =>
      m <- CentralProcessingNode.matches leader x;;
      r <- split_by_leader leader rest';;
      Ok (if m : bool then (x :: fst r, snd r) else (fst r, x :: snd r))
  end.

Fixpoint spec_leader_grouping_fuel (fuel : nat) (l : list listing)
  : result (list (list listing)) :=
  match l with
  | [] => Ok []
  | leader :: rest =>
      match fuel with
      | O => Ok []
      | S fuel' =>
          r <- split_by_leader leader rest;;
          gs <- spec_leader_grouping_fuel fuel' (snd r);;
          Ok ((leader :: fst r) :: gs)
      end
  end.

(** One unit of fuel per listing is enough: every round assigns its leader. *)
Definition spec_leader_grouping (l : list listing) : result (list (list listing)) :=
  spec_leader_grouping_fuel (length l) l.

(** The groups of a list of listings, as a relation: the first listing
    leads the first group, which takes the later listings that match it;
    the other listings are grouped in the same way. *)
Inductive leader_grouped : list listing → list (list listing) → Prop :=
| grouped_nil : leader_grouped [] []
| grouped_cons leader rest members others groups :
    split_by_leader leader rest = Ok (members, others) →
    leader_grouped others groups →
    leader_grouped (leader :: rest) ((leader :: members) :: groups).

(** The listings of [suffix], which starts at index [i], that [processed]
    does not hold. *)
Fixpoint unassigned (i : nat) (suffix : list listing) (processed : gset nat)
  : list listing :=
  match suffix with
  | [] => []
  | x :: rest =>
      if bool_decide (i ∈ processed) then unassigned (S i) rest processed
      else x :: unassigned (S i) rest processed
  end.

(** The numbers of a list of observations, when all of them are numbers. *)
Definition numbers_of (obs : list DataConsolidator.observation) : option (list Num.num) :=
  mapM (λ o, Num.as_num (DataConsolidator.value o)) obs.

(** [max] and [min] of a non-empty sequence of numbers, and the relative
    variance [(max - min) / max] of the specification. *)
Definition max_of (first : Num.num) (rest : list Num.num) : Num.num :=
  foldl (λ m x, if Num.num_gt x m then x else m) first rest.

Definition min_of (first : Num.num) (rest : list Num.num) : Num.num :=
  foldl (λ m x, if Num.num_lt x m then x else m) first rest.

Definition relative_variance (max_val min_val : Num.num) : result float :=
  d <- Num.num_sub max_val min_val;; Num.num_truediv d max_val.

(** One turn of the loop of [_consolidate_group] over the fields. *)
Definition consolidate_step (py_str : pyval → string) (group_listings : list listing)
  (acc : result (gmap string pyval * list DataConsolidator.conflict))
  (field : string)
  : result (gmap string pyval * list DataConsolidator.conflict) :=
  st <- acc;;
  let value := DataConsolidator.get_field_precedence field group_listings in
  let data :=
    match value with
    | VNone => fst st
    | _ => <[field := value]> (fst st)
    end in
  conflict <- DataConsolidator.detect_conflicts py_str field group_listings 0.05;;
  Ok (data, match conflict with
            | Some c => (snd st ++ [c])%list
            | None => snd st
            end).

(** The parts [_consolidate_group] joins into an address. *)
Definition address_parts (py_str : pyval → string) (data : gmap string pyval)
  : list string :=
  omap (λ f, match data !! f with
             | Some v => if truthy v then Some (py_str v) else None
             | None => None
             end)
       ["address_street"; "address_city"; "address_state"; "address_zip"].

(** The [source_listings] entry a raw record gives. *)
Definition record_summary (r : Models.RawListingRecord) : Models.source_summary :=
  {| Models.platform := Models.source_platform r;
     Models.listing_id := Models.listing_id_native r;
     Models.extracted := Models.extraction_timestamp r |}.

(** The characters a normalised address is made of: upper-case letters,
    digits, the underscore, the plain space and the hyphen. *)
Definition normal_char (c : ascii) : bool :=
  Str.is_upper c || Str.is_digit c || Ascii.eqb c "_" || Ascii.eqb c " "
  || Ascii.eqb c "-".

(** A state as [extract_address_components] reports it: nothing, or two
    upper-case letters. A ZIP as it reports it: nothing, five digits, or
    five digits, a hyphen and four digits. *)
Definition state_shape (s : string) : bool :=
  String.eqb s "" || ((String.length s =? 2)%nat && Str.all_chars Str.is_upper s).

Definition zip_shape (z : string) : bool :=
  String.eqb z ""
  || ((String.length z =? 5)%nat && Str.all_chars Str.is_digit z)
  || ((String.length z =? 10)%nat
      && Str.all_chars Str.is_digit (Str.take 5 z)
      && String.eqb (Str.take 1 (Str.drop 5 z)) "-"
      && Str.all_chars Str.is_digit (Str.drop 6 z)).

(** The scores the five signals can add up to, in the order the source
    adds them: address, location, property type, size, price. *)
Definition location_values : list float :=
  [false; true] ≫= λ c : bool,
  [false; true] ≫= λ s : bool,
  [false; true] ≫= λ z : bool,
  let m : float := 0%float in
  let m := if c then (m + 0.07)%float else m in
  let m := if s then (m + 0.07)%float else m in
  let m := if z then (m + 0.06)%float else m in
  [m].

Definition attainable_scores : list float :=
  [0; 0 + 0.40; 0 + 0.30]%float ≫= λ s0 : float,
  location_values ≫= λ m : float,
  [(s0 + m)%float; (s0 + m + 0.15)%float] ≫= λ s1 : float,
  [s1; s1 + 0.15; s1 + 0.10; s1 + 0.05]%float ≫= λ s2 : float,
  [s2; s2 + 0.10; s2 + 0.05]%float.

(** The scores a pair can reach once the address signal has left the
    score at [s0]. *)
Definition scores_after_address (s0 : float) : list float :=
  location_values ≫= λ m : float,
  [(s0 + m)%float; (s0 + m + 0.15)%float] ≫= λ s1 : float,
  [s1; s1 + 0.15; s1 + 0.10; s1 + 0.05]%float ≫= λ s2 : float,
  [s2; s2 + 0.10; s2 + 0.05]%float.

(** The two normalized addresses give an address signal: both are
    non-empty, and they are equal or one contains the other. *)
Definition address_signal (addr1 addr2 : string) : bool :=
  negb (String.eqb addr1 "") && negb (String.eqb addr2 "")
  && (String.eqb addr1 addr2 || Str.contains addr1 addr2 || Str.contains addr2 addr1).

(** Fields the matcher can read: a value used as text is a [str] or falsy,
    the address is a [str] when the city or the state has to be read from
    it, and a size or price is falsy or something [float] takes: a [str], a
    [float], a [bool], or an [int] within the range of a float. *)
Definition is_text (v : pyval) : bool :=
  match v with VStr _ => true | _ => false end.

Definition text_or_falsy (v : pyval) : bool := negb (truthy v) || is_text v.

Definition converts (v : pyval) : bool :=
  negb (truthy v)
  || match v with
     | VStr _ | VFloat _ | VBool _ => true
     | VInt z => negb (PrimFloat.is_infinity (Num.float_of_Z z))
     | VNone | VList _ => false
     end.

Definition comparable (a : gmap string pyval) : bool :=
  let addr := PropertyMatcher.address_of a in
  let city := get a "address_city" in
  let state := get a "address_state" in
  text_or_falsy addr
  && text_or_falsy city && text_or_falsy state
  && (truthy city && truthy state || is_text addr)
  && text_or_falsy (py_or (get a "homeType") (get_or a "property_type" (VStr "")))
  && converts (PropertyMatcher.size_of a) && converts (PropertyMatcher.price_of a).

(** A text in which white space occurs only as a single space between
    two other characters: [prev] tells whether a space may come next. *)
Fixpoint spaced (prev : bool) (s : string) : bool :=
  match s with
  | EmptyString => prev
  | String c r =>
      if Str.is_space c then prev && Ascii.eqb c " " && spaced false r
      else spaced true r
  end.

Definition tidy (s : string) : bool := String.eqb s "" || spaced false s.

(** The characters of a text that are no white space, in order. *)
Fixpoint without_spaces (s : string) : string :=
  match s with
  | EmptyString => EmptyString
  | String c r => if Str.is_space c then without_spaces r
                  else String c (without_spaces r)
  end.

(** A text without comma. *)
Definition comma_free (s : string) : bool :=
  Str.all_chars (λ c, negb (Ascii.eqb c ",")) s.

(** No NaN: the value equals itself. *)
Definition is_number (f : float) : bool := PrimFloat.eqb f f.

End Notions.

(** ** Sample data for the worked examples *)

Module Samples.

(** [str(v)] for the values the examples print: [None], [bool], [int] and
    [str]. *)
Definition str_plain (v : pyval) : string :=
  match v with
  | VNone => "None"
  | VBool b => if b then "True" else "False"
  | VInt z => pretty z
  | VStr s => s
  | VFloat _ | VList _ => ""
  end.

Definition record (platform id : string) (t : datetime) (fields : gmap string pyval)
  : Models.RawListingRecord :=
  {| Models.source_platform := platform;
     Models.extraction_timestamp := t;
     Models.listing_id_native := id;
     Models.raw_fields := fields;
     Models.metadata := ∅ |}.

(** The two listings of [test_property_matching] in test_zillow.py. *)
Definition test_listing1 : gmap string pyval :=
  {[ "address" := VStr "123 Main Street, Seattle, WA 98101";
     "price" := VInt 1000000; "area" := VInt 2000 ]}.
Definition test_listing2 : gmap string pyval :=
  {[ "address" := VStr "123 Main St, Seattle, WA 98101";
     "price" := VInt 1050000; "area" := VInt 2050 ]}.

(** What the Zillow agent stores for a listing without address: the
    [address] entry is [None] and no flattened address field is set. *)
Definition fields_no_address : gmap string pyval :=
  {[ "address" := VNone; "price" := VStr "$450,000";
     "unformattedPrice" := VInt 450000; "homeType" := VStr "CONDO" ]}.

(** A listing with every field the matcher reads. *)
Definition fields_full : gmap string pyval :=
  {[ "address_full" := VStr "12 Oak St, Seattle, WA 98101";
     "address_city" := VStr "Seattle"; "address_state" := VStr "WA";
     "address_zip" := VStr "98101"; "homeType" := VStr "CONDO";
     "area" := VInt 2000; "unformattedPrice" := VInt 1000000 ]}.

(** Three listings of one address: [a] and [b] match, [b] and [c] match,
    [a] and [c] do not. *)
Definition fields_a : gmap string pyval :=
  {[ "address" := VStr "12 Oak St, Seattle, WA";
     "price" := VInt 1000000; "area" := VInt 2000 ]}.
Definition fields_b : gmap string pyval :=
  {[ "address" := VStr "12 Oak Street, Seattle, WA";
     "price" := VInt 1100000; "area" := VInt 2080 ]}.
Definition fields_c : gmap string pyval :=
  {[ "address" := VStr "12 Oak St., Seattle, WA";
     "price" := VInt 1210000; "area" := VInt 2160 ]}.
(** A listing without address. *)
Definition fields_d : gmap string pyval :=
  {[ "price" := VStr "$450,000"; "daysOnZillow" := VInt 12 ]}.

Definition record_a := record "zillow" "z-1" 1%N fields_a.
Definition record_b := record "loopnet" "l-7" 2%N fields_b.
Definition record_c := record "crexi" "c-3" 3%N fields_c.
Definition record_d := record "zillow" "z-9" 4%N fields_d.

(** Two listings whose prices do not convert: a formatted string, which
    [float] rejects with [ValueError], and a nested value, which it rejects
    with [TypeError]. *)
Definition fields_formatted : gmap string pyval := {[ "price" := VStr "$500,000" ]}.
Definition fields_nested : gmap string pyval := {[ "price" := VList [VInt 500000] ]}.

(** The listing dicts of the three sample records. *)
Definition listing_a : listing := CentralProcessingNode.to_listing record_a.
Definition listing_b : listing := CentralProcessingNode.to_listing record_b.
Definition listing_c : listing := CentralProcessingNode.to_listing record_c.

(** A listing that reports [value] as its price. *)
Definition priced (platform : string) (value : pyval) : listing :=
  {| source_platform := Some platform;
     extraction_timestamp := Some 1%N;
     listing_id := Some "id";
     raw_fields := Some {[ "price" := value ]};
     metadata := Some ∅ |}.

Definition observed (platform : string) (v : pyval) : DataConsolidator.observation :=
  {| DataConsolidator.source := Some platform; DataConsolidator.value := v |}.

End Samples.
(** * Properties *)

(** ** The embedding on the examples of the repository *)

Example normalize_main_st :
  AddressNormalizer.normalize_address (VStr "123 Main St") = Ok "123 MAIN STREET".
Proof. vm_compute. reflexivity. Qed.

Example normalize_sw_blvd :
  AddressNormalizer.normalize_address (VStr "789 SW 1st Blvd, Apt 5")
  = Ok "789 SOUTHWEST 1ST BOULEVARD UNIT 5".
Proof. vm_compute. reflexivity. Qed.

Example normalize_park_pl :
  AddressNormalizer.normalize_address (VStr "0100 Park Pl") = Ok "100 PARK PLACE".
Proof. vm_compute. reflexivity. Qed.

Example normalize_seattle :
  AddressNormalizer.normalize_address (VStr "0123 N Main St., Seattle, Washington 98101")
  = Ok "123 NORTH MAIN STREET SEATTLE WASHINGTON 98101".
Proof. vm_compute. reflexivity. Qed.

Example extract_seattle :
  AddressNormalizer.extract_address_components (VStr "123 Main Street, Seattle, WA 98101")
  = Ok {| AddressNormalizer.full_address := "123 Main Street, Seattle, WA 98101";
          AddressNormalizer.street := "123 Main Street";
          AddressNormalizer.city := "Seattle";
          AddressNormalizer.state := "WA";
          AddressNormalizer.zip := "98101" |}.
Proof. vm_compute. reflexivity. Qed.

Example quotient_third : Num.float_of_quotient 1 3 = 0.3333333333333333%float.
Proof. vm_compute. reflexivity. Qed.

Example quotient_tenth : Num.float_of_quotient 1 10 = 0.1%float.
Proof. vm_compute. reflexivity. Qed.

Example quotient_neg : Num.float_of_quotient (-2) 3 = (-0.6666666666666666)%float.
Proof. vm_compute. reflexivity. Qed.

Example quotient_big : Num.float_of_quotient (10 ^ 400) (10 ^ 399) = 10%float.
Proof. vm_compute. reflexivity. Qed.

Example float_of_big : Num.float_of_int (2 ^ 53 + 1) = Ok 9007199254740992%float.
Proof. vm_compute. reflexivity. Qed.

Example float_of_huge : Num.float_of_int (10 ^ 400) = Raise OverflowError.
Proof. vm_compute. reflexivity. Qed.

Example float_of_str_plain : Conv.float_of_str " 12.5 " = Ok 12.5%float.
Proof. vm_compute. reflexivity. Qed.

Example float_of_str_exp : Conv.float_of_str "1_0e-2" = Ok 0.1%float.
Proof. vm_compute. reflexivity. Qed.

Example float_of_str_tiny : Conv.float_of_str "3e-324" = Ok 5e-324%float.
Proof. vm_compute. reflexivity. Qed.

Example float_of_str_under : Conv.float_of_str "2e-324" = Ok 0%float.
Proof. vm_compute. reflexivity. Qed.

Example float_of_str_over : Conv.float_of_str "-1e309" = Ok neg_infinity.
Proof. vm_compute. reflexivity. Qed.

Example float_of_str_bad : Conv.float_of_str "$1,250,000" = Raise ValueError.
Proof. vm_compute. reflexivity. Qed.

Example int_of_str_ok : Conv.int_of_str " -4_00 " = Ok (-400).
Proof. vm_compute. reflexivity. Qed.

Example int_of_str_bad : Conv.int_of_str "400.5" = Raise ValueError.
Proof. vm_compute. reflexivity. Qed.

Example int_of_float_trunc : Conv.int_of_float (-400.9)%float = Ok (-400).
Proof. vm_compute. reflexivity. Qed.

Example format_price : Conv.format_comma_0f 60000000.5%float = "60,000,000".
Proof. vm_compute. reflexivity. Qed.

Example format_small : Conv.format_comma_0f 1001.5%float = "1,002".
Proof. vm_compute. reflexivity. Qed.

Example test_property_matching :
  PropertyMatcher.is_match Samples.test_listing1 Samples.test_listing2
  = Ok (true, 0.8500000000000001%float).
Proof. vm_compute. reflexivity. Qed.

Example classify_sixty_million :
  PropertyClassifier.classify_property 7%N
    {[ "address" := VStr "1 Main St"; "price" := VInt 60000000 ]}
  = Ok ("discarded", Some "outside_investment_mandate",
        Some {| PropertyClassifier.reason_category := "price_out_of_range";
                PropertyClassifier.explanation :=
                  "Price $60,000,000 outside range ($100,000 - $50,000,000)";
                PropertyClassifier.discarded_date := 7%N |}).
Proof. vm_compute. reflexivity. Qed.


(** ** Classification *)

Section ClassifierFacts.
Import PropertyClassifier Notions.

(** The first rule: a falsy [address] entry, missing or not, ends the
    classification. *)
Lemma classify_falsy_address now d :
  truthy (get d "address") = false →
  classify_property now d = Ok (missing_address_verdict now).
Proof.
  intros H. unfold classify_property. cbn [List.filter].
  rewrite H. reflexivity.
Qed.

(** Past the first rule the verdict is that of the later rules. *)
Lemma classify_truthy_address now d :
  truthy (get d "address") = true →
  classify_property now d =
    (_ <- prop_type_of d;;
     let price := py_or (get d "unformattedPrice") (get d "price") in
     rejected <-
       (if truthy price then
          except_value_type None
            (price <- price_number price;;
             Ok (if outside_range price then Some price else None))
        else Ok None);;
     match rejected with
     | Some price =>
         Ok ("discarded", Some "outside_investment_mandate",
             Some {| reason_category := "price_out_of_range";
                     explanation :=
                       "Price $" +:+ Conv.format_comma_0f price
                       +:+ " outside range ($"
                       +:+ Conv.format_comma (Z.to_N MIN_PRICE) +:+ " - $"
                       +:+ Conv.format_comma (Z.to_N MAX_PRICE) +:+ ")";
                     discarded_date := now |})
     | None =>
         let days_on_market :=
           py_or (get d "daysOnZillow") (get d "days_on_market") in
         stale <-
           (if truthy days_on_market then
              except_value_type false
                (days <- Conv.py_int days_on_market;;
                 Ok (MAX_DAYS_ON_MARKET <? days))
            else Ok false);;
         if stale then Ok ("flagged", None, None)
         else Ok ("usable", None, None)
     end).
Proof.
  intros H. unfold classify_property. cbn [List.filter].
  rewrite H. reflexivity.
Qed.
End ClassifierFacts.

(** C4. A consolidated record without an [address] entry is classified
    [discarded] with reason [missing_critical_fields], whatever its other
    entries; the details name the missing field. *)
Theorem C4_missing_address_discarded :
  ∀ (now : datetime) (d : gmap string pyval),
    d !! "address" = None →
    PropertyClassifier.classify_property now d
    = Ok ("discarded", Some "missing_critical_fields",
          Some {| PropertyClassifier.reason_category := "incomplete_data";
                  PropertyClassifier.explanation := "Missing required fields: address";
                  PropertyClassifier.discarded_date := now |}).
Proof.
  intros now d H. apply classify_falsy_address.
  unfold get. rewrite H. reflexivity.
Qed.

Lemma C4_missing_address_discarded_witness :
  PropertyClassifier.classify_property 5%N
    {[ "price" := VInt 60000000; "daysOnZillow" := VInt 400; "homeType" := VInt 7 ]}
  = Ok ("discarded", Some "missing_critical_fields",
        Some {| PropertyClassifier.reason_category := "incomplete_data";
                PropertyClassifier.explanation := "Missing required fields: address";
                PropertyClassifier.discarded_date := 5%N |}).
Proof.
  apply (C4_missing_address_discarded 5%N). vm_compute. reflexivity.
Defined.

(** C10. An [address] entry that is present but empty (or falsy in any other
    way) is classified as a missing one: [discarded] with reason
    [missing_critical_fields], and the verdict is that of the record with
    the entry removed. *)
Theorem C10_empty_address_as_absent :
  ∀ (now : datetime) (d : gmap string pyval) (v : pyval),
    d !! "address" = Some v →
    truthy v = false →
    PropertyClassifier.classify_property now d
    = Ok ("discarded", Some "missing_critical_fields",
          Some {| PropertyClassifier.reason_category := "incomplete_data";
                  PropertyClassifier.explanation := "Missing required fields: address";
                  PropertyClassifier.discarded_date := now |})
    ∧ PropertyClassifier.classify_property now d
      = PropertyClassifier.classify_property now (delete "address" d).
Proof.
  intros now d v Hv Hf.
  assert (H1 : truthy (get d "address") = false).
  { unfold get. rewrite Hv. exact Hf. }
  assert (H2 : truthy (get (delete "address" d) "address") = false).
  { unfold get. rewrite lookup_delete_eq. reflexivity. }
  rewrite (classify_falsy_address now d H1).
  rewrite (classify_falsy_address now _ H2).
  split; reflexivity.
Qed.

Lemma C10_empty_address_as_absent_witness :
  PropertyClassifier.classify_property 5%N
    {[ "address" := VStr ""; "price" := VInt 250000 ]}
  = Ok ("discarded", Some "missing_critical_fields",
        Some {| PropertyClassifier.reason_category := "incomplete_data";
                PropertyClassifier.explanation := "Missing required fields: address";
                PropertyClassifier.discarded_date := 5%N |})
  ∧ PropertyClassifier.classify_property 5%N
      {[ "address" := VStr ""; "price" := VInt 250000 ]}
    = PropertyClassifier.classify_property 5%N
        (delete "address" {[ "address" := VStr ""; "price" := VInt 250000 ]}).
Proof.
  apply (C10_empty_address_as_absent 5%N _ (VStr "")).
  - vm_compute. reflexivity.
  - reflexivity.
Defined.

Section ClassifierRules.
Import PropertyClassifier Notions.

Lemma prop_type_of_text d : type_is_text d = true → ∃ t, prop_type_of d = Ok t.
Proof.
  unfold type_is_text, prop_type_of.
  set (v := py_or _ _). intros H.
  assert (Hu : ∃ t, (if truthy v then PropertyMatcher.py_upper v else Ok "") = Ok t).
  { destruct v; cbn [PropertyMatcher.py_upper];
      try (apply negb_true_iff in H; rewrite H);
      try destruct (truthy _); eexists; reflexivity. }
  destruct Hu as [t ->]. unfold Py.bind. eauto.
Qed.




End ClassifierRules.




Section StalenessRule.
Import PropertyClassifier Notions.

Lemma eqb_zero_spec f :
  PrimFloat.eqb f 0%float = true → ∃ s, Prim2SF f = S754_zero s.
Proof.
  rewrite FloatAxioms.eqb_spec. change (Prim2SF 0%float) with (S754_zero false).
  destruct (Prim2SF f) as [s | s | | s m e]; cbn; try discriminate; eauto.
  all: destruct s; discriminate.
Qed.

(** A value that converts to a non-zero integer is truthy. *)
Lemma py_int_nonzero_truthy v n :
  Conv.py_int v = Ok n → n ≠ 0 → truthy v = true.
Proof.
  destruct v as [| b | z | f | s | l]; cbn [Conv.py_int truthy]; try discriminate.
  - destruct b; intros [= <-]; congruence.
  - intros [= <-] H. apply negb_true_iff, Z.eqb_neq, H.
  - intros Hf Hn. apply negb_true_iff.
    destruct (PrimFloat.eqb f 0%float) eqn:E; [|reflexivity].
    destruct (eqb_zero_spec f E) as [s Hs].
    unfold Conv.int_of_float in Hf. rewrite Hs in Hf. congruence.
  - destruct s; [discriminate|reflexivity].
Qed.

Lemma price_rule_passes d :
  (truthy (record_price d) = false
   ∨ ∃ p, price_number (record_price d) = Ok p ∧ outside_range p = false) →
  (if truthy (record_price d)
   then except_value_type None
          (price <- price_number (record_price d);;
           Ok (if outside_range price then Some price else None))
   else Ok None) = Ok None.
Proof.
  intros [-> | (p & -> & Ho)]; [reflexivity|].
  cbn [Py.bind]. rewrite Ho. destruct (truthy (record_price d)); reflexivity.
Qed.

(** The staleness rule on a record that passes the rules before it. *)
Lemma days_rule_flags now d n :
  truthy (get d "address") = true →
  type_is_text d = true →
  (truthy (record_price d) = false
   ∨ ∃ p, price_number (record_price d) = Ok p ∧ outside_range p = false) →
  Conv.py_int (record_days d) = Ok n →
  MAX_DAYS_ON_MARKET < n →
  classify_property now d = Ok ("flagged", None, None).
Proof.
  intros Ha Ht Hp Hn Hgt.
  rewrite (classify_truthy_address now d Ha).
  destruct (prop_type_of_text d Ht) as [t ->]. unfold Py.bind at 1.
  fold (record_price d). fold (record_days d). cbv zeta.
  rewrite (price_rule_passes d Hp). cbn [Py.bind].
  rewrite (py_int_nonzero_truthy _ n Hn)
    by (unfold MAX_DAYS_ON_MARKET in Hgt; lia).
  rewrite Hn. cbn [Py.bind except_value_type].
  apply Z.ltb_lt in Hgt. rewrite Hgt. reflexivity.
Qed.

(** A days-on-market value that is no number converts or raises one of
    the two exceptions the rule handles. *)
Lemma py_int_non_numeric v :
  Num.as_num v = None →
  (∃ n, Conv.py_int v = Ok n)
  ∨ Conv.py_int v = Raise ValueError ∨ Conv.py_int v = Raise TypeError.
Proof.
  destruct v as [| b | z | f | s | l]; cbn; try discriminate; intros _; eauto.
  unfold Conv.int_of_str.
  destruct (Conv.split_sign _) as [neg body].
  destruct (Conv.remove_underscores None body); [|eauto].
  destruct (_ && _); eauto.
Qed.
End StalenessRule.

(** C6, as the code has it. For a record with a non-empty address, a
    property type that is text (or none) and a price that is absent (falsy)
    or parses to a value inside the band: a days-on-market value that
    converts to an integer above 365 is [flagged], without reason and
    without details; a days-on-market value that is no number never makes
    the classification raise, and when it does not convert the rule is
    skipped and the record is [usable]. *)
Theorem C6_staleness_rule_for_text_type :
  ∀ (now : datetime) (d : gmap string pyval),
    truthy (get d "address") = true →
    Notions.type_is_text d = true →
    (truthy (Notions.record_price d) = false
     ∨ ∃ p, PropertyClassifier.price_number (Notions.record_price d) = Ok p
            ∧ PropertyClassifier.outside_range p = false) →
    (∀ n, Conv.py_int (Notions.record_days d) = Ok n →
          PropertyClassifier.MAX_DAYS_ON_MARKET < n →
          PropertyClassifier.classify_property now d = Ok ("flagged", None, None))
    ∧ (Num.as_num (Notions.record_days d) = None →
       (∃ v, PropertyClassifier.classify_property now d = Ok v)
       ∧ ((∀ n, Conv.py_int (Notions.record_days d) ≠ Ok n) →
          PropertyClassifier.classify_property now d = Ok ("usable", None, None))).
Proof.
  intros now d Ha Ht Hp. split.
  - intros n Hn Hgt. by apply (days_rule_flags now d n).
  - intros Hnum.
    rewrite (classify_truthy_address now d Ha).
    destruct (prop_type_of_text d Ht) as [t ->]. unfold Py.bind at 1.
    fold (Notions.record_price d). fold (Notions.record_days d). cbv zeta.
    rewrite (price_rule_passes d Hp). cbn [Py.bind].
    destruct (py_int_non_numeric _ Hnum) as [[n Hn] | [Hn | Hn]]; rewrite Hn.
    + split; [|intros H; by destruct (H n)].
      destruct (truthy (Notions.record_days d));
        cbn [Py.bind PropertyClassifier.except_value_type];
        [destruct (_ <? _)|]; eauto.
    + split; [|intros _]; destruct (truthy (Notions.record_days d)); cbn; eauto.
    + split; [|intros _]; destruct (truthy (Notions.record_days d)); cbn; eauto.
Qed.

Lemma C6_staleness_rule_for_text_type_witness :
  PropertyClassifier.classify_property 5%N
    {[ "address" := VStr "12 Oak St"; "homeType" := VStr "Condo";
       "price" := VStr "$1,250,000"; "days_on_market" := VStr "400" ]}
  = Ok ("flagged", None, None).
Proof.
  refine (proj1 (C6_staleness_rule_for_text_type 5%N
            {[ "address" := VStr "12 Oak St"; "homeType" := VStr "Condo";
               "price" := VStr "$1,250,000"; "days_on_market" := VStr "400" ]}
            _ _ _) 400 _ _).
  - vm_compute. reflexivity.
  - vm_compute. reflexivity.
  - right. exists 1250000%float. vm_compute. split; reflexivity.
  - vm_compute. reflexivity.
  - reflexivity.
Defined.

(** C6 as stated fails: a record with an address, no price and 400 days on
    the market whose property type is the number 7 is not classified at
    all, [.upper()] raises before the price and staleness rules are
    reached; and with an address entry that is present but empty the same
    400 days give [discarded]. *)
Lemma C6_type_not_text_raises :
  truthy (get {[ "address" := VStr "12 Oak St"; "homeType" := VInt 7;
                 "days_on_market" := VInt 400 ]} "address") = true
  ∧ Notions.record_price {[ "address" := VStr "12 Oak St"; "homeType" := VInt 7;
                            "days_on_market" := VInt 400 ]} = VNone
  ∧ Conv.py_int (Notions.record_days
                   {[ "address" := VStr "12 Oak St"; "homeType" := VInt 7;
                      "days_on_market" := VInt 400 ]}) = Ok 400
  ∧ PropertyClassifier.classify_property 5%N
      {[ "address" := VStr "12 Oak St"; "homeType" := VInt 7;
         "days_on_market" := VInt 400 ]}
    = Raise AttributeError
  ∧ PropertyClassifier.classify_property 5%N
      {[ "address" := VStr ""; "days_on_market" := VInt 400 ]}
    = Ok (Notions.missing_address_verdict 5%N).
Proof. vm_compute. repeat split; reflexivity. Qed.

(** ** The invariant of consolidated properties *)

Section Invariant.
Import PropertyClassifier Notions.

(** Every verdict of [classify_property] has one of three shapes. *)
Lemma classify_property_shape now d v :
  classify_property now d = Ok v →
  (∃ reason det, v = ("discarded", Some reason, Some det))
  ∨ v = ("flagged", None, None) ∨ v = ("usable", None, None).
Proof.
  unfold classify_property.
  destruct (List.filter _ _) as [|f fs].
  - destruct (prop_type_of d) as [t|e]; [|discriminate]. unfold Py.bind at 1.
    match goal with
    | |- Py.bind ?r _ = _ → _ => destruct r as [[p|]|e]; [| |discriminate]
    end; cbn [Py.bind].
    + intros [= <-]. left. eauto.
    + match goal with
      | |- Py.bind ?r _ = _ → _ => destruct r as [[|]|e]; [| |discriminate]
      end; cbn [Py.bind]; intros [= <-]; auto.
  - intros [= <-]. left. eauto.
Qed.

Lemma verdict_shape_invariant (v : verdict) :
  (∃ reason det, v = ("discarded", Some reason, Some det))
  ∨ v = ("flagged", None, None) ∨ v = ("usable", None, None) →
  (snd (fst v) ≠ None ↔ fst (fst v) = "discarded")
  ∧ (snd v ≠ None ↔ fst (fst v) = "discarded").
Proof.
  intros [(reason & det & ->) | [-> | ->]]; cbn; split; split;
    first [ reflexivity | discriminate | congruence ].
Qed.

Lemma mapM_result_Forall {A B : Type} (f : A → result B) (P : B → Prop) l ys :
  (∀ x y, f x = Ok y → P y) →
  mapM_result f l = Ok ys → Forall P ys.
Proof.
  intros Hf. revert ys. induction l as [|x l IH]; cbn; intros ys.
  - intros [= <-]. constructor.
  - destruct (f x) as [y|e] eqn:E; [|discriminate].
    destruct (mapM_result f l) as [ys'|e]; [|discriminate].
    intros [= <-]. constructor; eauto.
Qed.

Lemma consolidate_group_invariant py_str now group_id group p :
  CentralProcessingNode._consolidate_group py_str now group_id group = Ok p →
  discard_fields_iff_discarded p.
Proof.
  unfold CentralProcessingNode._consolidate_group.
  destruct (CentralProcessingNode.consolidate_fields _ _) as [st|e]; [|discriminate].
  cbn [Py.bind].
  destruct (classify_property _ _) as [v|e] eqn:Ev; [|discriminate].
  cbn [Py.bind].
  destruct (mapM_result _ _) as [sl|e]; [|discriminate].
  cbn [Py.bind]. intros [= <-].
  unfold discard_fields_iff_discarded. cbn.
  apply verdict_shape_invariant, (classify_property_shape _ _ _ Ev).
Qed.
End Invariant.

(** C9. In every [ConsolidatedProperty] that [process_listings] produces,
    [discard_reason] is set exactly when the classification is [discarded],
    and so is [discard_details]: [usable] and [flagged] records carry
    neither. *)
Theorem C9_discard_fields_iff_discarded :
  ∀ (py_str : pyval → string) (now : datetime)
    (raw_listings : list Models.RawListingRecord)
    (properties : list Models.ConsolidatedProperty),
    CentralProcessingNode.process_listings py_str now raw_listings = Ok properties →
    Forall (λ p, (Models.discard_reason p ≠ None
                  ↔ Models.classification p = "discarded")
                 ∧ (Models.discard_details p ≠ None
                    ↔ Models.classification p = "discarded"))
           properties.
Proof.
  intros py_str now raws props.
  unfold CentralProcessingNode.process_listings.
  destruct (CentralProcessingNode._group_listings _) as [groups|e]; [|discriminate].
  cbn [Py.bind]. apply mapM_result_Forall.
  intros [group_id group] p. apply consolidate_group_invariant.
Qed.

Example sample_scores :
  PropertyMatcher.is_match Samples.fields_a Samples.fields_b
  = Ok (true, 0.7400000000000001%float)
  ∧ PropertyMatcher.is_match Samples.fields_a Samples.fields_c
    = Ok (false, 0.6900000000000001%float)
  ∧ PropertyMatcher.is_match Samples.fields_b Samples.fields_c
    = Ok (true, 0.7400000000000001%float).
Proof. vm_compute. repeat split; reflexivity. Qed.

Lemma C9_discard_fields_iff_discarded_witness :
  ∃ properties,
    CentralProcessingNode.process_listings Samples.str_plain 9%N
      [Samples.record_a; Samples.record_b; Samples.record_c; Samples.record_d]
    = Ok properties
    ∧ map Models.classification properties = ["usable"; "usable"; "discarded"]
    ∧ Forall (λ p, (Models.discard_reason p ≠ None
                    ↔ Models.classification p = "discarded")
                   ∧ (Models.discard_details p ≠ None
                      ↔ Models.classification p = "discarded"))
             properties.
Proof.
  eexists. split; [vm_compute; reflexivity|]. split; [reflexivity|].
  apply (C9_discard_fields_iff_discarded Samples.str_plain 9%N
           [Samples.record_a; Samples.record_b; Samples.record_c; Samples.record_d]).
  vm_compute. reflexivity.
Defined.

(** ** Grouping *)

Section Grouping.
Import CentralProcessingNode Notions.

Lemma unassigned_ext j l (P P' : gset nat) :
  (∀ k, (j ≤ k)%nat → k ∈ P ↔ k ∈ P') →
  unassigned j l P = unassigned j l P'.
Proof.
  revert j. induction l as [|x l IH]; intros j H; cbn; [reflexivity|].
  rewrite (IH (S j)) by (intros k Hk; apply H; lia).
  rewrite (bool_decide_ext (j ∈ P) (j ∈ P')) by (apply H; lia).
  reflexivity.
Qed.

Lemma unassigned_all l : unassigned 0 l ∅ = l.
Proof.
  generalize 0%nat. induction l as [|x l IH]; intros i; cbn; [reflexivity|].
  rewrite bool_decide_eq_false_2 by set_solver. by rewrite IH.
Qed.

Lemma split_by_leader_length leader l ms us :
  split_by_leader leader l = Ok (ms, us) →
  (length ms + length us = length l)%nat.
Proof.
  revert ms us. induction l as [|x l IH]; cbn; intros ms us.
  - intros [= <- <-]. reflexivity.
  - destruct (matches leader x) as [m|e]; [|discriminate]. cbn [Py.bind].
    destruct (split_by_leader leader l) as [[ms' us']|e]; [|discriminate].
    cbn [Py.bind fst snd]. specialize (IH _ _ eq_refl).
    destruct m; intros [= <- <-]; cbn; lia.
Qed.

(** The inner loop splits the unassigned listings after the leader into
    those that match it and those that do not, and marks the former. *)
Lemma find_matches_splits leader rest :
  ∀ j group (P : gset nat),
    match split_by_leader leader (unassigned j rest P) with
    | Raise e => find_matches leader j rest group P = Raise e
    | Ok (ms, us) =>
        ∃ P' : gset nat,
          find_matches leader j rest group P = Ok (group ++ ms, P')
          ∧ unassigned j rest P' = us
          ∧ P ⊆ P'
          ∧ (∀ k, (k < j)%nat → k ∈ P' → k ∈ P)
    end.
Proof.
  induction rest as [|x rest IH]; intros j group P.
  - cbn. exists P. rewrite app_nil_r. split; [reflexivity|].
    split; [reflexivity|]. split; [set_solver | auto].
  - cbn [unassigned find_matches]. case_bool_decide as Hj.
    + specialize (IH (S j) group P).
      destruct (split_by_leader leader (unassigned (S j) rest P))
        as [[ms us]|e]; [|exact IH].
      destruct IH as (P' & Hf & Hu & Hsub & Hlow).
      exists P'. split; [exact Hf|]. split; [|split; [exact Hsub|]].
      * cbn [unassigned]. rewrite bool_decide_eq_true_2 by set_solver. exact Hu.
      * intros k Hk. apply Hlow. lia.
    + cbn [split_by_leader].
      destruct (matches leader x) as [[|]|e]; cbn [Py.bind]; [| |reflexivity].
      * specialize (IH (S j) (group ++ [x]) ({[j]} ∪ P)).
        rewrite (unassigned_ext (S j) rest ({[j]} ∪ P) P) in IH
          by (intros k Hk; set_unfold; split; [intros [->|]; [lia|auto] | auto]).
        destruct (split_by_leader leader (unassigned (S j) rest P))
          as [[ms us]|e]; [|exact IH]. cbn [Py.bind fst snd].
        destruct IH as (P' & Hf & Hu & Hsub & Hlow).
        exists P'. split; [|split; [|split]].
        -- rewrite Hf. by rewrite <- app_assoc.
        -- cbn [unassigned]. rewrite bool_decide_eq_true_2 by set_solver. exact Hu.
        -- set_solver.
        -- intros k Hk Hin. specialize (Hlow k ltac:(lia) Hin).
           set_unfold. destruct Hlow as [->|]; [lia|auto].
      * specialize (IH (S j) group P).
        destruct (split_by_leader leader (unassigned (S j) rest P))
          as [[ms us]|e]; [|exact IH]. cbn [Py.bind fst snd].
        destruct IH as (P' & Hf & Hu & Hsub & Hlow).
        exists P'. split; [exact Hf|]. split; [|split; [exact Hsub|]].
        -- cbn [unassigned]. rewrite bool_decide_eq_false_2; [by rewrite Hu|].
           intros Hin. apply Hj, (Hlow j); [lia|exact Hin].
        -- intros k Hk. apply Hlow. lia.
Qed.

(** The outer loop runs the leader-based grouping on the listings that
    are still unassigned. *)
Lemma group_from_refines suffix :
  ∀ i groups (P : gset nat) fuel,
    (length (unassigned i suffix P) ≤ fuel)%nat →
    group_from i suffix groups P
    = (gs <- spec_leader_grouping_fuel fuel (unassigned i suffix P);;
       Ok (groups ++ gs)).
Proof.
  induction suffix as [|x rest IH]; intros i groups P fuel Hfuel.
  - cbn [unassigned group_from]. destruct fuel; cbn [spec_leader_grouping_fuel Py.bind];
      by rewrite app_nil_r.
  - cbn [unassigned group_from] in *. case_bool_decide as Hi.
    + by apply IH.
    + cbn [length] in Hfuel. destruct fuel as [|fuel]; [lia|].
      cbn [spec_leader_grouping_fuel].
      pose proof (find_matches_splits x rest (S i) [x] ({[i]} ∪ P)) as Hs.
      rewrite (unassigned_ext (S i) rest ({[i]} ∪ P) P) in Hs
        by (intros k Hk; set_unfold; split; [intros [->|]; [lia|auto] | auto]).
      destruct (split_by_leader x (unassigned (S i) rest P))
        as [[ms us]|e] eqn:Es; cbn [Py.bind fst snd].
      * destruct Hs as (P' & -> & Hu & _ & _). cbn [Py.bind fst snd].
        apply split_by_leader_length in Es.
        rewrite (IH (S i) _ P' fuel) by (rewrite Hu; lia).
        rewrite Hu.
        destruct (spec_leader_grouping_fuel fuel us) as [gs|e]; cbn [Py.bind];
          [|reflexivity].
        by rewrite <- app_assoc.
      * by rewrite Hs.
Qed.

Lemma group_listings_refines listings :
  _group_listings listings = spec_leader_grouping listings.
Proof.
  unfold _group_listings, spec_leader_grouping.
  rewrite (group_from_refines listings 0 [] ∅ (length listings))
    by (by rewrite unassigned_all).
  rewrite unassigned_all.
  by destruct (spec_leader_grouping_fuel _ _).
Qed.
End Grouping.

(** C1. [_group_listings] is the single-pass, leader-based grouping: on every
    input it computes what the specification's procedure computes, in which
    a listing is compared with the current leader and with nothing else; so
    for [A], [B], [C] in this order with [A] matching [B], [A] not matching
    [C] and [B] matching [C], the groups are exactly [[A; B]] and [[C]]. *)
Theorem C1_leader_based_grouping :
  (∀ listings,
     CentralProcessingNode._group_listings listings
     = Notions.spec_leader_grouping listings)
  ∧ (∀ (A B C : listing) (a b c : gmap string pyval) (sab sac sbc : float),
       raw_fields A = Some a → raw_fields B = Some b → raw_fields C = Some c →
       PropertyMatcher.is_match a b = Ok (true, sab) →
       PropertyMatcher.is_match a c = Ok (false, sac) →
       PropertyMatcher.is_match b c = Ok (true, sbc) →
       CentralProcessingNode._group_listings [A; B; C] = Ok [[A; B]; [C]]).
Proof.
  split; [apply group_listings_refines|].
  intros A B C a b c sab sac sbc Ha Hb Hc Hab Hac Hbc.
  rewrite group_listings_refines.
  unfold Notions.spec_leader_grouping. cbn [length Notions.spec_leader_grouping_fuel
    Notions.split_by_leader].
  unfold CentralProcessingNode.matches.
  rewrite Ha, Hb, Hc. cbn [CentralProcessingNode.item Py.bind].
  rewrite Hab, Hac. reflexivity.
Qed.

Lemma C1_leader_based_grouping_witness :
  CentralProcessingNode._group_listings
    [CentralProcessingNode.to_listing Samples.record_a;
     CentralProcessingNode.to_listing Samples.record_b;
     CentralProcessingNode.to_listing Samples.record_c]
  = Ok [[CentralProcessingNode.to_listing Samples.record_a;
         CentralProcessingNode.to_listing Samples.record_b];
        [CentralProcessingNode.to_listing Samples.record_c]].
Proof.
  eapply (proj2 C1_leader_based_grouping); try reflexivity;
    vm_compute; reflexivity.
Defined.

(** ** Value selection *)

Section Precedence.
Import DataConsolidator.
Context {A : Type} (key : A → datetime).

(** The head of the descending stable sort is the first element with the
    greatest key. *)
Lemma sorted_desc_head (l : list A) :
  l ≠ [] →
  ∃ before winner after,
    l = before ++ winner :: after
    ∧ (∀ c, c ∈ before → (key c < key winner)%N)
    ∧ (∀ c, c ∈ after → (key c ≤ key winner)%N)
    ∧ head (sorted_desc key l) = Some winner.
Proof.
  induction l as [|x r IH]; [congruence|]. intros _.
  destruct r as [|y r'].
  - exists [], x, []. cbn. repeat split; intros c Hc; inversion Hc.
  - destruct IH as (b & w & a & Hr & Hb & Ha & Hh); [congruence|].
    change (sorted_desc key (x :: y :: r'))
      with (insert_desc key x (sorted_desc key (y :: r'))).
    destruct (sorted_desc key (y :: r')) as [|w' s']; [discriminate|].
    injection Hh as ->. cbn [insert_desc].
    destruct (key x <? key w)%N eqn:E.
    + apply N.ltb_lt in E.
      exists (x :: b), w, a. rewrite Hr. split; [reflexivity|].
      split; [|split; [exact Ha|reflexivity]].
      intros c [->|Hc]%elem_of_cons; auto.
    + apply N.ltb_ge in E.
      exists [], x, (y :: r'). split; [reflexivity|].
      split; [intros c Hc; inversion Hc|]. split; [|reflexivity].
      intros c Hc. rewrite Hr in Hc.
      apply elem_of_app in Hc as [Hc|[->|Hc]%elem_of_cons].
      * specialize (Hb c Hc). lia.
      * exact E.
      * specialize (Ha c Hc). lia.
Qed.
End Precedence.



(** ** Conflict detection *)

Section Conflicts.
Import DataConsolidator Notions.

Lemma numbers_of_cons o obs n ns :
  numbers_of (o :: obs) = Some (n :: ns) →
  Num.as_num (value o) = Some n ∧ numbers_of obs = Some ns.
Proof.
  unfold numbers_of. cbn.
  destruct (Num.as_num (value o)); cbn; [|discriminate].
  destruct (mapM _ obs); cbn; [|discriminate].
  intros [= -> ->]. auto.
Qed.

(** On numbers the extremum loops cannot raise. *)
Lemma py_max_numbers obs ns :
  numbers_of obs = Some ns →
  ∀ first, py_max first (map value obs) = Ok (max_of first ns).
Proof.
  unfold py_max, max_of. revert ns.
  induction obs as [|o obs IH]; intros ns H first.
  - injection H as <-. reflexivity.
  - destruct ns as [|n ns]; [unfold numbers_of in H; cbn in H;
      destruct (Num.as_num (value o)); cbn in H; [|discriminate];
      destruct (mapM _ obs); discriminate|].
    apply numbers_of_cons in H as [Hn Hns].
    cbn [map foldl Py.bind]. unfold num_of at 2. rewrite Hn. cbn [Py.bind].
    apply IH, Hns.
Qed.

Lemma py_min_numbers obs ns :
  numbers_of obs = Some ns →
  ∀ first, py_min first (map value obs) = Ok (min_of first ns).
Proof.
  unfold py_min, min_of. revert ns.
  induction obs as [|o obs IH]; intros ns H first.
  - injection H as <-. reflexivity.
  - destruct ns as [|n ns]; [unfold numbers_of in H; cbn in H;
      destruct (Num.as_num (value o)); cbn in H; [|discriminate];
      destruct (mapM _ obs); discriminate|].
    apply numbers_of_cons in H as [Hn Hns].
    cbn [map foldl Py.bind]. unfold num_of at 2. rewrite Hn. cbn [Py.bind].
    apply IH, Hns.
Qed.

(** [detect_conflicts] on two or more observations that are all numbers. *)
Lemma detect_conflicts_numbers py_str field_name listings threshold o1 o2 obs n ns :
  observations field_name listings = o1 :: o2 :: obs →
  numbers_of (o1 :: o2 :: obs) = Some (n :: ns) →
  detect_conflicts py_str field_name listings threshold
  = (if Num.num_gt (max_of n ns) (Num.NInt 0) then
       variance <- relative_variance (max_of n ns) (min_of n ns);;
       Ok (if PrimFloat.ltb threshold variance
           then Some {| field := field_name; values := o1 :: o2 :: obs;
                        variance_percent := Some (variance * 100)%float |}
           else None)
     else Ok None).
Proof.
  intros Ho Hn. unfold detect_conflicts. rewrite Ho.
  apply numbers_of_cons in Hn as [Hn1 Hns]. rewrite Hn1.
  rewrite (py_max_numbers _ _ Hns), (py_min_numbers _ _ Hns).
  cbn [Py.bind]. destruct (Num.num_gt _ _); [|reflexivity].
  unfold relative_variance.
  destruct (Num.num_sub _ _) as [d|e]; cbn [Py.bind]; [|reflexivity].
  destruct (Num.num_truediv _ _) as [v|e]; cbn [Py.bind]; [|reflexivity].
  destruct (PrimFloat.ltb _ _); reflexivity.
Qed.
End Conflicts.

(** C3. With at most one observation of the field [detect_conflicts] returns
    [None]. When the observations, two or more, are all numbers, it returns
    a conflict exactly when [max > 0] and [(max - min) / max] exceeds the
    threshold, and the conflict reports [variance * 100]; so, at the default
    threshold 0.05, the values 100, 101, 200 give a conflict with
    [variance_percent] 50.0 and the values 100, 101, 104 give [None]. *)
Theorem C3_detect_conflicts_numeric :
  ∀ (py_str : pyval → string) (field_name : string) (listings : list listing)
    (threshold : float),
    ((length (DataConsolidator.observations field_name listings) ≤ 1)%nat →
     DataConsolidator.detect_conflicts py_str field_name listings threshold = Ok None)
    ∧ (∀ n ns,
         (1 < length (DataConsolidator.observations field_name listings))%nat →
         Notions.numbers_of (DataConsolidator.observations field_name listings)
         = Some (n :: ns) →
         ∀ c,
           DataConsolidator.detect_conflicts py_str field_name listings threshold
           = Ok (Some c)
           ↔ Num.num_gt (Notions.max_of n ns) (Num.NInt 0) = true
             ∧ ∃ variance,
                 Notions.relative_variance (Notions.max_of n ns) (Notions.min_of n ns)
                 = Ok variance
                 ∧ PrimFloat.ltb threshold variance = true
                 ∧ c = {| DataConsolidator.field := field_name;
                          DataConsolidator.values :=
                            DataConsolidator.observations field_name listings;
                          DataConsolidator.variance_percent :=
                            Some (variance * 100)%float |})
    ∧ DataConsolidator.detect_conflicts py_str "price"
        [Samples.priced "zillow" (VInt 100); Samples.priced "loopnet" (VInt 101);
         Samples.priced "crexi" (VInt 200)] 0.05%float
      = Ok (Some {| DataConsolidator.field := "price";
                    DataConsolidator.values :=
                      [Samples.observed "zillow" (VInt 100);
                       Samples.observed "loopnet" (VInt 101);
                       Samples.observed "crexi" (VInt 200)];
                    DataConsolidator.variance_percent := Some 50%float |})
    ∧ DataConsolidator.detect_conflicts py_str "price"
        [Samples.priced "zillow" (VInt 100); Samples.priced "loopnet" (VInt 101);
         Samples.priced "crexi" (VInt 104)] 0.05%float
      = Ok None.
Proof.
  intros py_str field_name listings threshold.
  split; [|split; [|split; vm_compute; reflexivity]].
  - unfold DataConsolidator.detect_conflicts.
    destruct (DataConsolidator.observations field_name listings) as [|o1 [|o2 obs]];
      cbn [length]; intros H; [reflexivity | reflexivity | lia].
  - intros n ns Hlen Hn c.
    destruct (DataConsolidator.observations field_name listings)
      as [|o1 [|o2 obs]] eqn:Ho; cbn [length] in Hlen; [lia | lia |].
    rewrite (detect_conflicts_numbers py_str _ _ threshold _ _ _ _ _ Ho Hn).
    destruct (Num.num_gt _ _).
    + destruct (Notions.relative_variance _ _) as [v|e]; cbn [Py.bind].
      * destruct (PrimFloat.ltb threshold v) eqn:E; split.
        -- intros [= <-]. split; [reflexivity|]. exists v. auto.
        -- intros (_ & v' & [= <-] & _ & ->). reflexivity.
        -- discriminate.
        -- intros (_ & v' & [= <-] & Hlt & _). congruence.
      * split; [discriminate|]. intros (_ & v' & Hv & _). discriminate.
    + split; [discriminate|]. intros [H _]. discriminate.
Qed.

Lemma C3_detect_conflicts_numeric_witness :
  DataConsolidator.detect_conflicts Samples.str_plain "price"
    [Samples.priced "zillow" (VInt 100)] 0.05%float = Ok None
  ∧ DataConsolidator.detect_conflicts Samples.str_plain "price"
      [Samples.priced "zillow" (VFloat 1.5); Samples.priced "crexi" VNone;
       Samples.priced "loopnet" (VBool true)] 0.25%float
    = Ok (Some {| DataConsolidator.field := "price";
                  DataConsolidator.values :=
                    [Samples.observed "zillow" (VFloat 1.5);
                     Samples.observed "loopnet" (VBool true)];
                  DataConsolidator.variance_percent :=
                    Some 33.33333333333333%float |}).
Proof.
  split.
  - apply (proj1 (C3_detect_conflicts_numeric Samples.str_plain "price"
                    [Samples.priced "zillow" (VInt 100)] 0.05%float)).
    vm_compute. lia.
  - apply (proj1 (proj2 (C3_detect_conflicts_numeric Samples.str_plain "price"
                    [Samples.priced "zillow" (VFloat 1.5); Samples.priced "crexi" VNone;
                     Samples.priced "loopnet" (VBool true)] 0.25%float))
             (Num.NFloat 1.5) [Num.NInt 1]).
    + vm_compute. lia.
    + vm_compute. reflexivity.
    + split; [vm_compute; reflexivity|].
      exists 0.3333333333333333%float. vm_compute. repeat split; reflexivity.
Defined.

(** ** Symmetry of the score *)

(** *** Facts on binary64 the symmetry of the score rests on *)

Section FloatFacts.

Lemma SFabs_binary_round_aux s s' m e l :
  SFabs (binary_round_aux prec emax s m e l)
  = SFabs (binary_round_aux prec emax s' m e l).
Proof.
  unfold binary_round_aux.
  destruct (shr_fexp prec emax m e l) as [mrs e1].
  destruct (shr_fexp prec emax _ e1 loc_Exact) as [mrs' e2].
  destruct (shr_m mrs'); [reflexivity| |reflexivity].
  destruct (e2 <=? emax - prec); reflexivity.
Qed.

Lemma SFabs_binary_normalize_opp m e :
  SFabs (binary_normalize prec emax (- m) e false)
  = SFabs (binary_normalize prec emax m e false).
Proof.
  destruct m as [|p|p]; [reflexivity| |];
    change (- Z.pos p) with (Z.neg p); change (- Z.neg p) with (Z.pos p);
    unfold binary_normalize, binary_round;
    destruct (shl_align p e _) as [mz ez]; apply SFabs_binary_round_aux.
Qed.

Lemma SFabs_sub_comm x y : SFabs (SF64sub x y) = SFabs (SF64sub y x).
Proof.
  destruct x as [sx|sx| |sx mx ex], y as [sy|sy| |sy my ey];
    try (destruct sx, sy; reflexivity); try (destruct sx; reflexivity);
    try (destruct sy; reflexivity); try reflexivity.
  unfold SF64sub, SFsub. rewrite (Z.min_comm ey ex).
  rewrite <- SFabs_binary_normalize_opp. f_equal. f_equal. lia.
Qed.

Lemma abs_sub_comm (a b : float) :
  PrimFloat.abs (a - b) = PrimFloat.abs (b - a).
Proof.
  apply Prim2SF_inj. rewrite !abs_spec, !sub_spec. apply SFabs_sub_comm.
Qed.

Lemma SFcompare_antisym x y :
  SFcompare y x = CompOpp <$> SFcompare x y.
Proof.
  destruct x as [sx|sx| |sx mx ex], y as [sy|sy| |sy my ey]; cbn;
    try (destruct sx, sy; reflexivity); try (destruct sx; reflexivity);
    try (destruct sy; reflexivity); try reflexivity.
  pose proof (Z.compare_antisym ex ey) as Hz.
  pose proof (Pos.compare_cont_antisym mx my Eq) as Hp. cbn [CompOpp] in Hp.
  change (PosDef.Pos.compare_cont Eq my mx) with (Pos.compare_cont Eq my mx).
  change (PosDef.Pos.compare_cont Eq mx my) with (Pos.compare_cont Eq mx my).
  rewrite <- Hp. change (IntDef.Z.compare ey ex) with (ey ?= ex). rewrite Hz.
  change (IntDef.Z.compare ex ey) with (ex ?= ey).
  destruct sx, sy; cbn; try reflexivity;
    destruct (ex ?= ey); cbn; try reflexivity;
    destruct (Pos.compare_cont Eq mx my); reflexivity.
Qed.

(** Two floats that compare equal are the same float, or are both zeros. *)
Lemma SFcompare_Eq x y :
  SFcompare x y = Some Eq →
  x = y ∨ ∃ s s', x = S754_zero s ∧ y = S754_zero s'.
Proof.
  destruct x as [sx|sx| |sx mx ex], y as [sy|sy| |sy my ey]; cbn;
    try discriminate; try (destruct sx; discriminate);
    try (destruct sy; discriminate).
  - eauto.
  - destruct sx, sy; try discriminate; auto.
  - destruct sx, sy; try discriminate;
      destruct (ex ?= ey) eqn:Ee; try discriminate;
      apply Z.compare_eq in Ee as ->; intros [= H];
      [ destruct (Pos.compare_cont Eq mx my) eqn:Em; try discriminate
      | ]; left; f_equal.
    + by apply Pos.compare_eq.
    + by apply Pos.compare_eq.
Qed.

Lemma SFcompare_None x y :
  SFcompare x y = None → x = S754_nan ∨ y = S754_nan.
Proof.
  destruct x as [sx|sx| |sx mx ex], y as [sy|sy| |sy my ey]; cbn;
    try discriminate; auto.
Qed.

Lemma ltb_nan_l (v c : float) : Prim2SF v = S754_nan → PrimFloat.ltb v c = false.
Proof. intros H. rewrite ltb_spec, H. reflexivity. Qed.

End FloatFacts.

(** *** The signals of the score, argument by argument *)

Section ScoreSymmetry.
Import PropertyMatcher.

Lemma float_eqb_sym (x y : float) : PrimFloat.eqb x y = PrimFloat.eqb y x.
Proof.
  rewrite !FloatAxioms.eqb_spec. unfold SFeqb.
  rewrite (SFcompare_antisym (Prim2SF x) (Prim2SF y)).
  destruct (SFcompare (Prim2SF x) (Prim2SF y)) as [[]|]; reflexivity.
Qed.

Lemma num_eq_sym x y : Num.num_eq x y = Num.num_eq y x.
Proof.
  destruct x, y; cbn; [apply Z.eqb_sym | reflexivity | reflexivity | apply float_eqb_sym].
Qed.

Lemma py_eq_sym : ∀ a b, py_eq a b = py_eq b a.
Proof.
  fix IH 1. intros a b.
  destruct a as [| x | x | x | s | l], b as [| y | y | y | t | m];
    try reflexivity;
    try (cbn [py_eq Num.as_num]; apply num_eq_sym).
  - cbn. apply String.eqb_sym.
  - cbn [py_eq Num.as_num]. revert m.
    induction l as [|v l IHl]; intros [|w m]; try reflexivity.
    rewrite (IH v w). f_equal. apply IHl.
Qed.

Lemma same_upper_sym a b : same_upper a b = same_upper b a.
Proof.
  unfold same_upper. rewrite (andb_comm (truthy a)).
  destruct (truthy b && truthy a); [|reflexivity].
  destruct a, b; cbn; try reflexivity. by rewrite String.eqb_sym.
Qed.

Lemma location_match_sym loc1 loc2 :
  location_match loc1 loc2 = location_match loc2 loc1.
Proof.
  destruct loc1 as [[c1 s1] z1], loc2 as [[c2 s2] z2]. unfold location_match.
  rewrite (same_upper_sym c2 c1), (same_upper_sym s2 s1), (py_eq_sym z2 z1).
  rewrite (andb_comm (truthy z2)). reflexivity.
Qed.

Lemma add_address_sym score x y : add_address score x y = add_address score y x.
Proof.
  unfold add_address.
  rewrite (andb_comm (negb (y =? "")%string)), (String.eqb_sym y x),
    (orb_comm (Str.contains y x)).
  reflexivity.
Qed.

Lemma add_type_sym score x y : add_type score x y = add_type score y x.
Proof.
  unfold add_type.
  rewrite (andb_comm (negb (y =? "")%string)), (String.eqb_sym y x). reflexivity.
Qed.

Lemma ltb_antisym (x y : float) : PrimFloat.ltb x y = true → PrimFloat.ltb y x = false.
Proof.
  rewrite !ltb_spec. unfold SFltb.
  rewrite (SFcompare_antisym (Prim2SF x) (Prim2SF y)).
  destruct (SFcompare (Prim2SF x) (Prim2SF y)) as [[]|]; cbn; congruence.
Qed.

(** Neither below the other: the same float, two zeros, or a NaN. *)
Lemma ltb_neither (x y : float) :
  PrimFloat.ltb x y = false → PrimFloat.ltb y x = false →
  x = y
  ∨ (PrimFloat.eqb x 0 = true ∧ PrimFloat.eqb y 0 = true)
  ∨ Prim2SF x = S754_nan ∨ Prim2SF y = S754_nan.
Proof.
  rewrite !ltb_spec. unfold SFltb.
  rewrite (SFcompare_antisym (Prim2SF x) (Prim2SF y)).
  destruct (SFcompare (Prim2SF x) (Prim2SF y)) as [[]|] eqn:E; cbn;
    try discriminate; intros _ _.
  - apply SFcompare_Eq in E as [E | (s & s' & E1 & E2)].
    + left. by apply Prim2SF_inj.
    + right. left. rewrite !FloatAxioms.eqb_spec, E1, E2. split; reflexivity.
  - apply SFcompare_None in E as [E|E]; auto.
Qed.

Lemma sub_nan (x y : float) :
  Prim2SF x = S754_nan ∨ Prim2SF y = S754_nan →
  Prim2SF (PrimFloat.abs (x - y)) = S754_nan.
Proof.
  intros H. rewrite abs_spec, sub_spec.
  destruct H as [-> | ->]; [reflexivity|].
  by destruct (Prim2SF x).
Qed.

Lemma div_nan (n d : float) : Prim2SF n = S754_nan → Prim2SF (n / d) = S754_nan.
Proof. intros H. rewrite div_spec, H. reflexivity. Qed.

(** One signal computed from a relative variance: its update [g] of the
    score leaves the score as it is on a NaN. When both argument orders
    return, they return the same score. *)
Lemma variance_step_sym (score : float) (g : float → float) x y s1 s2 :
  (∀ v, Prim2SF v = S754_nan → g v = score) →
  except_value_zero score (v <- variance x y;; Ok (g v)) = Ok s1 →
  except_value_zero score (v <- variance y x;; Ok (g v)) = Ok s2 →
  s1 = s2.
Proof.
  intros Hg. unfold variance.
  destruct (Conv.py_float x) as [fx|e1], (Conv.py_float y) as [fy|e2];
    cbn [Py.bind].
  - rewrite (abs_sub_comm fy fx). unfold Num.float_max.
    destruct (PrimFloat.ltb fx fy) eqn:E1.
    + rewrite (ltb_antisym _ _ E1). congruence.
    + destruct (PrimFloat.ltb fy fx) eqn:E2; [congruence|].
      destruct (ltb_neither _ _ E1 E2) as [-> | [[Z1 Z2] | Hnan]]; [congruence| |].
      * unfold Num.float_truediv. rewrite Z1, Z2. cbn. congruence.
      * pose proof (sub_nan fx fy Hnan) as Hn.
        unfold Num.float_truediv.
        destruct (PrimFloat.eqb fx 0), (PrimFloat.eqb fy 0); cbn;
          rewrite ?(Hg _ (div_nan _ _ Hn)); congruence.
  - congruence.
  - congruence.
  - destruct e1, e2; cbn; congruence.
Qed.

Lemma add_size_sym score x y s1 s2 :
  add_size score x y = Ok s1 → add_size score y x = Ok s2 → s1 = s2.
Proof.
  unfold add_size. rewrite (andb_comm (truthy y)).
  destruct (truthy x && truthy y); [|congruence].
  apply variance_step_sym. intros v Hv. by rewrite !(ltb_nan_l v _ Hv).
Qed.

Lemma add_price_sym score x y s1 s2 :
  add_price score x y = Ok s1 → add_price score y x = Ok s2 → s1 = s2.
Proof.
  unfold add_price. rewrite (andb_comm (truthy y)).
  destruct (truthy x && truthy y); [|congruence].
  apply variance_step_sym. intros v Hv. by rewrite !(ltb_nan_l v _ Hv).
Qed.

(** Whenever both argument orders return a score, it is the same score. *)
Lemma calculate_match_score_sym a b s1 s2 :
  calculate_match_score a b = Ok s1 →
  calculate_match_score b a = Ok s2 →
  s1 = s2.
Proof.
  unfold calculate_match_score.
  destruct (AddressNormalizer.normalize_address (address_of a)) as [x1|];
    [|discriminate].
  destruct (AddressNormalizer.normalize_address (address_of b)) as [x2|];
    [|discriminate].
  cbn [Py.bind].
  destruct (location_of a) as [l1|]; [|discriminate].
  destruct (location_of b) as [l2|]; [|discriminate].
  cbn [Py.bind]. rewrite (location_match_sym l2 l1).
  destruct (location_match l1 l2) as [m|]; [|discriminate].
  cbn [Py.bind].
  destruct (type_of a) as [t1|]; [|discriminate].
  destruct (type_of b) as [t2|]; [|discriminate].
  cbn [Py.bind].
  rewrite (add_address_sym _ x2 x1), (add_type_sym _ t2 t1).
  destruct (add_size _ (size_of a) (size_of b)) as [u1|] eqn:E1; [|discriminate].
  destruct (add_size _ (size_of b) (size_of a)) as [u2|] eqn:E2; [|discriminate].
  cbn [Py.bind]. rewrite (add_size_sym _ _ _ _ _ E1 E2).
  apply add_price_sym.
Qed.

End ScoreSymmetry.

(** C7 on the code: the two conversions of the price signal run in argument
    order inside [try: ... except (ValueError, ZeroDivisionError)]. With a
    formatted price on one side and a nested value on the other, one order
    meets the handled [ValueError] first and returns the score, the other
    meets the [TypeError] first and raises. (When both orders return, the
    scores agree: [calculate_match_score_sym].) *)
Theorem C7_score_order_dependent :
  PropertyMatcher.calculate_match_score Samples.fields_formatted Samples.fields_nested
  = Ok 0%float
  ∧ PropertyMatcher.calculate_match_score Samples.fields_nested Samples.fields_formatted
    = Raise TypeError.
Proof. vm_compute. split; reflexivity. Qed.

(** ** Idempotence of the normalisation *)

(** C8 on the code: white space is collapsed before punctuation is deleted,
    so the ['#'] between two spaces leaves two spaces behind, which a second
    normalisation collapses. *)
Theorem C8_normalize_not_idempotent :
  AddressNormalizer.normalize_address (VStr "12 Oak St # 4") = Ok "12 OAK STREET  4"
  ∧ AddressNormalizer.normalize_address (VStr "12 OAK STREET  4")
    = Ok "12 OAK STREET 4".
Proof. vm_compute. split; reflexivity. Qed.


(** * Further properties of the code *)

(** ** PropertyMatcher *)

(** X1. Whenever [calculate_match_score] returns for both argument orders,
    it returns the same score; the field aliases are resolved per listing,
    so they do not matter. *)
Theorem X1_score_symmetric_when_both_return :
  ∀ (a b : gmap string pyval) (s1 s2 : float),
    PropertyMatcher.calculate_match_score a b = Ok s1 →
    PropertyMatcher.calculate_match_score b a = Ok s2 →
    s1 = s2.
Proof. exact calculate_match_score_sym. Qed.

Lemma X1_score_symmetric_when_both_return_witness :
  PropertyMatcher.calculate_match_score Samples.test_listing1 Samples.test_listing2
  = Ok 0.8500000000000001%float
  ∧ PropertyMatcher.calculate_match_score Samples.test_listing2 Samples.test_listing1
    = Ok 0.8500000000000001%float.
Proof.
  assert (H1 : PropertyMatcher.calculate_match_score
                 Samples.test_listing1 Samples.test_listing2
               = Ok 0.8500000000000001%float) by (vm_compute; reflexivity).
  split; [exact H1|].
  destruct (PropertyMatcher.calculate_match_score
              Samples.test_listing2 Samples.test_listing1) as [s2|e] eqn:E2.
  - f_equal. symmetry.
    exact (X1_score_symmetric_when_both_return _ _ _ _ H1 E2).
  - vm_compute in E2. discriminate.
Defined.

Section ScoreRange.
Import PropertyMatcher Notions.

Lemma add_address_values score x y :
  add_address score x y ∈ [score; score + 0.40; score + 0.30]%float.
Proof.
  unfold add_address. repeat case_match; set_solver.
Qed.

Lemma add_type_values score x y :
  add_type score x y ∈ [score; score + 0.15]%float.
Proof. unfold add_type. case_match; set_solver. Qed.

Lemma location_match_values loc1 loc2 m :
  location_match loc1 loc2 = Ok m → m ∈ location_values.
Proof.
  destruct loc1 as [[c1 s1] z1], loc2 as [[c2 s2] z2]. unfold location_match.
  destruct (same_upper c1 c2) as [c|]; [|discriminate]. cbn [Py.bind].
  destruct (same_upper s1 s2) as [s|]; [|discriminate]. cbn [Py.bind].
  intros [= <-].
  destruct c, s, (truthy z1 && truthy z2 && py_eq z1 z2);
    vm_compute; set_solver.
Qed.

Lemma add_size_values score x y s :
  add_size score x y = Ok s →
  s ∈ [score; score + 0.15; score + 0.10; score + 0.05]%float.
Proof.
  unfold add_size. destruct (truthy x && truthy y); [|intros [= <-]; set_solver].
  destruct (variance x y) as [v|[]]; cbn; try discriminate;
    try (intros [= <-]; set_solver).
  intros [= <-]. repeat case_match; set_solver.
Qed.

Lemma add_price_values score x y s :
  add_price score x y = Ok s →
  s ∈ [score; score + 0.10; score + 0.05]%float.
Proof.
  unfold add_price. destruct (truthy x && truthy y); [|intros [= <-]; set_solver].
  destruct (variance x y) as [v|[]]; cbn; try discriminate;
    try (intros [= <-]; set_solver).
  intros [= <-]. repeat case_match; set_solver.
Qed.

Lemma score_attainable a b s :
  calculate_match_score a b = Ok s → s ∈ attainable_scores.
Proof.
  unfold calculate_match_score.
  destruct (AddressNormalizer.normalize_address (address_of a)) as [x1|];
    [|discriminate].
  destruct (AddressNormalizer.normalize_address (address_of b)) as [x2|];
    [|discriminate].
  cbn [Py.bind].
  destruct (location_of a) as [l1|]; [|discriminate].
  destruct (location_of b) as [l2|]; [|discriminate].
  cbn [Py.bind].
  destruct (location_match l1 l2) as [m|] eqn:Em; [|discriminate].
  cbn [Py.bind].
  destruct (type_of a) as [t1|]; [|discriminate].
  destruct (type_of b) as [t2|]; [|discriminate].
  cbn [Py.bind].
  destruct (add_size _ (size_of a) (size_of b)) as [u|] eqn:Eu; [|discriminate].
  cbn [Py.bind]. intros Hp.
  unfold attainable_scores.
  apply list_elem_of_bind. eexists. split; [|apply (add_address_values _ x1 x2)].
  apply list_elem_of_bind. eexists. split; [|apply (location_match_values _ _ _ Em)].
  apply list_elem_of_bind. exists (add_type (add_address 0 x1 x2 + m) t1 t2).
  split; [|apply add_type_values].
  apply list_elem_of_bind. exists u.
  split; [apply (add_price_values _ _ _ _ Hp) | apply (add_size_values _ _ _ _ Eu)].
Qed.
End ScoreRange.

(** X2. A score that [calculate_match_score] returns lies between 0 and
    1.0000000000000002, the float sum of the five weights: one unit in the
    last place above 1. *)
Theorem X2_score_range :
  ∀ (a b : gmap string pyval) (s : float),
    PropertyMatcher.calculate_match_score a b = Ok s →
    PrimFloat.leb 0 s = true ∧ PrimFloat.leb s 1.0000000000000002 = true.
Proof.
  intros a b s H. apply score_attainable in H.
  assert (Hb : forallb (λ s, PrimFloat.leb 0 s
                             && PrimFloat.leb s 1.0000000000000002)
                       Notions.attainable_scores = true)
    by (vm_compute; reflexivity).
  rewrite forallb_forall in Hb. apply andb_true_iff, Hb, list_elem_of_In, H.
Qed.

Lemma X2_score_range_witness :
  PropertyMatcher.calculate_match_score Samples.fields_full Samples.fields_full
  = Ok 1.0000000000000002%float
  ∧ PrimFloat.leb 0 1.0000000000000002 = true
  ∧ PrimFloat.leb 1.0000000000000002 1.0000000000000002 = true.
Proof.
  assert (H : PropertyMatcher.calculate_match_score
                Samples.fields_full Samples.fields_full
              = Ok 1.0000000000000002%float) by (vm_compute; reflexivity).
  split; [exact H|]. exact (X2_score_range _ _ _ H).
Defined.

Section MatcherErrors.
Import PropertyMatcher.

Lemma normalize_address_raises v e :
  AddressNormalizer.normalize_address v = Raise e → e = AttributeError.
Proof.
  unfold AddressNormalizer.normalize_address.
  destruct (negb (truthy v)); [discriminate|]. destruct v; congruence.
Qed.

Lemma extract_raises v e :
  AddressNormalizer.extract_address_components v = Raise e → e = AttributeError.
Proof.
  unfold AddressNormalizer.extract_address_components.
  destruct v; try congruence. repeat case_match; discriminate.
Qed.

Lemma location_of_raises a e : location_of a = Raise e → e = AttributeError.
Proof.
  unfold location_of. case_match; [|discriminate].
  destruct (AddressNormalizer.extract_address_components _) eqn:E; [discriminate|].
  cbn. intros [= <-]. by apply extract_raises in E.
Qed.

Lemma same_upper_raises x y e : same_upper x y = Raise e → e = AttributeError.
Proof.
  unfold same_upper. case_match; [|discriminate].
  destruct x, y; cbn; congruence.
Qed.

Lemma location_match_raises l1 l2 e :
  location_match l1 l2 = Raise e → e = AttributeError.
Proof.
  destruct l1 as [[c1 s1] z1], l2 as [[c2 s2] z2]. unfold location_match.
  destruct (same_upper c1 c2) eqn:E1; cbn [Py.bind];
    [|intros [= <-]; by apply same_upper_raises in E1].
  destruct (same_upper s1 s2) eqn:E2; cbn [Py.bind];
    [discriminate|intros [= <-]; by apply same_upper_raises in E2].
Qed.

Lemma type_of_raises a e : type_of a = Raise e → e = AttributeError.
Proof.
  unfold type_of. case_match; [|discriminate].
  destruct (py_or _ _); cbn; congruence.
Qed.

Lemma float_of_str_raises s e : Conv.float_of_str s = Raise e → e = ValueError.
Proof.
  unfold Conv.float_of_str. repeat case_match; congruence.
Qed.

Lemma py_float_raises v e :
  Conv.py_float v = Raise e → e = TypeError ∨ e = ValueError ∨ e = OverflowError.
Proof.
  destruct v; cbn; try (intros [= <-]; auto); try discriminate.
  - unfold Num.float_of_int. case_match; [intros [= <-]; auto|discriminate].
  - intros H. apply float_of_str_raises in H. auto.
Qed.

Lemma variance_raises x y e :
  variance x y = Raise e →
  e = TypeError ∨ e = OverflowError ∨ e = ValueError ∨ e = ZeroDivisionError.
Proof.
  unfold variance.
  destruct (Conv.py_float x) eqn:Ex; cbn [Py.bind];
    [|intros [= <-]; apply py_float_raises in Ex; tauto].
  destruct (Conv.py_float y) eqn:Ey; cbn [Py.bind];
    [|intros [= <-]; apply py_float_raises in Ey; tauto].
  unfold Num.float_truediv. case_match; [intros [= <-]; auto|discriminate].
Qed.

Lemma except_value_zero_raises score r e :
  (∀ e', r = Raise e' →
         e' = TypeError ∨ e' = OverflowError ∨ e' = ValueError
         ∨ e' = ZeroDivisionError) →
  except_value_zero score r = Raise e → e = TypeError ∨ e = OverflowError.
Proof.
  intros H. destruct r as [v|e']; [discriminate|].
  destruct (H e' eq_refl) as [-> | [-> | [-> | ->]]]; cbn; intros [= <-]; auto;
    discriminate.
Qed.

Lemma add_size_raises score x y e :
  add_size score x y = Raise e → e = TypeError ∨ e = OverflowError.
Proof.
  unfold add_size. case_match; [|discriminate].
  apply except_value_zero_raises. intros e'.
  destruct (variance x y) eqn:E; cbn [Py.bind]; [discriminate|].
  intros [= <-]. by apply variance_raises in E.
Qed.

Lemma add_price_raises score x y e :
  add_price score x y = Raise e → e = TypeError ∨ e = OverflowError.
Proof.
  unfold add_price. case_match; [|discriminate].
  apply except_value_zero_raises. intros e'.
  destruct (variance x y) eqn:E; cbn [Py.bind]; [discriminate|].
  intros [= <-]. by apply variance_raises in E.
Qed.

Lemma score_raises a b e :
  calculate_match_score a b = Raise e →
  e = AttributeError ∨ e = TypeError ∨ e = OverflowError.
Proof.
  unfold calculate_match_score.
  destruct (AddressNormalizer.normalize_address (address_of a)) eqn:E1;
    cbn [Py.bind]; [|intros [= <-]; apply normalize_address_raises in E1; auto].
  destruct (AddressNormalizer.normalize_address (address_of b)) eqn:E2;
    cbn [Py.bind]; [|intros [= <-]; apply normalize_address_raises in E2; auto].
  destruct (location_of a) eqn:E3;
    cbn [Py.bind]; [|intros [= <-]; apply location_of_raises in E3; auto].
  destruct (location_of b) eqn:E4;
    cbn [Py.bind]; [|intros [= <-]; apply location_of_raises in E4; auto].
  destruct (location_match _ _) eqn:E5;
    cbn [Py.bind]; [|intros [= <-]; apply location_match_raises in E5; auto].
  destruct (type_of a) eqn:E6;
    cbn [Py.bind]; [|intros [= <-]; apply type_of_raises in E6; auto].
  destruct (type_of b) eqn:E7;
    cbn [Py.bind]; [|intros [= <-]; apply type_of_raises in E7; auto].
  destruct (add_size _ _ _) eqn:E8;
    cbn [Py.bind]; [|intros [= <-]; apply add_size_raises in E8; tauto].
  intros H. apply add_price_raises in H. tauto.
Qed.
End MatcherErrors.

(** X3. [calculate_match_score] never raises [ValueError],
    [ZeroDivisionError] or [KeyError]: a size or price that does not parse,
    or a zero maximum, costs the signal and nothing else. What it can raise
    is [AttributeError] (a text field that is no [str]), [TypeError] or
    [OverflowError] (a size or price [float] does not take). *)
Theorem X3_matcher_exceptions :
  ∀ (a b : gmap string pyval) (e : exn),
    PropertyMatcher.calculate_match_score a b = Raise e →
    e = AttributeError ∨ e = TypeError ∨ e = OverflowError.
Proof. exact score_raises. Qed.

Lemma X3_matcher_exceptions_witness :
  PropertyMatcher.calculate_match_score
    {[ "area" := VStr "n/a"; "price" := VStr "0" ]}
    {[ "area" := VInt 2000; "price" := VStr "-0" ]}
  = Ok 0%float
  ∧ PropertyMatcher.calculate_match_score
      {[ "area" := VInt 2000 ]} {[ "area" := VInt (10 ^ 400) ]}
    = Raise OverflowError
  ∧ (OverflowError = AttributeError ∨ OverflowError = TypeError
     ∨ OverflowError = OverflowError).
Proof.
  split; [vm_compute; reflexivity|]. split; [vm_compute; reflexivity|].
  apply (X3_matcher_exceptions {[ "area" := VInt 2000 ]}
           {[ "area" := VInt (10 ^ 400) ]}).
  vm_compute. reflexivity.
Defined.

Section MissingAddress.
Import PropertyMatcher.

Lemma truthy_py_or_empty v : truthy (py_or v (VStr "")) = truthy v.
Proof. unfold py_or. by destruct (truthy v) eqn:E. Qed.

Lemma location_of_no_text a :
  (∀ s, address_of a ≠ VStr s) →
  truthy (get a "address_city") = false ∨ truthy (get a "address_state") = false →
  location_of a = Raise AttributeError.
Proof.
  intros Hs Hc. unfold location_of. rewrite !truthy_py_or_empty.
  assert (negb (truthy (get a "address_city"))
          || negb (truthy (get a "address_state")) = true) as ->
    by (destruct Hc as [-> | ->]; [reflexivity|apply orb_true_r]).
  unfold AddressNormalizer.extract_address_components.
  destruct (address_of a) eqn:E; try reflexivity. by destruct (Hs s).
Qed.

Lemma score_no_text_address a b :
  (∀ s, address_of a ≠ VStr s) →
  truthy (get a "address_city") = false ∨ truthy (get a "address_state") = false →
  calculate_match_score a b = Raise AttributeError
  ∧ calculate_match_score b a = Raise AttributeError.
Proof.
  intros Hs Hc. pose proof (location_of_no_text a Hs Hc) as Hl.
  unfold calculate_match_score. rewrite Hl.
  destruct (AddressNormalizer.normalize_address (address_of a)) eqn:Ea;
    [|apply normalize_address_raises in Ea as ->];
    (destruct (AddressNormalizer.normalize_address (address_of b)) eqn:Eb;
      [|apply normalize_address_raises in Eb as ->]); cbn [Py.bind]; auto.
  split; [reflexivity|].
  destruct (location_of b) eqn:E; [reflexivity|].
  by apply location_of_raises in E as ->.
Qed.
End MissingAddress.

(** X4. A listing whose address is no text ([address_full] empty or missing
    and the [address] entry [None], as the Zillow agent stores a listing
    without address) and that lacks a city or a state cannot be compared:
    [calculate_match_score] raises [AttributeError] with it on either side,
    and so does [process_listings] when such a record comes first of two or
    more. *)
Theorem X4_first_listing_without_address_raises :
  ∀ (py_str : pyval → string) (now : datetime)
    (r0 r1 : Models.RawListingRecord) (rest : list Models.RawListingRecord),
    (∀ s, PropertyMatcher.address_of (Models.raw_fields r0) ≠ VStr s) →
    truthy (get (Models.raw_fields r0) "address_city") = false
    ∨ truthy (get (Models.raw_fields r0) "address_state") = false →
    (∀ other,
       PropertyMatcher.calculate_match_score (Models.raw_fields r0) other
       = Raise AttributeError
       ∧ PropertyMatcher.calculate_match_score other (Models.raw_fields r0)
         = Raise AttributeError)
    ∧ CentralProcessingNode.process_listings py_str now (r0 :: r1 :: rest)
      = Raise AttributeError.
Proof.
  intros py_str now r0 r1 rest Hs Hc.
  split; [intros other; by apply score_no_text_address|].
  unfold CentralProcessingNode.process_listings,
    CentralProcessingNode._group_listings.
  cbn [map CentralProcessingNode.group_from CentralProcessingNode.find_matches].
  rewrite bool_decide_eq_false_2 by apply not_elem_of_empty.
  rewrite bool_decide_eq_false_2
    by (rewrite elem_of_union, elem_of_singleton, elem_of_empty; lia).
  unfold CentralProcessingNode.matches, PropertyMatcher.is_match,
    PropertyMatcher.is_match_at.
  cbn [CentralProcessingNode.to_listing raw_fields CentralProcessingNode.item Py.bind].
  by rewrite (proj1 (score_no_text_address _ (Models.raw_fields r1) Hs Hc)).
Qed.

Lemma X4_first_listing_without_address_raises_witness :
  CentralProcessingNode.process_listings Samples.str_plain 9%N
    [Samples.record "zillow" "z-2" 1%N Samples.fields_no_address;
     Samples.record_a]
  = Raise AttributeError.
Proof.
  refine (proj2 (X4_first_listing_without_address_raises Samples.str_plain 9%N
            (Samples.record "zillow" "z-2" 1%N Samples.fields_no_address)
            Samples.record_a [] _ _)).
  - intros s. vm_compute. discriminate.
  - left. vm_compute. reflexivity.
Defined.

(** ** AddressNormalizer *)

Section Characters.
Import Notions.

Lemma all_chars_app P s t :
  Str.all_chars P (s +:+ t) = Str.all_chars P s && Str.all_chars P t.
Proof.
  induction s as [|c s IH]; [reflexivity|].
  change (String c s +:+ t) with (String c (s +:+ t)).
  cbn [Str.all_chars]. by rewrite IH, andb_assoc.
Qed.

Lemma all_chars_drop P n s :
  Str.all_chars P s = true → Str.all_chars P (Str.drop n s) = true.
Proof.
  revert s. induction n as [|n IH]; intros [|c s]; cbn; auto.
  intros [_ H]%andb_true_iff. auto.
Qed.

Lemma all_chars_span P p s :
  Str.all_chars P s = true → Str.all_chars P (Str.span p s) = true.
Proof.
  induction s as [|c s IH]; cbn; auto.
  intros [Hc H]%andb_true_iff. destruct (p c); cbn; [|reflexivity].
  by rewrite Hc, IH.
Qed.

Lemma all_chars_impl (P Q : ascii → bool) s :
  (∀ c, P c = true → Q c = true) →
  Str.all_chars P s = true → Str.all_chars Q s = true.
Proof.
  intros H. induction s as [|c s IH]; cbn; auto.
  intros [Hc Hs]%andb_true_iff. by rewrite (H c Hc), IH.
Qed.

Lemma all_chars_lstrip P s :
  Str.all_chars P s = true → Str.all_chars P (Str.lstrip s) = true.
Proof.
  induction s as [|c s IH]; cbn; auto.
  intros H. destruct (Str.is_space c); [|exact H].
  apply andb_true_iff in H as [_ H]. auto.
Qed.

Lemma all_chars_rstrip P s :
  Str.all_chars P s = true → Str.all_chars P (Str.rstrip s) = true.
Proof.
  induction s as [|c s IH]; cbn; auto.
  intros [Hc H]%andb_true_iff. destruct (_ && _); cbn; [reflexivity|].
  by rewrite Hc, IH.
Qed.

Lemma all_chars_strip P s :
  Str.all_chars P s = true → Str.all_chars P (Str.strip s) = true.
Proof. intros H. by apply all_chars_rstrip, all_chars_lstrip. Qed.

(** A scan turns a subject over [P] into a result over [Q] when the
    replacements are over [Q] and so is every character the matcher
    leaves in place. *)
Lemma sub_from_chars (P Q : ascii → bool) (m : Str.matcher) :
  (∀ prev s r n, Str.all_chars P s = true → m prev s = Some (r, n) →
                 Str.all_chars Q r = true) →
  (∀ prev c s, P c = true → m prev (String c s) = None → Q c = true) →
  ∀ s prev skip,
    Str.all_chars P s = true → Str.all_chars Q (Str.sub_from m prev skip s) = true.
Proof.
  intros Hr Hk. induction s as [|c s IH]; intros prev skip H; [reflexivity|].
  pose proof H as H'. cbn in H'. apply andb_true_iff in H' as [Hc Hs].
  cbn [Str.sub_from]. destruct skip as [|k]; [|by apply IH].
  destruct (m prev (String c s)) as [[r n]|] eqn:E.
  - rewrite all_chars_app, (Hr _ _ _ _ H E). by apply IH.
  - cbn. rewrite (Hk _ _ _ Hc E). by apply IH.
Qed.

Lemma re_sub_chars (P Q : ascii → bool) (m : Str.matcher) s :
  (∀ prev s r n, Str.all_chars P s = true → m prev s = Some (r, n) →
                 Str.all_chars Q r = true) →
  (∀ prev c s, P c = true → m prev (String c s) = None → Q c = true) →
  Str.all_chars P s = true → Str.all_chars Q (Str.re_sub m s) = true.
Proof. intros Hr Hk. by apply sub_from_chars. Qed.

Lemma upper_not_lower s :
  Str.all_chars (λ c, negb (Str.is_lower c)) (Str.upper s) = true.
Proof.
  induction s as [|c s IH]; cbn; [reflexivity|]. rewrite IH, andb_true_r.
  clear. destruct c as [[] [] [] [] [] [] [] []]; vm_compute; reflexivity.
Qed.

Lemma m_word_chars abbr full prev s r n :
  Str.all_chars normal_char full = true →
  Str.m_word abbr full prev s = Some (r, n) → Str.all_chars normal_char r = true.
Proof. unfold Str.m_word. intros H. case_match; congruence. Qed.

Lemma expand_chars table s :
  Forall (λ kv, Str.all_chars normal_char (snd kv) = true) table →
  Str.all_chars normal_char s = true →
  Str.all_chars normal_char (AddressNormalizer.expand table s) = true.
Proof.
  unfold AddressNormalizer.expand. intros Ht. revert s.
  induction Ht as [|[abbr full] table Hf Ht IH]; intros s Hs; [exact Hs|].
  cbn [fold_left]. apply IH.
  apply (re_sub_chars normal_char normal_char); auto.
  intros prev s' r n _. by apply m_word_chars.
Qed.

Lemma normalize_str_chars s :
  Str.all_chars normal_char (AddressNormalizer.normalize_str s) = true.
Proof.
  unfold AddressNormalizer.normalize_str.
  apply all_chars_strip.
  apply (re_sub_chars normal_char normal_char); auto.
  { intros prev s' r n _. unfold Str.m_unit. repeat case_match; try discriminate.
    by intros [= <- _]. }
  apply (re_sub_chars normal_char normal_char); auto.
  { intros prev s' r n Hs'. unfold Str.m_zeros. case_match; [|discriminate].
    intros [= <- _]. case_match; [reflexivity|].
    by apply all_chars_drop, all_chars_span. }
  apply expand_chars; [repeat constructor|].
  apply expand_chars; [repeat constructor|].
  apply (re_sub_chars
           (λ c, negb (Str.is_lower c) && (negb (Str.is_space c) || Ascii.eqb c " "))
           normal_char).
  { intros prev s' r n _. unfold Str.m_punct. repeat case_match; try discriminate.
    by intros [= <- _]. }
  { intros prev c s' Hc. unfold Str.m_punct. case_match eqn:E; [|discriminate].
    intros _. revert Hc E. clear.
    destruct c as [[] [] [] [] [] [] [] []]; vm_compute; congruence. }
  apply (re_sub_chars (λ c, negb (Str.is_lower c))).
  { intros prev s' r n _. unfold Str.m_spaces. case_match; [discriminate|].
    by intros [= <- _]. }
  { intros prev c s' Hc. unfold Str.m_spaces. cbn [Str.span].
    destruct (Str.is_space c) eqn:E; cbn; [discriminate|]. intros _.
    by rewrite Hc. }
  apply all_chars_strip, upper_not_lower.
Qed.
End Characters.

(** X5. Whatever the input text, the address [normalize_address] returns is
    made of upper-case letters, digits, underscores, plain spaces and
    hyphens only: no lower-case letter, no punctuation and no white space
    other than the space survives. *)
Theorem X5_normalized_alphabet :
  ∀ (address : pyval) (normalized : string),
    AddressNormalizer.normalize_address address = Ok normalized →
    Str.all_chars Notions.normal_char normalized = true.
Proof.
  intros address normalized. unfold AddressNormalizer.normalize_address.
  destruct (negb (truthy address)); [by intros [= <-]|].
  destruct address; try discriminate. intros [= <-]. apply normalize_str_chars.
Qed.

Lemma X5_normalized_alphabet_witness :
  AddressNormalizer.normalize_address (VStr "  12  oak st.,  apt #4b (rear) ")
  = Ok "12 OAK STREET UNIT 4B REAR"
  ∧ Str.all_chars Notions.normal_char "12 OAK STREET UNIT 4B REAR" = true.
Proof.
  split; [vm_compute; reflexivity|].
  apply (X5_normalized_alphabet (VStr "  12  oak st.,  apt #4b (rear) ")).
  vm_compute. reflexivity.
Defined.

Section Trimming.

Lemma lstrip_head s :
  Str.lstrip s = "" ∨ ∃ c r, Str.lstrip s = String c r ∧ Str.is_space c = false.
Proof.
  induction s as [|c s IH]; cbn; [by left|].
  destruct (Str.is_space c) eqn:E; [exact IH|]. right. eauto.
Qed.

Lemma rstrip_idem s : Str.rstrip (Str.rstrip s) = Str.rstrip s.
Proof.
  induction s as [|c s IH]; cbn; [reflexivity|].
  destruct (Str.is_space c && (Str.rstrip s =? "")%string) eqn:E; [reflexivity|].
  cbn. by rewrite IH, E.
Qed.

Lemma rstrip_cons c r :
  Str.is_space c = false → Str.rstrip (String c r) = String c (Str.rstrip r).
Proof. intros H. cbn. by rewrite H. Qed.

Lemma strip_idem s : Str.strip (Str.strip s) = Str.strip s.
Proof.
  unfold Str.strip.
  destruct (lstrip_head s) as [-> | (c & r & -> & Hc)]; [reflexivity|].
  rewrite (rstrip_cons c r Hc). cbn [Str.lstrip]. rewrite Hc.
  by rewrite (rstrip_cons c _ Hc), rstrip_idem.
Qed.

Lemma upper_char_idem c : Str.upper_char (Str.upper_char c) = Str.upper_char c.
Proof. destruct c as [[] [] [] [] [] [] [] []]; vm_compute; reflexivity. Qed.

Lemma upper_idem s : Str.upper (Str.upper s) = Str.upper s.
Proof.
  induction s as [|c s IH]; cbn; [reflexivity|]. by rewrite upper_char_idem, IH.
Qed.

Lemma is_space_upper_char c : Str.is_space (Str.upper_char c) = Str.is_space c.
Proof. destruct c as [[] [] [] [] [] [] [] []]; vm_compute; reflexivity. Qed.

Lemma upper_lstrip s : Str.upper (Str.lstrip s) = Str.lstrip (Str.upper s).
Proof.
  induction s as [|c s IH]; cbn; [reflexivity|].
  rewrite is_space_upper_char. by destruct (Str.is_space c).
Qed.

Lemma upper_empty s : (Str.upper s =? "")%string = (s =? "")%string.
Proof. by destruct s. Qed.

Lemma upper_rstrip s : Str.upper (Str.rstrip s) = Str.rstrip (Str.upper s).
Proof.
  induction s as [|c s IH]; cbn; [reflexivity|].
  rewrite is_space_upper_char, <- IH, upper_empty.
  by destruct (Str.is_space c && (Str.rstrip s =? "")%string).
Qed.

Lemma upper_strip s : Str.upper (Str.strip s) = Str.strip (Str.upper s).
Proof. unfold Str.strip. by rewrite upper_rstrip, upper_lstrip. Qed.

Lemma strip_empty_upper s :
  (Str.strip s =? "")%string = (Str.strip (Str.upper s) =? "")%string.
Proof. by rewrite <- upper_strip, upper_empty. Qed.

End Trimming.

(** X6. The address [normalize_address] returns has no leading and no
    trailing white space: stripping it changes nothing. *)
Theorem X6_normalized_is_stripped :
  ∀ (address : pyval) (normalized : string),
    AddressNormalizer.normalize_address address = Ok normalized →
    Str.strip normalized = normalized.
Proof.
  intros address normalized. unfold AddressNormalizer.normalize_address.
  destruct (negb (truthy address)); [by intros [= <-]|].
  destruct address; try discriminate. intros [= <-].
  unfold AddressNormalizer.normalize_str. apply strip_idem.
Qed.

Lemma X6_normalized_is_stripped_witness :
  AddressNormalizer.normalize_address (VStr " 5 Elm Rd, Suite ") = Ok "5 ELM ROAD UNIT"
  ∧ Str.strip "5 ELM ROAD UNIT" = "5 ELM ROAD UNIT".
Proof.
  split; [vm_compute; reflexivity|].
  apply (X6_normalized_is_stripped (VStr " 5 Elm Rd, Suite ")).
  vm_compute. reflexivity.
Defined.

(** X7. Normalisation ignores letter case and white space around the
    address: the upper-cased text and the stripped text normalise to what
    the text itself normalises to. *)
Theorem X7_normalize_ignores_case_and_margins :
  ∀ s : string,
    AddressNormalizer.normalize_address (VStr (Str.upper s))
    = AddressNormalizer.normalize_address (VStr s)
    ∧ (Str.strip s ≠ "" →
       AddressNormalizer.normalize_address (VStr (Str.strip s))
       = AddressNormalizer.normalize_address (VStr s)).
Proof.
  intros s. unfold AddressNormalizer.normalize_address. cbn [truthy]. split.
  - rewrite upper_empty. destruct (negb (negb (s =? "")%string)); [reflexivity|].
    unfold AddressNormalizer.normalize_str. by rewrite upper_idem.
  - intros Hne.
    assert (Hs : (Str.strip s =? "")%string = false) by by apply String.eqb_neq.
    assert (Hs' : (s =? "")%string = false).
    { apply String.eqb_neq. intros ->. by apply Hne. }
    rewrite Hs, Hs'. cbn [negb]. unfold AddressNormalizer.normalize_str.
    by rewrite upper_strip, strip_idem.
Qed.

Lemma X7_normalize_ignores_case_and_margins_witness :
  AddressNormalizer.normalize_address (VStr "12 Oak St")
  = AddressNormalizer.normalize_address (VStr " 12 Oak St ").
Proof.
  refine (proj2 (X7_normalize_ignores_case_and_margins " 12 Oak St ") _).
  vm_compute. discriminate.
Defined.

Section Components.
Import AddressNormalizer Notions.

Lemma take_length n s : (String.length (Str.take n s) ≤ n)%nat.
Proof.
  revert s. induction n as [|n IH]; intros [|c s]; cbn; try lia.
  specialize (IH s). lia.
Qed.

Lemma take_app_exact a b :
  Str.take (String.length a) (a +:+ b) = a
  ∧ Str.drop (String.length a) (a +:+ b) = b.
Proof.
  induction a as [|c a [IH1 IH2]]; [by destruct b|].
  change (String c a +:+ b) with (String c (a +:+ b)). cbn.
  by rewrite IH1, IH2.
Qed.

Lemma length_app_str a b :
  String.length (a +:+ b) = (String.length a + String.length b)%nat.
Proof.
  induction a as [|c a IH]; [reflexivity|].
  change (String c a +:+ b) with (String c (a +:+ b)). cbn. by rewrite IH.
Qed.

Lemma drop_add n m x : Str.drop (n + m) x = Str.drop m (Str.drop n x).
Proof.
  revert m x. induction n as [|n IH]; intros m [|c x]; cbn; auto. by destruct m.
Qed.

Lemma zip_shape_five z5 :
  String.length z5 = 5%nat → Str.all_chars Str.is_digit z5 = true →
  zip_shape z5 = true.
Proof.
  intros L D. unfold zip_shape. rewrite L, D. cbn. by rewrite orb_true_r.
Qed.

Lemma zip_shape_nine z5 z4 :
  String.length z5 = 5%nat → Str.all_chars Str.is_digit z5 = true →
  String.length z4 = 4%nat → Str.all_chars Str.is_digit z4 = true →
  zip_shape (z5 +:+ "-" +:+ z4) = true.
Proof.
  intros L5 D5 L4 D4. unfold zip_shape.
  destruct (take_app_exact z5 ("-" +:+ z4)) as [H5 H5']. rewrite L5 in H5, H5'.
  change 6%nat with (5 + 1)%nat.
  rewrite drop_add, H5, H5', !length_app_str, L5, L4, D5.
  change ("-" +:+ z4) with (String "-" z4). cbn.
  rewrite D4. apply orb_true_r.
Qed.

Lemma match_state_zip_shape s st z :
  match_state_zip s = Some (st, z) →
  state_shape st = true ∧ st ≠ "" ∧ zip_shape (default "" z) = true.
Proof.
  unfold match_state_zip.
  destruct (_ && _) eqn:E1; [|discriminate].
  apply andb_true_iff in E1 as [L1 U1].
  assert (Hst : state_shape (Str.take 2 s) = true ∧ Str.take 2 s ≠ "").
  { unfold state_shape. rewrite L1, U1. split; [apply orb_true_r|].
    intros H. rewrite H in L1. discriminate. }
  destruct Hst as [Hs1 Hs2].
  generalize dependent (Str.take 2 s). intros st0 _ _ Hs1 Hs2.
  generalize (Str.drop (String.length (Str.span Str.is_space (Str.drop 2 s)))
                (Str.drop 2 s)). intros r.
  destruct (_ && _) eqn:E2.
  - apply andb_true_iff in E2 as [L5%Nat.eqb_eq D5].
    destruct (_ && _ && _) eqn:E3; intros H; injection H as <- <-;
      (split; [exact Hs1|]); (split; [exact Hs2|]).
    + apply andb_true_iff in E3 as [[_ L4%Nat.eqb_eq]%andb_true_iff D4].
      by apply zip_shape_nine.
    + by apply zip_shape_five.
  - intros H; injection H as <- <-. auto.
Qed.
End Components.

(** X8. [extract_address_components] never fails on text: it returns the
    address it was given, a state that is empty or two upper-case letters
    and a ZIP that is empty, five digits, or five digits, a hyphen and four
    digits; a ZIP is reported only along with a state, and both stay empty
    when the address has fewer than three comma-separated parts. On a value
    that is no text, [None] included, it raises [AttributeError]. *)
Theorem X8_extract_components_shape :
  (∀ a : string,
     ∃ c, AddressNormalizer.extract_address_components (VStr a) = Ok c
          ∧ AddressNormalizer.full_address c = a
          ∧ Notions.state_shape (AddressNormalizer.state c) = true
          ∧ Notions.zip_shape (AddressNormalizer.zip c) = true
          ∧ (AddressNormalizer.state c = "" → AddressNormalizer.zip c = "")
          ∧ ((length (Str.split "," a) < 3)%nat →
             AddressNormalizer.state c = "" ∧ AddressNormalizer.zip c = ""))
  ∧ (∀ v, (∀ s, v ≠ VStr s) →
          AddressNormalizer.extract_address_components v = Raise AttributeError).
Proof.
  split.
  - intros a. unfold AddressNormalizer.extract_address_components.
    set (parts := map Str.strip (Str.split "," a)).
    destruct (parts !! 2%nat) as [p|] eqn:Ep.
    + destruct (AddressNormalizer.match_state_zip (Str.strip p)) as [[st z]|] eqn:Em.
      * destruct (match_state_zip_shape _ _ _ Em) as (H1 & H2 & H3).
        eexists. split; [reflexivity|]. cbn.
        split; [reflexivity|]. split; [exact H1|]. split; [exact H3|].
        split; [congruence|].
        intros Hlen. apply lookup_lt_Some in Ep.
        unfold parts in Ep. rewrite length_map in Ep. lia.
      * eexists. split; [reflexivity|]. cbn. repeat split; reflexivity.
    + eexists. split; [reflexivity|]. cbn. repeat split; reflexivity.
  - intros v Hv. destruct v; try reflexivity. by destruct (Hv s).
Qed.

Lemma X8_extract_components_shape_witness :
  AddressNormalizer.extract_address_components (VStr "12 Oak St, Seattle, WA 98101-1234")
  = Ok {| AddressNormalizer.full_address := "12 Oak St, Seattle, WA 98101-1234";
          AddressNormalizer.street := "12 Oak St";
          AddressNormalizer.city := "Seattle";
          AddressNormalizer.state := "WA";
          AddressNormalizer.zip := "98101-1234" |}
  ∧ AddressNormalizer.extract_address_components VNone = Raise AttributeError.
Proof.
  split; [vm_compute; reflexivity|].
  refine (proj2 X8_extract_components_shape VNone _).
  intros s. discriminate.
Defined.

(** ** Grouping: what the groups are *)

Section Groups.
Import CentralProcessingNode Notions.

Lemma split_by_leader_spec leader l ms us :
  split_by_leader leader l = Ok (ms, us) →
  l ≡ₚ ms ++ us
  ∧ Forall (λ x, matches leader x = Ok true) ms
  ∧ Forall (λ x, matches leader x = Ok false) us
  ∧ ms `sublist_of` l ∧ us `sublist_of` l.
Proof.
  revert ms us. induction l as [|x l IH]; cbn; intros ms us.
  - intros [= <- <-]. repeat split; constructor.
  - destruct (matches leader x) as [m|e] eqn:Em; [|discriminate]. cbn [Py.bind].
    destruct (split_by_leader leader l) as [[ms' us']|e]; [|discriminate].
    cbn [Py.bind fst snd].
    destruct (IH _ _ eq_refl) as (Hp & Hm & Hu & Hs1 & Hs2).
    destruct m; intros [= <- <-].
    + repeat split; auto.
      * cbn. by constructor.
      * by apply sublist_skip.
      * by apply sublist_cons.
    + repeat split; auto.
      * rewrite Hp. apply Permutation_middle.
      * by apply sublist_cons.
      * by apply sublist_skip.
Qed.

Lemma spec_grouping_grouped fuel l gs :
  (length l ≤ fuel)%nat →
  spec_leader_grouping_fuel fuel l = Ok gs → leader_grouped l gs.
Proof.
  revert l gs. induction fuel as [|fuel IH]; intros [|x l] gs; cbn [length].
  - intros _ [= <-]. constructor.
  - lia.
  - intros _ [= <-]. constructor.
  - intros Hl. cbn [spec_leader_grouping_fuel].
    destruct (split_by_leader x l) as [[ms us]|e] eqn:Es; [|discriminate].
    cbn [Py.bind fst snd].
    destruct (spec_leader_grouping_fuel fuel us) as [gs'|e] eqn:Eg; [|discriminate].
    cbn [Py.bind]. intros [= <-].
    econstructor; [exact Es|]. apply IH; [|exact Eg].
    apply split_by_leader_length in Es. lia.
Qed.

Lemma group_listings_grouped l gs :
  _group_listings l = Ok gs → leader_grouped l gs.
Proof.
  rewrite group_listings_refines. by apply spec_grouping_grouped.
Qed.

Lemma grouped_partition l gs :
  leader_grouped l gs → concat gs ≡ₚ l ∧ Forall (λ g, g ≠ []) gs.
Proof.
  induction 1 as [|leader rest ms us gs Hs _ [IHp IHn]]; [by split|].
  apply split_by_leader_spec in Hs as (Hp & _). split.
  - cbn. by rewrite IHp, Hp.
  - by constructor.
Qed.

Lemma grouped_sublists l gs :
  leader_grouped l gs →
  Forall (λ g, g `sublist_of` l) gs ∧ omap head gs `sublist_of` l.
Proof.
  induction 1 as [|leader rest ms us gs Hs _ [IHs IHh]];
    [split; constructor|].
  apply split_by_leader_spec in Hs as (_ & _ & _ & Hms & Hus). split.
  - constructor; [by apply sublist_skip|].
    eapply Forall_impl; [exact IHs|]. intros g Hg. cbn in Hg.
    apply sublist_cons. by etrans.
  - cbn. apply sublist_skip. by etrans.
Qed.

Lemma grouped_leaders l gs :
  leader_grouped l gs →
  ∀ before leader members after,
    gs = before ++ (leader :: members) :: after →
    Forall (λ x, matches leader x = Ok true) members
    ∧ Forall (Forall (λ x, matches leader x = Ok false)) after.
Proof.
  induction 1 as [|leader0 rest ms us gs Hs Hg IH];
    intros before leader members after Heq.
  - by destruct before.
  - destruct before as [|b before]; cbn in Heq.
    + injection Heq as <- <- <-.
      apply split_by_leader_spec in Hs as (_ & Hm & Hu & _). split; [exact Hm|].
      destruct (grouped_partition _ _ Hg) as [Hp _].
      apply Forall_forall. intros g Hin. apply Forall_forall. intros x Hx.
      rewrite Forall_forall in Hu. apply Hu. rewrite <- Hp.
      apply list_elem_of_In, in_concat. exists g.
      split; by apply list_elem_of_In.
    + injection Heq as _ ->. by eapply IH.
Qed.
End Groups.

(** X9. The groups [_group_listings] returns partition its input: no group
    is empty and the groups together hold every listing exactly as often as
    the input does, so there are at most as many groups as listings. *)
Theorem X9_groups_partition_input :
  ∀ (listings : list listing) (groups : list (list listing)),
    CentralProcessingNode._group_listings listings = Ok groups →
    concat groups ≡ₚ listings
    ∧ Forall (λ g, g ≠ []) groups
    ∧ (length groups ≤ length listings)%nat.
Proof.
  intros listings groups H. apply group_listings_grouped in H.
  destruct (grouped_partition _ _ H) as [Hp Hn]. split; [exact Hp|].
  split; [exact Hn|].
  rewrite <- Hp. clear Hp H.
  induction Hn as [|g gs Hg _ IH]; cbn; [lia|].
  rewrite length_app. destruct g; [congruence|]. cbn. lia.
Qed.

Lemma X9_groups_partition_input_witness :
  concat [[Samples.listing_a; Samples.listing_b]; [Samples.listing_c]]
  ≡ₚ [Samples.listing_a; Samples.listing_b; Samples.listing_c]
  ∧ Forall (λ g, g ≠ [])
           [[Samples.listing_a; Samples.listing_b]; [Samples.listing_c]]
  ∧ (length [[Samples.listing_a; Samples.listing_b]; [Samples.listing_c]]
     ≤ length [Samples.listing_a; Samples.listing_b; Samples.listing_c])%nat.
Proof.
  apply (X9_groups_partition_input
           [Samples.listing_a; Samples.listing_b; Samples.listing_c]).
  vm_compute. reflexivity.
Defined.

(** X10. Grouping keeps the input order: every group is a subsequence of
    the input, and the leaders (the first listings of the groups) appear in
    the order they have in the input. *)
Theorem X10_groups_keep_input_order :
  ∀ (listings : list listing) (groups : list (list listing)),
    CentralProcessingNode._group_listings listings = Ok groups →
    Forall (λ g, g `sublist_of` listings) groups
    ∧ omap head groups `sublist_of` listings.
Proof.
  intros listings groups H.
  exact (grouped_sublists _ _ (group_listings_grouped _ _ H)).
Qed.

Lemma X10_groups_keep_input_order_witness :
  Forall (λ g, g `sublist_of`
                 [Samples.listing_a; Samples.listing_b; Samples.listing_c])
         [[Samples.listing_a; Samples.listing_b]; [Samples.listing_c]]
  ∧ omap head [[Samples.listing_a; Samples.listing_b]; [Samples.listing_c]]
    `sublist_of` [Samples.listing_a; Samples.listing_b; Samples.listing_c].
Proof.
  apply (X10_groups_keep_input_order
           [Samples.listing_a; Samples.listing_b; Samples.listing_c]).
  vm_compute. reflexivity.
Defined.

(** X11. In the groups [_group_listings] returns, every member of a group
    matches the group's leader, and no listing of a later group matches the
    leader of an earlier one: a listing joins the first leader it matches. *)
Theorem X11_members_match_first_leader :
  ∀ (listings : list listing) (groups : list (list listing)),
    CentralProcessingNode._group_listings listings = Ok groups →
    ∀ before leader members after,
      groups = before ++ (leader :: members) :: after →
      Forall (λ x, CentralProcessingNode.matches leader x = Ok true) members
      ∧ Forall (Forall (λ x, CentralProcessingNode.matches leader x = Ok false))
               after.
Proof.
  intros listings groups H.
  exact (grouped_leaders _ _ (group_listings_grouped _ _ H)).
Qed.

Lemma X11_members_match_first_leader_witness :
  Forall (λ x, CentralProcessingNode.matches Samples.listing_a x = Ok true)
         [Samples.listing_b]
  ∧ Forall (Forall (λ x, CentralProcessingNode.matches Samples.listing_a x
                         = Ok false))
           [[Samples.listing_c]].
Proof.
  apply (X11_members_match_first_leader
           [Samples.listing_a; Samples.listing_b; Samples.listing_c]
           [[Samples.listing_a; Samples.listing_b]; [Samples.listing_c]]
           ltac:(vm_compute; reflexivity) []).
  reflexivity.
Defined.

(** ** The pipeline of [process_listings] *)

Section Pipeline.
Import CentralProcessingNode Notions.
Variable py_str : pyval → string.
Variable now : datetime.

Lemma mapM_result_Forall2 {A B : Type} (f : A → result B) l ys :
  mapM_result f l = Ok ys ↔ Forall2 (λ x y, f x = Ok y) l ys.
Proof.
  revert ys. induction l as [|x l IH]; cbn; intros ys.
  - split; [intros [= <-]; constructor | by inversion 1].
  - split.
    + destruct (f x) as [y|e] eqn:E; [|discriminate].
      destruct (mapM_result f l) as [ys'|e]; [|discriminate].
      intros [= <-]. constructor; [done|]. by apply IH.
    + inversion 1 as [|? y ? ys' Hy Hys]; subst. rewrite Hy.
      apply IH in Hys. by rewrite Hys.
Qed.

Lemma process_listings_inv raw props :
  process_listings py_str now raw = Ok props →
  ∃ groups,
    _group_listings (map to_listing raw) = Ok groups
    ∧ Forall2 (λ ig p, _consolidate_group py_str now ig.1 ig.2 = Ok p)
              (imap pair groups) props.
Proof.
  unfold process_listings.
  destruct (_group_listings _) as [groups|e]; [|discriminate].
  cbn [Py.bind]. intros H. exists groups. split; [done|].
  apply mapM_result_Forall2 in H.
  eapply Forall2_impl; [exact H|]. by intros [i g] p.
Qed.

Lemma consolidate_group_inv i g p :
  _consolidate_group py_str now i g = Ok p →
  Models.property_id p = property_id_of i
  ∧ mapM_result summary_of g = Ok (Models.source_listings p)
  ∧ Models.last_updated p = now.
Proof.
  unfold _consolidate_group.
  destruct (consolidate_fields _ _) as [st|e]; [|discriminate]. cbn [Py.bind].
  destruct (PropertyClassifier.classify_property _ _) as [v|e]; [|discriminate].
  cbn [Py.bind].
  destruct (mapM_result summary_of g) as [sl|e]; [|discriminate].
  cbn [Py.bind]. by intros [= <-].
Qed.

Lemma summary_of_to_listing r : summary_of (to_listing r) = Ok (record_summary r).
Proof. reflexivity. Qed.

Lemma summaries_of_records rs :
  mapM_result summary_of (map to_listing rs) = Ok (map record_summary rs).
Proof.
  induction rs as [|r rs IH]; [done|].
  cbn [map mapM_result]. by rewrite summary_of_to_listing, IH.
Qed.

Lemma consolidated_summaries (k : nat) groups props :
  Forall2 (λ ig p, _consolidate_group py_str now ig.1 ig.2 = Ok p)
          (imap (λ i, pair (k + i)%nat) groups) props →
  mapM_result summary_of (concat groups)
  = Ok (concat (map Models.source_listings props))
  ∧ Forall2 (λ g p, length (Models.source_listings p) = length g) groups props
  ∧ ∀ i p, props !! i = Some p →
           Models.property_id p = property_id_of (k + i).
Proof.
  revert k props. induction groups as [|g groups IH]; intros k props H.
  - inversion H; subst. split; [done|]. split; [constructor|]. by intros [|i].
  - rewrite imap_cons in H. inversion H as [|? p ? props' Hp Hps]; subst.
    cbn in Hp. apply consolidate_group_inv in Hp as (Hid & Hs & _).
    destruct (IH (S k) props') as (IHs & IHl & IHi).
    { erewrite imap_ext; [exact Hps|]. intros i x _. cbn. f_equal. lia. }
    apply mapM_result_Forall2 in Hs, IHs. split; [|split].
    + apply mapM_result_Forall2. cbn. by apply Forall2_app.
    + constructor; [|done]. by apply Forall2_length in Hs.
    + intros [|i] q; cbn [lookup list_lookup].
      * intros [= <-]. exact Hid.
      * intros Hq. apply IHi in Hq. by rewrite Nat.add_succ_r.
Qed.
End Pipeline.

(** X12. Every raw listing ends up in exactly one consolidated property:
    the [source_listings] of the properties [process_listings] returns hold,
    together, the summaries of the raw listings, each as often as the input
    has it; no property is without a source listing, and there are at most
    as many properties as raw listings. *)
Theorem X12_every_listing_in_one_property :
  ∀ (py_str : pyval → string) (now : datetime)
    (raw_listings : list Models.RawListingRecord)
    (properties : list Models.ConsolidatedProperty),
    CentralProcessingNode.process_listings py_str now raw_listings = Ok properties →
    concat (map Models.source_listings properties)
    ≡ₚ map Notions.record_summary raw_listings
    ∧ Forall (λ p, Models.source_listings p ≠ []) properties
    ∧ (length properties ≤ length raw_listings)%nat.
Proof.
  intros py_str now raw props H.
  apply process_listings_inv in H as (groups & Hg & Hc).
  apply group_listings_grouped, grouped_partition in Hg as [Hp Hn].
  apply (consolidated_summaries py_str now 0) in Hc as (Hs & Hl & _).
  split; [|split].
  - apply Permutation_map_inv in Hp as (raw' & Heq & Hp).
    rewrite Heq, summaries_of_records in Hs. injection Hs as <-.
    by rewrite Hp.
  - clear Hs Hp. induction Hl as [|g p gs ps Hgp _ IH]; [constructor|].
    inversion Hn as [|? ? Hg Hgs]; subst. constructor; [|by apply IH].
    destruct (Models.source_listings p); [|done]. by destruct g.
  - rewrite <- (Forall2_length _ _ _ Hl), <- (length_map CentralProcessingNode.to_listing raw),
      <- Hp.
    clear Hp Hs Hl. induction Hn as [|g gs Hg _ IH]; cbn; [lia|].
    rewrite length_app. destruct g; [congruence|]. cbn. lia.
Qed.

Lemma X12_every_listing_in_one_property_witness :
  ∃ properties,
    CentralProcessingNode.process_listings Samples.str_plain 9%N
      [Samples.record_a; Samples.record_b; Samples.record_c; Samples.record_d]
    = Ok properties
    ∧ concat (map Models.source_listings properties)
      ≡ₚ map Notions.record_summary
             [Samples.record_a; Samples.record_b; Samples.record_c; Samples.record_d]
    ∧ Forall (λ p, Models.source_listings p ≠ []) properties
    ∧ (length properties ≤ 4)%nat.
Proof.
  eexists. split; [vm_compute; reflexivity|].
  apply (X12_every_listing_in_one_property Samples.str_plain 9%N
           [Samples.record_a; Samples.record_b; Samples.record_c; Samples.record_d]).
  vm_compute. reflexivity.
Defined.

(** ** Property identifiers *)

Section PropertyIds.
Import CentralProcessingNode.

(** The decimal text of a positive number does not start with a zero. *)
Lemma pretty_N_go_head (x : N) (s : string) :
  (0 < x)%N → ∃ c t, pretty_N_go x s = String c t ∧ c ≠ "0"%char.
Proof.
  revert s. induction (N.lt_wf_0 x) as [x _ IH]; intros s Hx.
  rewrite pretty_N_go_step by done.
  destruct (decide (x < 10)%N) as [Hlt|Hge].
  - rewrite N.div_small, N.mod_small, pretty_N_go_0 by done.
    eexists _, _. split; [done|].
    intros Hc. apply (pretty_N_char_inj x 0) in Hc; lia.
  - apply IH; [by apply N.div_lt|]. apply N.div_str_pos. lia.
Qed.

Lemma pretty_nat_head (n : nat) :
  pretty n = "0" ∨ ∃ c t, pretty n = String c t ∧ c ≠ "0"%char.
Proof.
  unfold pretty, pretty_nat, pretty, pretty_N.
  case_decide; [by left|right]. apply pretty_N_go_head. lia.
Qed.

(** Zero padding cannot make two decimal texts collide. *)
Lemma zero_padding_inj (z1 z2 s t : string) :
  Str.all_chars (Ascii.eqb "0") z1 = true →
  Str.all_chars (Ascii.eqb "0") z2 = true →
  (s = "0" ∨ ∃ c r, s = String c r ∧ c ≠ "0"%char) →
  (t = "0" ∨ ∃ c r, t = String c r ∧ c ≠ "0"%char) →
  z1 +:+ s = z2 +:+ t → s = t.
Proof.
  assert (∀ z u : string, z +:+ u = "" → u = "") as Hempty.
  { intros [|? ?] u; [done|discriminate]. }
  revert z2. induction z1 as [|a z1 IH]; intros [|b z2];
    try change ("" +:+ s) with s; try change ("" +:+ t) with t;
    try change (String a z1 +:+ s) with (String a (z1 +:+ s));
    try change (String b z2 +:+ t) with (String b (z2 +:+ t));
    cbn [Str.all_chars]; rewrite ?andb_true_iff, ?Ascii.eqb_eq.
  - done.
  - intros _ [<- Hz] [->|(c & r & -> & Hc)] Ht; [|by intros [= ->]].
    intros [= Heq]. symmetry in Heq. apply Hempty in Heq as ->.
    by destruct Ht as [?|(? & ? & ? & _)].
  - intros [<- Hz] _ Hs [->|(c & r & -> & Hc)]; [|by intros [= <-]].
    intros [= Heq]. apply Hempty in Heq as ->.
    by destruct Hs as [?|(? & ? & ? & _)].
  - intros [_ H1] [_ H2] Hs Ht [= _ Heq]. by apply (IH z2).
Qed.

Lemma padding_zeros (k : nat) :
  Str.all_chars (Ascii.eqb "0") (Str.drop k "000000") = true.
Proof. do 7 (destruct k as [|k]; [reflexivity|]). reflexivity. Qed.

Lemma property_id_of_inj : Inj (=) (=) property_id_of.
Proof.
  intros n m. unfold property_id_of. intros [= H].
  apply (inj pretty).
  eapply zero_padding_inj, H; auto using padding_zeros, pretty_nat_head.
Qed.

(** Below a million groups the identifier has eleven characters. *)
Lemma pretty_N_go_length (x : N) (s : string) (k : nat) :
  (x < 10 ^ N.of_nat k)%N →
  (String.length (pretty_N_go x s) ≤ k + String.length s)%nat.
Proof.
  revert x s. induction k as [|k IH]; intros x s Hx.
  - assert (x = 0%N) as -> by (cbn in Hx; lia). rewrite pretty_N_go_0. lia.
  - destruct (decide (0 < x)%N) as [Hpos|Hz].
    + rewrite pretty_N_go_step by done.
      etrans; [apply IH|cbn; lia].
      apply N.Div0.div_lt_upper_bound.
      rewrite Nat2N.inj_succ, N.pow_succ_r' in Hx. lia.
    + assert (x = 0%N) as -> by lia. rewrite pretty_N_go_0. lia.
Qed.

Lemma property_id_of_length (n : nat) :
  (N.of_nat n < 1000000)%N → String.length (property_id_of n) = 11%nat.
Proof.
  intros Hn. unfold property_id_of.
  assert (String.length (pretty n) ≤ 6)%nat as Hlen.
  { unfold pretty, pretty_nat, pretty, pretty_N. case_decide; [cbn; lia|].
    etrans; [apply (pretty_N_go_length _ _ 6)|cbn; lia].
    change (10 ^ N.of_nat 6)%N with 1000000%N. lia. }
  generalize dependent (pretty n). intros d Hd.
  change ("PROP-" +:+ ?s) with (String "P" (String "R" (String "O" (String "P"
    (String "-" s))))).
  cbn [String.length]. rewrite length_app_str.
  do 7 (destruct d as [|? d]; [cbn; lia|]). cbn in Hd. lia.
Qed.
End PropertyIds.

(** X13. The properties [process_listings] returns are numbered in order:
    the property at position [i] has the identifier [PROP-] followed by [i]
    padded with zeros to six digits. The identifiers are pairwise distinct,
    and below a million groups each has eleven characters. *)
Theorem X13_property_ids_sequential :
  ∀ (py_str : pyval → string) (now : datetime)
    (raw_listings : list Models.RawListingRecord)
    (properties : list Models.ConsolidatedProperty),
    CentralProcessingNode.process_listings py_str now raw_listings = Ok properties →
    (∀ i p, properties !! i = Some p →
            Models.property_id p = CentralProcessingNode.property_id_of i
            ∧ ((N.of_nat i < 1000000)%N
               → String.length (Models.property_id p) = 11%nat))
    ∧ NoDup (map Models.property_id properties).
Proof.
  intros py_str now raw props H.
  apply process_listings_inv in H as (groups & _ & Hc).
  apply (consolidated_summaries py_str now 0) in Hc as (_ & _ & Hi).
  assert (map Models.property_id props
          = map CentralProcessingNode.property_id_of (seq 0 (length props))) as Heq.
  { apply list_eq. intros i. rewrite !list_lookup_fmap.
    destruct (props !! i) as [p|] eqn:Ep; cbn.
    - rewrite (Hi _ _ Ep). apply lookup_lt_Some in Ep.
      by rewrite lookup_seq_lt.
    - apply lookup_ge_None in Ep. by rewrite lookup_seq_ge. }
  split.
  - intros i p Hp. rewrite (Hi _ _ Hp). split; [done|].
    apply property_id_of_length.
  - rewrite Heq. apply (NoDup_fmap_2 _ (Inj0 := property_id_of_inj)), NoDup_seq.
Qed.

Lemma X13_property_ids_sequential_witness :
  ∃ properties,
    CentralProcessingNode.process_listings Samples.str_plain 9%N
      [Samples.record_a; Samples.record_b; Samples.record_c; Samples.record_d]
    = Ok properties
    ∧ map Models.property_id properties
      = ["PROP-000000"; "PROP-000001"; "PROP-000002"]
    ∧ (∀ i p, properties !! i = Some p →
              Models.property_id p = CentralProcessingNode.property_id_of i
              ∧ ((N.of_nat i < 1000000)%N
                 → String.length (Models.property_id p) = 11%nat))
    ∧ NoDup (map Models.property_id properties).
Proof.
  eexists. split; [vm_compute; reflexivity|]. split; [reflexivity|].
  apply (X13_property_ids_sequential Samples.str_plain 9%N
           [Samples.record_a; Samples.record_b; Samples.record_c; Samples.record_d]).
  vm_compute. reflexivity.
Defined.

(** ** What a match needs *)

Section AddressSignal.
Import PropertyMatcher Notions.

Lemma add_address_no_signal x y :
  address_signal x y = false → add_address 0 x y = 0%float.
Proof.
  unfold address_signal, add_address.
  destruct (negb (x =? "")%string && negb (y =? "")%string); [|done].
  cbn. destruct (x =? y)%string; [done|]. cbn. by intros ->.
Qed.

Lemma score_after_address a b s :
  calculate_match_score a b = Ok s →
  ∃ x1 x2,
    AddressNormalizer.normalize_address (address_of a) = Ok x1
    ∧ AddressNormalizer.normalize_address (address_of b) = Ok x2
    ∧ s ∈ scores_after_address (add_address 0 x1 x2).
Proof.
  unfold calculate_match_score.
  destruct (AddressNormalizer.normalize_address (address_of a)) as [x1|];
    [|discriminate].
  destruct (AddressNormalizer.normalize_address (address_of b)) as [x2|];
    [|discriminate].
  cbn [Py.bind].
  destruct (location_of a) as [l1|]; [|discriminate].
  destruct (location_of b) as [l2|]; [|discriminate].
  cbn [Py.bind].
  destruct (location_match l1 l2) as [m|] eqn:Em; [|discriminate].
  cbn [Py.bind].
  destruct (type_of a) as [t1|]; [|discriminate].
  destruct (type_of b) as [t2|]; [|discriminate].
  cbn [Py.bind].
  destruct (add_size _ (size_of a) (size_of b)) as [u|] eqn:Eu; [|discriminate].
  cbn [Py.bind]. intros Hp. exists x1, x2. split; [done|]. split; [done|].
  unfold scores_after_address.
  apply list_elem_of_bind. eexists. split; [|apply (location_match_values _ _ _ Em)].
  apply list_elem_of_bind. exists (add_type (add_address 0 x1 x2 + m) t1 t2).
  split; [|apply add_type_values].
  apply list_elem_of_bind. exists u.
  split; [apply (add_price_values _ _ _ _ Hp) | apply (add_size_values _ _ _ _ Eu)].
Qed.
End AddressSignal.

(** X14. No match without an address signal: when [is_match] answers yes,
    both listings have a non-empty normalized address, and the two are equal
    or one contains the other. Location, type, size and price together reach
    0.6000000000000001 at most, below the threshold 0.70. *)
Theorem X14_match_needs_address_signal :
  ∀ (a b : gmap string pyval) (s : float),
    PropertyMatcher.is_match a b = Ok (true, s) →
    ∃ x1 x2,
      AddressNormalizer.normalize_address (PropertyMatcher.address_of a) = Ok x1
      ∧ AddressNormalizer.normalize_address (PropertyMatcher.address_of b) = Ok x2
      ∧ Notions.address_signal x1 x2 = true.
Proof.
  intros a b s. unfold PropertyMatcher.is_match, PropertyMatcher.is_match_at.
  destruct (PropertyMatcher.calculate_match_score a b) as [s'|] eqn:E;
    [|discriminate].
  cbn [Py.bind]. intros [= Hs <-].
  apply score_after_address in E as (x1 & x2 & H1 & H2 & Hin).
  exists x1, x2. split; [done|]. split; [done|].
  destruct (Notions.address_signal x1 x2) eqn:Ea; [done|].
  rewrite (add_address_no_signal _ _ Ea) in Hin.
  assert (Hb : forallb (λ s, negb (PrimFloat.leb 0.70 s))
                       (Notions.scores_after_address 0) = true)
    by (vm_compute; reflexivity).
  rewrite forallb_forall in Hb. apply list_elem_of_In, Hb in Hin.
  by rewrite Hs in Hin.
Qed.

Lemma X14_match_needs_address_signal_witness :
  ∃ x1 x2,
    AddressNormalizer.normalize_address
      (PropertyMatcher.address_of Samples.fields_a) = Ok x1
    ∧ AddressNormalizer.normalize_address
        (PropertyMatcher.address_of Samples.fields_b) = Ok x2
    ∧ Notions.address_signal x1 x2 = true.
Proof.
  apply (X14_match_needs_address_signal Samples.fields_a Samples.fields_b
           0.7400000000000001%float).
  vm_compute. reflexivity.
Defined.

(** ** What the classifier can raise *)

Section ClassifierErrors.
Import PropertyClassifier.

Lemma prop_type_of_raises d e : prop_type_of d = Raise e → e = AttributeError.
Proof.
  unfold prop_type_of. case_match.
  - destruct (py_or _ _); cbn; congruence.
  - discriminate.
Qed.

Lemma int_of_str_raises s e : Conv.int_of_str s = Raise e → e = ValueError.
Proof. unfold Conv.int_of_str. repeat case_match; congruence. Qed.

Lemma py_int_raises v e :
  Conv.py_int v = Raise e → e = TypeError ∨ e = ValueError ∨ e = OverflowError.
Proof.
  destruct v; cbn; try (intros [= <-]; auto); try discriminate.
  - unfold Conv.int_of_float. case_match; try discriminate; intros [= <-]; auto.
  - intros H. apply int_of_str_raises in H. auto.
Qed.

Lemma except_value_type_raises {A : Type} (dflt : A) r e :
  (∀ e', r = Raise e' → e' = TypeError ∨ e' = ValueError ∨ e' = OverflowError) →
  except_value_type dflt r = Raise e → e = OverflowError.
Proof.
  intros Hr. destruct r as [x|e']; [discriminate|].
  destruct (Hr e' eq_refl) as [-> | [-> | ->]]; cbn; congruence.
Qed.

Lemma classify_property_raises now d e :
  classify_property now d = Raise e →
  truthy (get d "address") = true ∧ (e = AttributeError ∨ e = OverflowError).
Proof.
  unfold classify_property. cbn [List.filter].
  destruct (truthy (get d "address")); cbn [negb]; [|discriminate].
  intros H. split; [done|]. revert H.
  destruct (prop_type_of d) as [t|e'] eqn:Et; cbn [Py.bind];
    [|intros [= <-]; left; by apply prop_type_of_raises in Et].
  match goal with
  | |- Py.bind ?r _ = _ → _ => destruct r as [[p|]|e'] eqn:Ep
  end; cbn [Py.bind]; [discriminate| |].
  - match goal with
    | |- Py.bind ?r _ = _ → _ => destruct r as [[|]|e'] eqn:Ed
    end; cbn [Py.bind]; [discriminate|discriminate|].
    intros [= <-]. right. clear Ep. revert Ed. case_match; [|discriminate].
    apply except_value_type_raises. intros e2.
    destruct (Conv.py_int _) eqn:Ei; cbn [Py.bind]; [discriminate|].
    intros [= <-]. by apply py_int_raises in Ei.
  - intros [= <-]. right. revert Ep. case_match; [|discriminate].
    apply except_value_type_raises. intros e2.
    destruct (price_number _) eqn:Ei; cbn [Py.bind]; [discriminate|].
    intros [= <-]. unfold price_number in Ei. by apply py_float_raises in Ei.
Qed.
End ClassifierErrors.

(** X15. [classify_property] raises [AttributeError] (a property type that
    is no [str]) or [OverflowError] (a price [float] does not take, an
    infinite number of days) and nothing else, and it raises on no record
    whose address is missing or empty: that verdict comes first. *)
Theorem X15_classifier_exceptions :
  ∀ (now : datetime) (consolidated_data : gmap string pyval) (e : exn),
    PropertyClassifier.classify_property now consolidated_data = Raise e →
    truthy (get consolidated_data "address") = true
    ∧ (e = AttributeError ∨ e = OverflowError).
Proof. exact classify_property_raises. Qed.

Lemma X15_classifier_exceptions_witness :
  PropertyClassifier.classify_property 9%N
    {[ "address" := VStr "12 Oak St"; "daysOnZillow" := VFloat infinity ]}
  = Raise OverflowError
  ∧ PropertyClassifier.classify_property 9%N
      {[ "address" := VStr "12 Oak St"; "daysOnZillow" := VFloat nan ]}
    = Ok ("usable", None, None)
  ∧ truthy (get ({[ "address" := VStr "12 Oak St";
                    "daysOnZillow" := VFloat infinity ]} : gmap string pyval)
                "address") = true
  ∧ (OverflowError = AttributeError ∨ OverflowError = OverflowError).
Proof.
  split; [vm_compute; reflexivity|]. split; [vm_compute; reflexivity|].
  apply (X15_classifier_exceptions 9%N
           {[ "address" := VStr "12 Oak St"; "daysOnZillow" := VFloat infinity ]}).
  vm_compute. reflexivity.
Defined.

(** ** Conflicts between observations of mixed kinds *)

Section ConflictKinds.
Import DataConsolidator.
Variable py_str : pyval → string.

Lemma num_of_raises v e : num_of v = Raise e → e = TypeError.
Proof. unfold num_of. destruct (Num.as_num v); congruence. Qed.

(** Once the running extremum is lost, the loop stays lost. *)
Lemma extremum_raised (better : Num.num → Num.num → bool) e vs :
  foldl (λ acc v, m <- acc;; x <- num_of v;;
                  Ok (if better x m then x else m)) (Raise e) vs
  = Raise e.
Proof. induction vs as [|v vs IH]; [done|]. exact IH. Qed.


Lemma extremum_not_number (better : Num.num → Num.num → bool) first vs v :
  v ∈ vs → Num.as_num v = None →
  foldl (λ acc v, m <- acc;; x <- num_of v;;
                  Ok (if better x m then x else m)) (Ok first) vs
  = Raise TypeError.
Proof.
  intros Hin Hv. revert first.
  induction vs as [|w vs IH]; intros first; [by apply elem_of_nil in Hin|].
  cbn [foldl Py.bind]. destruct (num_of w) as [x|e'] eqn:Ew; cbn [Py.bind].
  - apply IH. apply elem_of_cons in Hin as [->|Hin]; [|done].
    unfold num_of in Ew. by rewrite Hv in Ew.
  - rewrite extremum_raised. by apply num_of_raises in Ew as ->.
Qed.





Lemma detect_conflicts_mixed field_name listings threshold first rest o :
  observations field_name listings = first :: rest →
  is_Some (Num.as_num (value first)) →
  o ∈ rest → Num.as_num (value o) = None →
  detect_conflicts py_str field_name listings threshold = Raise TypeError.
Proof.
  intros Hobs [n Hn] Hin Ho. unfold detect_conflicts. rewrite Hobs.
  destruct rest as [|o2 rest]; [by apply elem_of_nil in Hin|].
  rewrite Hn. unfold py_max.
  rewrite (extremum_not_number _ _ _ (value o)); [done| |done].
  by apply list_elem_of_fmap_2.
Qed.


End ConflictKinds.

(** X16. [detect_conflicts] raises [TypeError] on observations of mixed
    kinds: when the first value of the field that is not [None] is a number
    and a later one is not (a text, a list), [max] has no order between
    them. *)
Theorem X16_mixed_observations_raise :
  ∀ (py_str : pyval → string) (field_name : string) (listings : list listing)
    (threshold : float) (first o : DataConsolidator.observation)
    (rest : list DataConsolidator.observation),
    DataConsolidator.observations field_name listings = first :: rest →
    is_Some (Num.as_num (DataConsolidator.value first)) →
    o ∈ rest →
    Num.as_num (DataConsolidator.value o) = None →
    DataConsolidator.detect_conflicts py_str field_name listings threshold
    = Raise TypeError.
Proof.
  intros py_str field_name listings threshold first o rest.
  apply detect_conflicts_mixed.
Qed.

Lemma X16_mixed_observations_raise_witness :
  DataConsolidator.detect_conflicts Samples.str_plain "price"
    [Samples.priced "crexi" (VInt 500000);
     Samples.priced "zillow" (VStr "$500,000")] 0.05%float
  = Raise TypeError.
Proof.
  apply (X16_mixed_observations_raise Samples.str_plain "price"
           [Samples.priced "crexi" (VInt 500000);
            Samples.priced "zillow" (VStr "$500,000")] 0.05%float
           (Samples.observed "crexi" (VInt 500000))
           (Samples.observed "zillow" (VStr "$500,000"))
           [Samples.observed "zillow" (VStr "$500,000")]).
  - vm_compute. reflexivity.
  - eexists. reflexivity.
  - apply list_elem_of_here.
  - reflexivity.
Defined.



(** ** Consolidation of a group *)

Section Consolidation.
Import DataConsolidator CentralProcessingNode.
Variable py_str : pyval → string.
Variable now : datetime.

(** The value [get_field_precedence] picks is the value one listing of the
    group has under the field. *)
Lemma get_field_precedence_from_group field_name listings v :
  get_field_precedence field_name listings = v → v ≠ VNone →
  ∃ l, l ∈ listings ∧ raw_of l !! field_name = Some v.
Proof.
  unfold get_field_precedence. intros Hv Hne.
  destruct (List.filter (has_field field_name) listings) as [|c cs] eqn:Ec;
    [congruence|].
  destruct (sorted_desc_head timestamp_of (c :: cs)) as (b & w & a & Hl & _ & _ & Hh);
    [done|].
  destruct (sorted_desc timestamp_of (c :: cs)) as [|w' s']; [done|].
  injection Hh as ->.
  assert (w ∈ List.filter (has_field field_name) listings) as Hw.
  { rewrite Ec, Hl. apply elem_of_app. right. apply list_elem_of_here. }
  apply list_elem_of_In, filter_In in Hw as [Hw Hf]. exists w. split.
  - by apply list_elem_of_In.
  - unfold has_field in Hf. apply bool_decide_eq_true in Hf as [x Hx].
    unfold get in Hv. rewrite Hx in Hv |- *. cbn in Hv. by subst.
Qed.


Lemma consolidate_fields_fold g :
  consolidate_fields py_str g
  = foldl (Notions.consolidate_step py_str g) (Ok (∅, [])) common_fields.
Proof. reflexivity. Qed.

Lemma consolidate_step_raised g e fs :
  foldl (Notions.consolidate_step py_str g) (Raise e) fs = Raise e.
Proof. induction fs as [|f fs IH]; [done|]. exact IH. Qed.

Lemma consolidate_data_lookup (data : gmap string pyval) (value : pyval) f k :
  match value with
  | VNone => data
  | _ => <[f := value]> data
  end !! k
  = if decide (k = f) then
      match value with VNone => data !! k | _ => Some value end
    else data !! k.
Proof.
  destruct value; case_decide; subst;
    rewrite ?lookup_insert_eq, ?lookup_insert_ne by done; done.
Qed.

(** What the loop over the fields [fs] does to the data and the conflicts
    it starts from. *)
Lemma consolidate_fold g fs acc st :
  foldl (Notions.consolidate_step py_str g) (Ok acc) fs = Ok st →
  (∀ k, st.1 !! k
        = if decide (k ∈ fs) then
            match get_field_precedence k g with
            | VNone => acc.1 !! k
            | v => Some v
            end
          else acc.1 !! k)
  ∧ ∃ rs,
      Forall2 (λ f r, detect_conflicts py_str f g 0.05 = Ok r) fs rs
      ∧ st.2 = acc.2 ++ omap id rs.
Proof.
  revert acc. induction fs as [|f fs IH]; intros acc.
  - intros [= <-]. split; [done|]. exists []. split; [constructor|].
    by rewrite app_nil_r.
  - cbn [foldl]. unfold Notions.consolidate_step at 2. cbn [Py.bind].
    destruct (detect_conflicts py_str f g 0.05) as [c|e] eqn:Ec; cbn [Py.bind];
      [|by rewrite consolidate_step_raised].
    intros H. apply IH in H as (Hd & rs & Hrs & Hc).
    cbn [fst snd] in Hd, Hc. split.
    + intros k. rewrite Hd, consolidate_data_lookup. clear.
      destruct (decide (k ∈ fs)) as [Hin|Hnin].
      * rewrite (decide_True (P := k ∈ f :: fs))
          by (by apply list_elem_of_further).
        destruct (decide (k = f)) as [->|Hkf]; [|done].
        by destruct (get_field_precedence f g).
      * destruct (decide (k = f)) as [->|Hkf].
        -- rewrite (decide_True (P := f ∈ f :: fs)) by apply list_elem_of_here.
           by destruct (get_field_precedence f g).
        -- rewrite (decide_False (P := k ∈ f :: fs)); [done|].
           by intros [?|?]%elem_of_cons.
    + exists (c :: rs). split; [by constructor|]. rewrite Hc.
      destruct c as [c|]; cbn; [|done]. by rewrite <- app_assoc.
Qed.


(** The data and the conflicts of a group. *)
Lemma consolidate_fields_spec g st :
  consolidate_fields py_str g = Ok st →
  (∀ k v, st.1 !! k = Some v
          ↔ k ∈ common_fields ∧ v = get_field_precedence k g ∧ v ≠ VNone)
  ∧ ∃ rs,
      Forall2 (λ f r, detect_conflicts py_str f g 0.05 = Ok r) common_fields rs
      ∧ st.2 = omap id rs.
Proof.
  rewrite consolidate_fields_fold.
  intros (Hd & rs & Hrs & Hc)%consolidate_fold. split; [|by exists rs].
  intros k v. rewrite Hd. cbn [fst]. rewrite lookup_empty.
  destruct (decide (k ∈ common_fields)) as [Hin|Hnin].
  - destruct (get_field_precedence k g) eqn:E;
      (split; [intros [= <-]; done | intros (_ & -> & ?); done]).
  - split; [done|]. by intros (? & _).
Qed.

Lemma with_address_parts data :
  with_address py_str data
  = match data !! "address_full", data !! "address" with
    | Some full, None => <["address" := full]> data
    | _, _ =>
        match data !! "address", data !! "address_street" with
        | None, Some _ =>
            match Notions.address_parts py_str data with
            | [] => data
            | parts => <["address" := VStr (Str.join ", " parts)]> data
            end
        | _, _ => data
        end
    end.
Proof.
  unfold with_address, Notions.address_parts.
  destruct (data !! "address_full"), (data !! "address"),
    (data !! "address_street"); try reflexivity; cbv zeta;
    by destruct (omap _ _).
Qed.

(** The address entry is added, never replaced, and nothing else changes. *)
Lemma with_address_lookup data k :
  with_address py_str data !! k
  = if decide (k = "address") then
      match data !! "address", data !! "address_full", data !! "address_street" with
      | Some v, _, _ => Some v
      | None, Some full, _ => Some full
      | None, None, Some _ =>
          match Notions.address_parts py_str data with
          | [] => None
          | parts => Some (VStr (Str.join ", " parts))
          end
      | None, None, None => None
      end
    else data !! k.
Proof.
  rewrite with_address_parts.
  destruct (data !! "address") as [a|] eqn:Ea,
           (data !! "address_full") as [full|] eqn:Ef,
           (data !! "address_street") as [street|] eqn:Es;
    try destruct (Notions.address_parts py_str data) as [|part parts];
    case_decide as Hk; subst;
    rewrite ?lookup_insert_eq, ?lookup_insert_ne by done; done.
Qed.

Lemma address_parts_from data part :
  part ∈ Notions.address_parts py_str data →
  ∃ f w, f ∈ ["address_street"; "address_city"; "address_state"; "address_zip"]
         ∧ data !! f = Some w ∧ truthy w = true ∧ part = py_str w.
Proof.
  unfold Notions.address_parts. rewrite list_elem_of_omap.
  intros (f & Hf & Hp). exists f.
  destruct (data !! f) as [w|]; [|done]. exists w.
  destruct (truthy w); [|done]. by injection Hp as <-.
Qed.

Lemma detect_conflicts_some field_name listings threshold c :
  detect_conflicts py_str field_name listings threshold = Ok (Some c) →
  field c = field_name
  ∧ values c = observations field_name listings
  ∧ (2 ≤ length (values c))%nat.
Proof.
  unfold detect_conflicts.
  destruct (observations field_name listings) as [|o1 [|o2 obs]];
    [discriminate..|].
  destruct (Num.as_num (value o1)) as [n|].
  - destruct (py_max n _) as [mx|]; [|discriminate].
    destruct (py_min n _) as [mn|]; [|discriminate]. cbn [Py.bind].
    case_match; [|discriminate].
    destruct (Num.num_sub mx mn) as [d|]; [|discriminate]. cbn [Py.bind].
    destruct (Num.num_truediv d mx) as [v|]; [|discriminate]. cbn [Py.bind].
    case_match; [|discriminate]. intros [= <-]. cbn. split; [done|].
    split; [done|lia].
  - case_match; [|discriminate]. intros [= <-]. cbn. split; [done|].
    split; [done|lia].
Qed.


Lemma observations_length field_name listings :
  (length (observations field_name listings) ≤ length listings)%nat.
Proof.
  unfold observations. induction listings as [|l listings IH]; [done|].
  cbn. destruct (match get (raw_of l) field_name with VNone => None | _ => _ end);
    cbn; lia.
Qed.

Lemma consolidate_group_parts i g p :
  _consolidate_group py_str now i g = Ok p →
  ∃ st,
    consolidate_fields py_str g = Ok st
    ∧ Models.consolidated_data p = with_address py_str st.1
    ∧ Models.conflicts p = st.2.
Proof.
  unfold _consolidate_group.
  destruct (consolidate_fields _ _) as [st|e]; [|discriminate]. cbn [Py.bind].
  destruct (PropertyClassifier.classify_property _ _) as [v|e]; [|discriminate].
  cbn [Py.bind].
  destruct (mapM_result summary_of g) as [sl|e]; [|discriminate].
  cbn [Py.bind]. intros [= <-]. by exists st.
Qed.
End Consolidation.

(** X18. Consolidation invents no value: every entry of
    [consolidated_data] is under one of the sixteen common fields, is not
    [None], and is the value some listing of the group has under that field.
    The one exception is an [address] no listing supplies: it is then the
    [address_full] of a listing, or the printed street, city, state and ZIP
    the group has, joined by commas. *)
Theorem X18_consolidated_values_come_from_group :
  ∀ (py_str : pyval → string) (now : datetime) (group_id : nat)
    (group_listings : list listing) (p : Models.ConsolidatedProperty),
    CentralProcessingNode._consolidate_group py_str now group_id group_listings
    = Ok p →
    ∀ k v, Models.consolidated_data p !! k = Some v →
      k ∈ CentralProcessingNode.common_fields
      ∧ v ≠ VNone
      ∧ ((∃ l, l ∈ group_listings ∧ raw_of l !! k = Some v)
         ∨ (k = "address"
            ∧ ((∃ l, l ∈ group_listings ∧ raw_of l !! "address_full" = Some v)
               ∨ ∃ parts,
                   parts ≠ [] ∧ v = VStr (Str.join ", " parts)
                   ∧ Forall (λ part,
                       ∃ f l w,
                         f ∈ ["address_street"; "address_city";
                              "address_state"; "address_zip"]
                         ∧ l ∈ group_listings ∧ raw_of l !! f = Some w
                         ∧ truthy w = true ∧ part = py_str w) parts))).
Proof.
  intros py_str now i g p (st & Hst & -> & _)%consolidate_group_parts k v.
  apply consolidate_fields_spec in Hst as [Hd _].
  rewrite with_address_lookup.
  assert (∀ k v, st.1 !! k = Some v →
                 k ∈ CentralProcessingNode.common_fields ∧ v ≠ VNone
                 ∧ ∃ l, l ∈ g ∧ raw_of l !! k = Some v) as Hfrom.
  { intros k' v' (Hin & Hv & Hne)%Hd. split; [done|]. split; [done|].
    by apply get_field_precedence_from_group. }
  case_decide as Hk; [subst k|].
  - destruct (st.1 !! "address") as [a|] eqn:Ea.
    { intros [= <-]. destruct (Hfrom _ _ Ea) as (? & ? & ?). auto. }
    destruct (st.1 !! "address_full") as [full|] eqn:Ef.
    { intros [= <-]. destruct (Hfrom _ _ Ef) as (_ & ? & ?).
      split; [apply list_elem_of_here|]. split; [done|]. right. auto. }
    destruct (st.1 !! "address_street") as [street|]; [|done].
    destruct (Notions.address_parts py_str st.1) as [|part parts] eqn:Ep; [done|].
    intros [= <-]. split; [apply list_elem_of_here|]. split; [done|]. right. split; [done|].
    right. exists (part :: parts). split; [done|]. split; [done|].
    apply Forall_forall. intros q Hq. rewrite <- Ep in Hq.
    apply address_parts_from in Hq as (f & w & Hf & Hw & Ht & ->).
    destruct (Hfrom _ _ Hw) as (_ & _ & l & Hl & Hlw). by exists f, l, w.
  - intros Hv. destruct (Hfrom _ _ Hv) as (? & ? & ?). auto.
Qed.

Lemma X18_consolidated_values_come_from_group_witness :
  ∃ p,
    CentralProcessingNode._consolidate_group Samples.str_plain 9%N 0
      [Samples.listing_a; Samples.listing_b] = Ok p
    ∧ ∀ k v, Models.consolidated_data p !! k = Some v →
        k ∈ CentralProcessingNode.common_fields
        ∧ v ≠ VNone
        ∧ ((∃ l, l ∈ [Samples.listing_a; Samples.listing_b]
                 ∧ raw_of l !! k = Some v)
           ∨ (k = "address"
              ∧ ((∃ l, l ∈ [Samples.listing_a; Samples.listing_b]
                       ∧ raw_of l !! "address_full" = Some v)
                 ∨ ∃ parts,
                     parts ≠ [] ∧ v = VStr (Str.join ", " parts)
                     ∧ Forall (λ part,
                         ∃ f l w,
                           f ∈ ["address_street"; "address_city";
                                "address_state"; "address_zip"]
                           ∧ l ∈ [Samples.listing_a; Samples.listing_b]
                           ∧ raw_of l !! f = Some w
                           ∧ truthy w = true
                           ∧ part = Samples.str_plain w) parts))).
Proof.
  eexists. split; [vm_compute; reflexivity|].
  apply (X18_consolidated_values_come_from_group Samples.str_plain 9%N 0
           [Samples.listing_a; Samples.listing_b]).
  vm_compute. reflexivity.
Defined.

Section GroupConflicts.
Import DataConsolidator CentralProcessingNode.
Variable py_str : pyval → string.
Variable now : datetime.

Lemma reported_conflicts g fs rs :
  Forall2 (λ f r, detect_conflicts py_str f g 0.05 = Ok r) fs rs →
  map field (omap id rs) `sublist_of` fs
  ∧ Forall (λ c, detect_conflicts py_str (field c) g 0.05 = Ok (Some c))
           (omap id rs)
  ∧ ∀ f, f ∈ fs → f ∉ map field (omap id rs) →
         detect_conflicts py_str f g 0.05 = Ok None.
Proof.
  induction 1 as [|f r fs rs Hr _ (IHs & IHc & IHn)].
  - split; [done|]. split; [constructor|]. by intros f Hf%elem_of_nil.
  - destruct r as [c|].
    + destruct (detect_conflicts_some _ _ _ _ _ Hr) as (Hf & _).
      change (omap id (Some c :: rs)) with (c :: omap id rs).
      cbn [map]. rewrite Hf. split; [by apply sublist_skip|]. split.
      * constructor; [cbn; by rewrite Hf|done].
      * intros f' [->|Hin]%elem_of_cons Hnin.
        -- exfalso. apply Hnin, list_elem_of_here.
        -- apply IHn; [done|]. intros ?. by apply Hnin, list_elem_of_further.
    + change (omap id (None :: rs)) with (omap id rs).
      split; [by apply sublist_cons|]. split; [done|].
      intros f' [->|Hin]%elem_of_cons Hnin; [done|by apply IHn].
Qed.



End GroupConflicts.

(** X19. The conflicts of a consolidated property follow the order of the
    common fields, at most one per field; each is what [detect_conflicts]
    reports for its field on the group, and the fields without an entry
    have no conflict. *)
Theorem X19_conflicts_follow_fields :
  ∀ (py_str : pyval → string) (now : datetime) (group_id : nat)
    (group_listings : list listing) (p : Models.ConsolidatedProperty),
    CentralProcessingNode._consolidate_group py_str now group_id group_listings
    = Ok p →
    map DataConsolidator.field (Models.conflicts p)
    `sublist_of` CentralProcessingNode.common_fields
    ∧ Forall (λ c,
        DataConsolidator.detect_conflicts py_str (DataConsolidator.field c)
          group_listings 0.05 = Ok (Some c)
        ∧ DataConsolidator.values c
          = DataConsolidator.observations (DataConsolidator.field c) group_listings
        ∧ (2 ≤ length (DataConsolidator.values c))%nat)
        (Models.conflicts p)
    ∧ ∀ f, f ∈ CentralProcessingNode.common_fields →
           f ∉ map DataConsolidator.field (Models.conflicts p) →
           DataConsolidator.detect_conflicts py_str f group_listings 0.05
           = Ok None.
Proof.
  intros py_str now i g p (st & Hst & _ & ->)%consolidate_group_parts.
  apply consolidate_fields_spec in Hst as (_ & rs & Hrs & ->).
  apply reported_conflicts in Hrs as (Hs & Hc & Hn).
  split; [done|]. split; [|done].
  eapply Forall_impl; [exact Hc|]. intros c Hd. cbn in Hd. split; [done|].
  by apply detect_conflicts_some in Hd as (_ & ? & ?).
Qed.

Lemma X19_conflicts_follow_fields_witness :
  ∃ p,
    CentralProcessingNode._consolidate_group Samples.str_plain 9%N 0
      [Samples.listing_a; Samples.listing_b] = Ok p
    ∧ map DataConsolidator.field (Models.conflicts p)
      `sublist_of` CentralProcessingNode.common_fields
    ∧ Forall (λ c,
        DataConsolidator.detect_conflicts Samples.str_plain
          (DataConsolidator.field c) [Samples.listing_a; Samples.listing_b] 0.05
        = Ok (Some c)
        ∧ DataConsolidator.values c
          = DataConsolidator.observations (DataConsolidator.field c)
              [Samples.listing_a; Samples.listing_b]
        ∧ (2 ≤ length (DataConsolidator.values c))%nat)
        (Models.conflicts p)
    ∧ ∀ f, f ∈ CentralProcessingNode.common_fields →
           f ∉ map DataConsolidator.field (Models.conflicts p) →
           DataConsolidator.detect_conflicts Samples.str_plain f
             [Samples.listing_a; Samples.listing_b] 0.05
           = Ok None.
Proof.
  eexists. split; [vm_compute; reflexivity|].
  apply (X19_conflicts_follow_fields Samples.str_plain 9%N 0
           [Samples.listing_a; Samples.listing_b]).
  vm_compute. reflexivity.
Defined.



(** ** What the pipeline can raise *)

Section PipelineErrors.
Import CentralProcessingNode Notions.
Variable py_str : pyval → string.
Variable now : datetime.

Lemma split_by_leader_raises leader rest e :
  split_by_leader leader rest = Raise e →
  ∃ x, x ∈ rest ∧ matches leader x = Raise e.
Proof.
  induction rest as [|x rest IH]; [discriminate|]. cbn.
  destruct (matches leader x) as [m|e'] eqn:Em; cbn [Py.bind].
  - destruct (split_by_leader leader rest) as [r|e']; [discriminate|].
    cbn [Py.bind]. intros [= <-]. destruct IH as (y & Hy & Hm); [done|].
    exists y. split; [by apply list_elem_of_further|done].
  - intros [= <-]. exists x. split; [apply list_elem_of_here|done].
Qed.

Lemma spec_grouping_raises fuel l e :
  spec_leader_grouping_fuel fuel l = Raise e →
  ∃ l1 l2, l1 ∈ l ∧ l2 ∈ l ∧ matches l1 l2 = Raise e.
Proof.
  revert l. induction fuel as [|fuel IH]; intros [|leader rest];
    cbn [spec_leader_grouping_fuel]; try discriminate.
  destruct (split_by_leader leader rest) as [[ms us]|e'] eqn:Es;
    cbn [Py.bind snd fst].
  - destruct (spec_leader_grouping_fuel fuel us) as [gs|e'] eqn:Eg;
      [discriminate|].
    cbn [Py.bind]. intros [= <-].
    apply IH in Eg as (l1 & l2 & H1 & H2 & Hm).
    apply split_by_leader_spec in Es as (_ & _ & _ & _ & Hsub).
    exists l1, l2. split; [|split; [|done]];
      apply list_elem_of_further; by apply (sublist_subseteq _ _ Hsub).
  - intros [= <-]. apply split_by_leader_raises in Es as (x & Hx & Hm).
    exists leader, x. split; [apply list_elem_of_here|].
    split; [by apply list_elem_of_further|done].
Qed.


End PipelineErrors.



(** ** Listings the matcher can compare *)

Section Comparable.
Import PropertyMatcher Notions.

Lemma normalize_address_returns v :
  text_or_falsy v = true → ∃ x, AddressNormalizer.normalize_address v = Ok x.
Proof.
  unfold text_or_falsy, AddressNormalizer.normalize_address.
  destruct (truthy v); cbn; [|eauto]. destruct v; try discriminate. eauto.
Qed.

Lemma py_or_empty_text v :
  text_or_falsy v = true → text_or_falsy (py_or v (VStr "")) = true.
Proof.
  unfold text_or_falsy, py_or. destruct (truthy v) eqn:E; [by rewrite E|done].
Qed.

Lemma location_of_returns a :
  comparable a = true →
  ∃ c s z, location_of a = Ok (c, s, z)
           ∧ text_or_falsy c = true ∧ text_or_falsy s = true.
Proof.
  unfold comparable. rewrite !andb_true_iff.
  intros [[[[[[_ Hc] Hs] Hx] _] _] _]. unfold location_of.
  rewrite !truthy_py_or_empty.
  destruct (truthy (get a "address_city")) eqn:Ec,
           (truthy (get a "address_state")) eqn:Es; cbn [negb orb andb] in *.
  1: { eexists _, _, _. split; [reflexivity|]. split; by apply py_or_empty_text. }
  all: destruct (address_of a) as [| | | |addr|]; try discriminate;
    cbn [AddressNormalizer.extract_address_components];
    match goal with
    | |- context [Py.bind (let '(_, _) := ?p in _)] => destruct p
    end; cbn [Py.bind];
    eexists _, _, _; (split; [reflexivity|]);
    unfold py_or; rewrite ?truthy_py_or_empty, ?Ec, ?Es; cbn [truthy negb];
    rewrite ?Ec, ?Es; split;
    first [ done | by apply py_or_empty_text
          | unfold text_or_falsy; by rewrite orb_true_r ].
Qed.

Lemma same_upper_returns x y :
  text_or_falsy x = true → text_or_falsy y = true →
  ∃ b, same_upper x y = Ok b.
Proof.
  unfold text_or_falsy, same_upper.
  destruct (truthy x), (truthy y); cbn; eauto.
  destruct x, y; try discriminate. cbn. eauto.
Qed.

Lemma location_match_returns c1 s1 z1 c2 s2 z2 :
  text_or_falsy c1 = true → text_or_falsy s1 = true →
  text_or_falsy c2 = true → text_or_falsy s2 = true →
  ∃ m, location_match (c1, s1, z1) (c2, s2, z2) = Ok m.
Proof.
  intros Hc1 Hs1 Hc2 Hs2. unfold location_match.
  destruct (same_upper_returns c1 c2 Hc1 Hc2) as [c ->].
  destruct (same_upper_returns s1 s2 Hs1 Hs2) as [s ->].
  cbn [Py.bind]. eauto.
Qed.

Lemma type_of_returns a :
  comparable a = true → ∃ t, type_of a = Ok t.
Proof.
  unfold comparable. rewrite !andb_true_iff.
  intros [[[_ Ht] _] _]. unfold type_of, text_or_falsy in *.
  destruct (truthy _); [|eauto]. destruct (py_or _ _); try discriminate.
  cbn. eauto.
Qed.

(** [float] takes the value, or rejects its text with [ValueError]. *)
Lemma py_float_converts v :
  converts v = true → truthy v = true →
  (∃ f, Conv.py_float v = Ok f) ∨ Conv.py_float v = Raise ValueError.
Proof.
  unfold converts. intros Hv Ht. rewrite Ht in Hv.
  destruct v as [|b|z|f|s|l]; try discriminate; cbn [Conv.py_float]; eauto.
  - unfold Num.float_of_int.
    destruct (PrimFloat.is_infinity (Num.float_of_Z z)); [discriminate|eauto].
  - destruct (Conv.float_of_str s) as [f|e] eqn:E; [eauto|].
    apply float_of_str_raises in E as ->. auto.
Qed.

Lemma variance_converts x y :
  converts x = true → converts y = true →
  truthy x = true → truthy y = true →
  (∃ v, variance x y = Ok v)
  ∨ variance x y = Raise ValueError ∨ variance x y = Raise ZeroDivisionError.
Proof.
  intros Hx Hy Tx Ty. unfold variance.
  destruct (py_float_converts x Hx Tx) as [[fx ->] | ->]; cbn [Py.bind]; [|auto].
  destruct (py_float_converts y Hy Ty) as [[fy ->] | ->]; cbn [Py.bind]; [|auto].
  unfold Num.float_truediv. case_match; eauto.
Qed.

Lemma add_size_returns score x y :
  converts x = true → converts y = true → ∃ s, add_size score x y = Ok s.
Proof.
  intros Hx Hy. unfold add_size.
  destruct (truthy x) eqn:Tx, (truthy y) eqn:Ty; cbn [andb]; eauto.
  destruct (variance_converts x y Hx Hy Tx Ty) as [[v ->] | [-> | ->]];
    cbn; eauto.
Qed.

Lemma add_price_returns score x y :
  converts x = true → converts y = true → ∃ s, add_price score x y = Ok s.
Proof.
  intros Hx Hy. unfold add_price.
  destruct (truthy x) eqn:Tx, (truthy y) eqn:Ty; cbn [andb]; eauto.
  destruct (variance_converts x y Hx Hy Tx Ty) as [[v ->] | [-> | ->]];
    cbn; eauto.
Qed.

Lemma score_returns a b :
  comparable a = true → comparable b = true →
  ∃ s, calculate_match_score a b = Ok s.
Proof.
  intros Ha Hb. unfold calculate_match_score.
  destruct (location_of_returns a Ha) as (c1 & s1 & z1 & -> & Hc1 & Hs1).
  destruct (location_of_returns b Hb) as (c2 & s2 & z2 & -> & Hc2 & Hs2).
  destruct (type_of_returns a Ha) as [t1 ->].
  destruct (type_of_returns b Hb) as [t2 ->].
  unfold comparable in Ha, Hb. rewrite !andb_true_iff in Ha, Hb.
  destruct Ha as [[[[[[Ha _] _] _] _] Hsa] Hpa].
  destruct Hb as [[[[[[Hb _] _] _] _] Hsb] Hpb].
  destruct (normalize_address_returns _ Ha) as [x1 ->].
  destruct (normalize_address_returns _ Hb) as [x2 ->].
  cbn [Py.bind].
  destruct (location_match_returns c1 s1 z1 c2 s2 z2) as [m ->]; [done..|].
  cbn [Py.bind].
  destruct (add_size_returns
              (add_type (add_address 0 x1 x2 + m) t1 t2)
              (size_of a) (size_of b) Hsa Hsb) as [u ->].
  cbn [Py.bind]. by apply add_price_returns.
Qed.

Lemma matches_records_returns r1 r2 :
  comparable (Models.raw_fields r1) = true →
  comparable (Models.raw_fields r2) = true →
  ∃ m, CentralProcessingNode.matches (CentralProcessingNode.to_listing r1)
         (CentralProcessingNode.to_listing r2) = Ok m.
Proof.
  intros H1 H2. unfold CentralProcessingNode.matches.
  cbn [CentralProcessingNode.to_listing raw_fields CentralProcessingNode.item
       Py.bind].
  unfold is_match, is_match_at.
  destruct (score_returns _ _ H1 H2) as [s ->]. cbn. eauto.
Qed.

Lemma group_records_returns raw :
  Forall (λ r, comparable (Models.raw_fields r) = true) raw →
  ∃ groups,
    CentralProcessingNode._group_listings
      (map CentralProcessingNode.to_listing raw) = Ok groups.
Proof.
  intros Hall. rewrite Forall_forall in Hall.
  destruct (CentralProcessingNode._group_listings _) as [gs|e] eqn:E; [eauto|].
  rewrite group_listings_refines in E.
  apply spec_grouping_raises in E as (l1 & l2 & H1 & H2 & Hm).
  apply list_elem_of_fmap in H1 as (r1 & -> & Hr1).
  apply list_elem_of_fmap in H2 as (r2 & -> & Hr2).
  destruct (matches_records_returns r1 r2) as [m Hm']; [by apply Hall..|].
  congruence.
Qed.
End Comparable.

(** X22. On two listings whose fields have the kinds the matcher reads
    (text fields that are a [str] or falsy, an address that is a [str] when
    the city or the state is missing, a size and a price that are falsy or
    something [float] takes) [calculate_match_score] returns a score, and
    [is_match] returns it with the comparison against 0.70. *)
Theorem X22_matcher_returns_on_typed_listings :
  ∀ a b : gmap string pyval,
    Notions.comparable a = true → Notions.comparable b = true →
    ∃ s, PropertyMatcher.calculate_match_score a b = Ok s
         ∧ PropertyMatcher.is_match a b = Ok (PrimFloat.leb 0.70 s, s).
Proof.
  intros a b Ha Hb. destruct (score_returns a b Ha Hb) as [s Hs].
  exists s. split; [done|].
  unfold PropertyMatcher.is_match, PropertyMatcher.is_match_at.
  by rewrite Hs.
Qed.

Lemma X22_matcher_returns_on_typed_listings_witness :
  ∃ s, PropertyMatcher.calculate_match_score Samples.fields_full Samples.fields_d
       = Ok s
       ∧ PropertyMatcher.is_match Samples.fields_full Samples.fields_d
         = Ok (PrimFloat.leb 0.70 s, s).
Proof.
  apply (X22_matcher_returns_on_typed_listings Samples.fields_full
           Samples.fields_d); vm_compute; reflexivity.
Defined.

(** X23. When the fields of every raw record have the kinds the matcher
    reads, the grouping step of [process_listings] returns: no comparison
    fails. *)
Theorem X23_grouping_returns_on_typed_records :
  ∀ raw_listings : list Models.RawListingRecord,
    Forall (λ r, Notions.comparable (Models.raw_fields r) = true) raw_listings →
    ∃ groups,
      CentralProcessingNode._group_listings
        (map CentralProcessingNode.to_listing raw_listings) = Ok groups.
Proof. exact group_records_returns. Qed.

Lemma X23_grouping_returns_on_typed_records_witness :
  ∃ groups,
    CentralProcessingNode._group_listings
      (map CentralProcessingNode.to_listing
         [Samples.record_a; Samples.record_b; Samples.record_c; Samples.record_d])
    = Ok groups.
Proof.
  apply (X23_grouping_returns_on_typed_records
           [Samples.record_a; Samples.record_b; Samples.record_c; Samples.record_d]).
  repeat constructor.
Defined.

(** * The helpers of utils.py *)

Section Batches.
Import Utils.
Context {A : Type}.

Lemma range_from_stop fuel i n step :
  (n ≤ i)%nat → range_from fuel i n step = [].
Proof.
  intros Hi. destruct fuel as [|fuel]; [done|]. cbn [range_from].
  by rewrite (proj2 (Nat.ltb_ge i n)).
Qed.

(** The indices of the batches: the multiples of the step below [n]. *)
Lemma range_from_multiples fuel i n step :
  (n - i ≤ fuel)%nat → (0 < step)%nat →
  range_from fuel i n step
  = map (λ k, (i + k * step)%nat) (seq 0 ((n - i + step - 1) / step)).
Proof.
  intros Hfuel Hstep. revert i Hfuel.
  induction fuel as [|fuel IH]; intros i Hfuel.
  - replace (n - i + step - 1)%nat with (step - 1)%nat by lia.
    by rewrite Nat.div_small by lia.
  - destruct (decide (i < n)%nat) as [Hlt|Hge].
    + cbn [range_from]. rewrite (proj2 (Nat.ltb_lt i n) Hlt).
      rewrite IH by lia.
      replace ((n - i + step - 1) / step)%nat
        with (S ((n - (i + step) + step - 1) / step)).
      * cbn [seq map]. rewrite <- seq_shift, map_map. f_equal; [lia|].
        apply map_ext. intros k. lia.
      * destruct (decide (i + step < n)%nat) as [Hin|Hout].
        -- replace (n - i + step - 1)%nat
             with ((n - (i + step) + step - 1) + 1 * step)%nat by lia.
           rewrite Nat.div_add by lia. lia.
        -- replace (n - (i + step) + step - 1)%nat with (step - 1)%nat by lia.
           rewrite (Nat.div_small (step - 1)) by lia.
           replace (n - i + step - 1)%nat
             with ((n - i - 1) + 1 * step)%nat by lia.
           rewrite Nat.div_add, (Nat.div_small (n - i - 1)) by lia. lia.
    + rewrite range_from_stop by lia.
      replace (n - i + step - 1)%nat with (step - 1)%nat by lia.
      by rewrite Nat.div_small by lia.
Qed.

Lemma batches_concat (items : list A) fuel i step :
  (length items - i ≤ fuel)%nat → (0 < step)%nat →
  concat (map (λ i, slice items i (i + step))
              (range_from fuel i (length items) step))
  = drop i items.
Proof.
  intros Hfuel Hstep. revert i Hfuel.
  induction fuel as [|fuel IH]; intros i Hfuel.
  - cbn. rewrite drop_ge by lia. done.
  - destruct (decide (i < length items)%nat) as [Hlt|Hge].
    + cbn [range_from]. rewrite (proj2 (Nat.ltb_lt i _) Hlt).
      cbn [map concat]. rewrite IH by lia. unfold slice.
      replace (i + step - i)%nat with step by lia.
      rewrite <- (take_drop step (drop i items)) at 2.
      by rewrite drop_drop.
    + rewrite range_from_stop by lia. cbn. rewrite drop_ge by lia. done.
Qed.
End Batches.

(** X24. For a positive batch size [batch_list] cuts the list into
    consecutive batches: their concatenation is the list, batch [k] holds the
    items from position [k * batch_size] on, at most [batch_size] of them and
    at least one, and the number of batches is the length divided by the
    batch size, rounded up. *)
Theorem X24_batch_list_partitions :
  ∀ (A : Type) (items : list A) (batch_size : Z),
    0 < batch_size →
    ∃ batches,
      Utils.batch_list items batch_size = Ok batches
      ∧ concat batches = items
      ∧ length batches
        = ((length items + Z.to_nat batch_size - 1) / Z.to_nat batch_size)%nat
      ∧ ∀ k batch, batches !! k = Some batch →
          batch = take (Z.to_nat batch_size)
                       (drop (k * Z.to_nat batch_size) items)
          ∧ (0 < length batch ≤ Z.to_nat batch_size)%nat.
Proof.
  intros A items batch_size Hpos. unfold Utils.batch_list.
  rewrite (proj2 (Z.eqb_neq _ _)), (proj2 (Z.ltb_ge _ _)) by lia.
  set (step := Z.to_nat batch_size). assert (0 < step)%nat by lia.
  eexists. split; [reflexivity|]. split; [|split].
  - rewrite batches_concat by lia. done.
  - rewrite length_map, range_from_multiples by lia.
    rewrite length_map, length_seq. f_equal. lia.
  - intros k batch. rewrite range_from_multiples by lia.
    rewrite map_map, list_lookup_fmap.
    destruct (seq 0 _ !! k) as [k'|] eqn:Ek; [|done].
    apply lookup_seq in Ek as [-> Hk]. cbn. intros [= <-].
    unfold Utils.slice. replace (k * step + step - k * step)%nat with step by lia.
    split; [done|].
    rewrite length_take, length_drop.
    assert (k * step < length items)%nat; [|lia].
    rewrite Nat.sub_0_r in Hk.
    assert (S k * step ≤ (length items + step - 1) / step * step)%nat as Hle
      by (apply Nat.mul_le_mono_r; lia).
    pose proof (Nat.Div0.mul_div_le (length items + step - 1) step) as Hdiv.
    rewrite Nat.mul_comm in Hdiv. cbn [Nat.mul] in Hle. lia.
Qed.

Lemma X24_batch_list_partitions_witness :
  ∃ batches,
    Utils.batch_list [1; 2; 3; 4; 5; 6; 7] 3 = Ok batches
    ∧ batches = [[1; 2; 3]; [4; 5; 6]; [7]]
    ∧ concat batches = [1; 2; 3; 4; 5; 6; 7]
    ∧ length batches = ((7 + 3 - 1) / 3)%nat
    ∧ ∀ k batch, batches !! k = Some batch →
        batch = take 3 (drop (k * 3) [1; 2; 3; 4; 5; 6; 7])
        ∧ (0 < length batch ≤ 3)%nat.
Proof.
  destruct (X24_batch_list_partitions Z [1; 2; 3; 4; 5; 6; 7] 3 ltac:(lia))
    as (batches & Hb & Hrest).
  exists batches. split; [exact Hb|]. split; [|exact Hrest].
  vm_compute in Hb. by injection Hb as <-.
Defined.

Section Truncation.
Import Utils.

Lemma take_length_min n s :
  String.length (Str.take n s) = Nat.min n (String.length s).
Proof.
  revert s. induction n as [|n IH]; intros [|c s]; cbn; try lia.
  by rewrite IH.
Qed.

Lemma take_prefix n s : String.prefix (Str.take n s) s = true.
Proof.
  revert s. induction n as [|n IH]; intros [|c s]; try done.
  cbn [Str.take String.prefix]. by destruct (ascii_dec c c).
Qed.

Lemma slice_to_length text stop :
  Z.of_nat (String.length (slice_to text stop))
  = Z.max 0 (Z.min (if stop <? 0 then Z.of_nat (String.length text) + stop
                    else stop)
                   (Z.of_nat (String.length text))).
Proof.
  unfold slice_to. destruct (stop <? 0) eqn:E; rewrite take_length_min; lia.
Qed.
End Truncation.

(** X25. [truncate_string] returns a text that fits unchanged; otherwise it
    returns a prefix of the text followed by the suffix. When the suffix is
    no longer than [max_length] the result has at most [max_length]
    characters; when the suffix is longer, a truncated result is longer than
    [max_length]. *)
Theorem X25_truncate_string_length :
  ∀ (text suffix : string) (max_length : Z),
    (Z.of_nat (String.length text) ≤ max_length →
     Utils.truncate_string text max_length suffix = text)
    ∧ (max_length < Z.of_nat (String.length text) →
       ∃ kept,
         Utils.truncate_string text max_length suffix = kept +:+ suffix
         ∧ String.prefix kept text = true)
    ∧ (Z.of_nat (String.length suffix) ≤ max_length →
       Z.of_nat (String.length (Utils.truncate_string text max_length suffix))
       ≤ max_length)
    ∧ (max_length < Z.of_nat (String.length text) →
       max_length < Z.of_nat (String.length suffix) →
       max_length
       < Z.of_nat (String.length (Utils.truncate_string text max_length suffix))).
Proof.
  intros text suffix max_length. unfold Utils.truncate_string.
  destruct (Z.of_nat (String.length text) <=? max_length) eqn:E.
  - apply Z.leb_le in E. split; [done|]. split; [lia|]. split; [lia|lia].
  - apply Z.leb_gt in E. split; [lia|]. split; [|split].
    + intros _. eexists. split; [reflexivity|].
      unfold Utils.slice_to. case_match; apply take_prefix.
    + intros Hs. rewrite length_app_str, Nat2Z.inj_add, slice_to_length.
      destruct (_ <? 0) eqn:E'; lia.
    + intros _ Hs. rewrite length_app_str, Nat2Z.inj_add. lia.
Qed.

Lemma X25_truncate_string_length_witness :
  Utils.truncate_string "12 Oak Street, Seattle" 10 "..." = "12 Oak ..."
  ∧ Z.of_nat (String.length (Utils.truncate_string "12 Oak Street, Seattle" 10 "..."))
    ≤ 10
  ∧ Utils.truncate_string "12 Oak Street" 2 "..." = "12 Oak Stree..."
  ∧ 2 < Z.of_nat (String.length (Utils.truncate_string "12 Oak Street" 2 "...")).
Proof.
  split; [reflexivity|]. split.
  - apply (proj1 (proj2 (proj2
             (X25_truncate_string_length "12 Oak Street, Seattle" "..." 10)))).
    vm_compute. discriminate.
  - split; [reflexivity|].
    apply (proj2 (proj2 (proj2
             (X25_truncate_string_length "12 Oak Street" "..." 2))));
      vm_compute; reflexivity.
Defined.

Section Variance.
Import Utils.
Local Open Scope float_scope.

Lemma calculate_variance_returns a b : ∃ v, calculate_variance a b = Ok v.
Proof.
  unfold calculate_variance, Num.float_truediv.
  destruct (_ && _); [eauto|]. destruct (PrimFloat.eqb _ 0); eauto.
Qed.

(** A quotient of two absolute values is a NaN or not below zero. *)
Lemma SFdiv_abs_sign x y :
  let r := SFdiv prec emax (SFabs x) (SFabs y) in
  r = S754_nan ∨ SFleb (S754_zero false) r = true.
Proof.
  destruct x as [sx|sx| |sx mx ex], y as [sy|sy| |sy my ey]; cbn -[SFdiv_core_binary];
    auto.
  destruct (SFdiv_core_binary _ _ _ _ _ _) as [[mz ez] lz].
  unfold binary_round_aux.
  destruct (shr_fexp prec emax mz ez lz) as [mrs e1].
  destruct (shr_fexp prec emax _ e1 loc_Exact) as [mrs' e2].
  destruct (shr_m mrs'); auto. case_match; auto.
Qed.

Lemma is_number_abs a :
  Notions.is_number a = true → Prim2SF (PrimFloat.abs a) ≠ S754_nan.
Proof.
  unfold Notions.is_number. rewrite FloatAxioms.eqb_spec, abs_spec.
  by destruct (Prim2SF a).
Qed.

Lemma calculate_variance_sym a b :
  Notions.is_number a = true → Notions.is_number b = true →
  calculate_variance a b = calculate_variance b a.
Proof.
  intros Ha%is_number_abs Hb%is_number_abs. unfold calculate_variance.
  rewrite (andb_comm (PrimFloat.eqb b 0)), (abs_sub_comm b a).
  destruct (_ && _); [done|]. unfold Num.float_max.
  destruct (PrimFloat.ltb (PrimFloat.abs a) (PrimFloat.abs b)) eqn:E1.
  - by rewrite (ltb_antisym _ _ E1).
  - destruct (PrimFloat.ltb (PrimFloat.abs b) (PrimFloat.abs a)) eqn:E2; [done|].
    destruct (ltb_neither _ _ E1 E2) as [-> | [[-> ->] | [?|?]]]; done.
Qed.
End Variance.

(** X26. [calculate_variance] never raises: the division is guarded. Its
    result is a NaN or not below zero, and for two arguments that are no NaN
    the order of the arguments does not matter. *)
Theorem X26_calculate_variance :
  ∀ a b : float,
    (∃ v, Utils.calculate_variance a b = Ok v
          ∧ (Prim2SF v = S754_nan ∨ PrimFloat.leb 0 v = true))
    ∧ (Notions.is_number a = true → Notions.is_number b = true →
       Utils.calculate_variance a b = Utils.calculate_variance b a).
Proof.
  intros a b. split; [|apply calculate_variance_sym].
  unfold Utils.calculate_variance, Num.float_truediv.
  destruct (_ && _); [eexists; split; [reflexivity|by right]|].
  destruct (PrimFloat.eqb (Num.float_max _ _) 0%float);
    [eexists; split; [reflexivity|by right]|].
  eexists. split; [reflexivity|].
  rewrite leb_spec, div_spec, abs_spec.
  change (Prim2SF 0) with (S754_zero false).
  unfold Num.float_max. case_match; rewrite abs_spec; apply SFdiv_abs_sign.
Qed.

Lemma X26_calculate_variance_witness :
  Utils.calculate_variance 100 110 = Ok 0.09090909090909091%float
  ∧ Utils.calculate_variance 100 110 = Utils.calculate_variance 110 100
  ∧ Utils.calculate_variance nan 0 = Ok nan
  ∧ Utils.calculate_variance 0 nan = Ok 0%float.
Proof.
  split; [vm_compute; reflexivity|]. split.
  - apply (proj2 (X26_calculate_variance 100 110)); reflexivity.
  - split; vm_compute; reflexivity.
Defined.

Section Cleaning.
Import Utils Notions.

(** The matcher of [\s+] does not look behind. *)
Lemma sub_from_spaces_prev p p' k s :
  Str.sub_from Str.m_spaces p k s = Str.sub_from Str.m_spaces p' k s.
Proof. by destruct s as [|c r], k. Qed.

(** After a run of white space the scan goes on behind the run. *)
Lemma sub_from_skip_spaces p r :
  Str.sub_from Str.m_spaces p (String.length (Str.span Str.is_space r)) r
  = Str.re_sub Str.m_spaces (Str.lstrip r).
Proof.
  revert p. induction r as [|c r IH]; intros p; [done|].
  cbn [Str.span Str.lstrip]. destruct (Str.is_space c) eqn:Ec.
  - cbn [String.length Str.sub_from]. apply IH.
  - cbn [String.length]. apply sub_from_spaces_prev.
Qed.

Lemma re_sub_spaces_cons c r :
  Str.re_sub Str.m_spaces (String c r)
  = if Str.is_space c then String " " (Str.re_sub Str.m_spaces (Str.lstrip r))
    else String c (Str.re_sub Str.m_spaces r).
Proof.
  unfold Str.re_sub at 1. cbn [Str.sub_from]. unfold Str.m_spaces at 1.
  cbn [Str.span]. destruct (Str.is_space c) eqn:Ec.
  - cbn [String.length Nat.pred]. by rewrite sub_from_skip_spaces.
  - cbn [String.length]. f_equal. apply sub_from_spaces_prev.
Qed.

Lemma lstrip_length s : (String.length (Str.lstrip s) ≤ String.length s)%nat.
Proof.
  induction s as [|c s IH]; cbn; [lia|]. destruct (Str.is_space c); cbn; lia.
Qed.

(** Induction along the scan of [\s+]. *)
Lemma spaces_scan_ind (P : string → Prop) :
  P "" →
  (∀ c r, Str.is_space c = false → P r → P (String c r)) →
  (∀ c r, Str.is_space c = true → P (Str.lstrip r) → P (String c r)) →
  ∀ s, P s.
Proof.
  intros Hnil Hchar Hspace s.
  remember (String.length s) as n eqn:Hn. revert s Hn.
  induction (lt_wf n) as [n _ IH]. intros [|c r] ->; [done|].
  destruct (Str.is_space c) eqn:Ec.
  - apply Hspace; [done|].
    apply (IH (String.length (Str.lstrip r))); [|done].
    pose proof (lstrip_length r). cbn. lia.
  - apply Hchar; [done|]. apply (IH (String.length r)); [cbn; lia|done].
Qed.

(** A text that ends with a character that is no white space. *)
Lemma last_cons c c' r : Str.last (String c (String c' r)) = Str.last (String c' r).
Proof. reflexivity. Qed.

Lemma rstrip_last u :
  Str.rstrip u = ""
  ∨ ∃ c, Str.last (Str.rstrip u) = Some c ∧ Str.is_space c = false.
Proof.
  induction u as [|c u IH]; [by left|]. cbn [Str.rstrip].
  destruct (Str.is_space c) eqn:Ec; cbn [andb].
  - destruct IH as [-> | (c' & Hl & Hc')]; [by left|].
    destruct (Str.rstrip u) as [|c2 u2] eqn:Er; [done|]. cbn [String.eqb].
    right. exists c'. by rewrite last_cons.
  - right. destruct IH as [-> | (c' & Hl & Hc')]; [by exists c|].
    destruct (Str.rstrip u) as [|c2 u2] eqn:Er; [done|].
    exists c'. by rewrite last_cons.
Qed.

Lemma lstrip_last r c :
  Str.last r = Some c → Str.is_space c = false →
  Str.last (Str.lstrip r) = Some c.
Proof.
  intros Hl Hc. induction r as [|c1 r IH]; [done|]. cbn [Str.lstrip].
  destruct (Str.is_space c1) eqn:E1; [|done].
  destruct r as [|c2 r]; [cbn in Hl; congruence|]. apply IH.
  by rewrite last_cons in Hl.
Qed.

(** What the scan returns on a text that ends with a character that is no
    white space: [prev] tells whether the text may start with white space. *)
Lemma re_sub_spaces_spaced s :
  ∀ prev c,
    Str.last s = Some c → Str.is_space c = false →
    prev = true ∨ (∃ h r, s = String h r ∧ Str.is_space h = false) →
    spaced prev (Str.re_sub Str.m_spaces s) = true.
Proof.
  induction s as [|c1 r Ec1 IH|c1 r Ec1 IH] using spaces_scan_ind;
    intros prev c Hl Hc Hstart; [done| |].
  - rewrite re_sub_spaces_cons, Ec1. cbn [spaced]. rewrite Ec1.
    destruct r as [|c2 r]; [done|]. apply (IH true c); auto.
  - rewrite re_sub_spaces_cons, Ec1. cbn [spaced].
    destruct Hstart as [-> | (h & r' & [= <- <-] & Hh)]; [|congruence].
    change (Str.is_space " ") with true. cbn [andb Ascii.eqb Bool.eqb].
    destruct r as [|c2 r]; [cbn in Hl; congruence|].
    rewrite last_cons in Hl.
    apply (IH false c); [by apply lstrip_last|done|]. right.
    destruct (lstrip_head (String c2 r)) as [He | (h & r' & -> & Hh)]; [|eauto].
    pose proof (lstrip_last _ _ Hl Hc) as Hl'. by rewrite He in Hl'.
Qed.

Lemma strip_shape s :
  Str.strip s = ""
  ∨ (∃ c, Str.last (Str.strip s) = Some c ∧ Str.is_space c = false)
    ∧ ∃ h r, Str.strip s = String h r ∧ Str.is_space h = false.
Proof.
  unfold Str.strip.
  destruct (rstrip_last (Str.lstrip s)) as [-> | Hlast]; [by left|]. right.
  split; [done|].
  destruct (lstrip_head s) as [He | (h & r & -> & Hh)].
  - rewrite He in Hlast. by destruct Hlast as (? & ? & _).
  - rewrite (rstrip_cons h r Hh). eauto.
Qed.

(** On a text that is spaced already, the scan and the strip change
    nothing. *)
Lemma spaced_head prev s :
  spaced prev s = true →
  prev = true ∨ ∃ h r, s = String h r ∧ Str.is_space h = false.
Proof.
  destruct prev; [auto|]. destruct s as [|h r]; [done|]. cbn.
  destruct (Str.is_space h) eqn:E; [done|]. eauto.
Qed.

Lemma spaced_re_sub prev s :
  spaced prev s = true → Str.re_sub Str.m_spaces s = s.
Proof.
  revert prev. induction s as [|c r IH]; intros prev; [done|].
  rewrite re_sub_spaces_cons. cbn [spaced].
  destruct (Str.is_space c) eqn:Ec.
  - intros [[_ Hc%Ascii.eqb_eq]%andb_true_iff Hr]%andb_true_iff. subst c.
    destruct (spaced_head _ _ Hr) as [?|(h & r' & -> & Hh)]; [done|].
    cbn [Str.lstrip]. rewrite Hh. by rewrite (IH _ Hr).
  - intros Hr. by rewrite (IH _ Hr).
Qed.

Lemma spaced_rstrip prev s : spaced prev s = true → Str.rstrip s = s.
Proof.
  revert prev. induction s as [|c r IH]; intros prev; [done|].
  cbn [spaced Str.rstrip]. destruct (Str.is_space c) eqn:Ec.
  - intros [_ Hr]%andb_true_iff. rewrite (IH _ Hr).
    destruct r; [done|]. done.
  - intros Hr. by rewrite (IH _ Hr).
Qed.

Lemma spaced_strip s : spaced false s = true → Str.strip s = s.
Proof.
  intros Hs. unfold Str.strip.
  destruct (spaced_head _ _ Hs) as [?|(h & r & -> & Hh)]; [done|].
  cbn [Str.lstrip]. rewrite Hh. by apply (spaced_rstrip false).
Qed.

Lemma without_spaces_lstrip s : without_spaces (Str.lstrip s) = without_spaces s.
Proof.
  induction s as [|c s IH]; [done|]. cbn [Str.lstrip].
  destruct (Str.is_space c) eqn:Ec; [|done]. cbn [without_spaces].
  by rewrite Ec.
Qed.

Lemma without_spaces_rstrip s : without_spaces (Str.rstrip s) = without_spaces s.
Proof.
  induction s as [|c s IH]; [done|]. cbn [Str.rstrip without_spaces].
  destruct (Str.is_space c) eqn:Ec; cbn [andb].
  - destruct (Str.rstrip s) as [|c' s'] eqn:Er; cbn [String.eqb].
    + by rewrite <- IH.
    + cbn [without_spaces]. by rewrite Ec, <- IH.
  - cbn [without_spaces]. by rewrite Ec, IH.
Qed.

Lemma without_spaces_re_sub s :
  without_spaces (Str.re_sub Str.m_spaces s) = without_spaces s.
Proof.
  induction s as [|c r Ec IH|c r Ec IH] using spaces_scan_ind; [done| |];
    rewrite re_sub_spaces_cons, Ec; cbn [without_spaces]; rewrite Ec.
  - by rewrite IH.
  - change (Str.is_space " ") with true. cbn iota.
    by rewrite IH, without_spaces_lstrip.
Qed.

Lemma clean_string_text s :
  ∃ r, clean_string (VStr s) = Ok r
       ∧ tidy r = true
       ∧ without_spaces r = without_spaces s
       ∧ clean_string (VStr r) = Ok r.
Proof.
  assert (∀ t, tidy t = true → clean_string (VStr t) = Ok t) as Hidem.
  { intros t. unfold tidy, clean_string. cbn [truthy].
    destruct (String.eqb_spec t ""); [by subst|]. cbn [negb orb].
    intros Ht. by rewrite (spaced_strip _ Ht), (spaced_re_sub _ _ Ht). }
  unfold clean_string at 1. cbn [truthy]. destruct (String.eqb_spec s "") as [->|Hs].
  - exists "". repeat split.
  - cbn [negb]. eexists. split; [reflexivity|].
    assert (tidy (Str.re_sub Str.m_spaces (Str.strip s)) = true) as Ht.
    { destruct (strip_shape s) as [-> | [(c & Hl & Hc) Hh]]; [done|].
      unfold tidy. rewrite (re_sub_spaces_spaced _ false c Hl Hc); auto.
      apply orb_true_r. }
    split; [done|]. split; [|by apply Hidem].
    unfold Str.strip.
    by rewrite without_spaces_re_sub, without_spaces_rstrip, without_spaces_lstrip.
Qed.
End Cleaning.

(** X27. On any text [clean_string] returns a text in which white space
    occurs only as single spaces between other characters, with the same
    characters other than white space in the same order; cleaning the result
    again returns it unchanged. *)
Theorem X27_clean_string_tidy_and_idempotent :
  ∀ s : string,
    ∃ r, Utils.clean_string (VStr s) = Ok r
         ∧ Notions.tidy r = true
         ∧ Notions.without_spaces r = Notions.without_spaces s
         ∧ Utils.clean_string (VStr r) = Ok r.
Proof. exact clean_string_text. Qed.

Example clean_string_sample :
  Utils.clean_string (VStr "  12   Oak  St ") = Ok "12 Oak St"
  ∧ Utils.clean_string VNone = Ok ""
  ∧ Utils.clean_string (VInt 7) = Raise AttributeError.
Proof. repeat split. Qed.

(** * The full address of a Zillow listing *)

Section FullAddress.
Import ZillowListing AddressNormalizer Notions.

Lemma split_comma_free a :
  comma_free a = true → Str.split "," a = [a].
Proof.
  unfold comma_free. induction a as [|c a IH]; [done|].
  cbn [Str.all_chars Str.split]. intros [Hc Ha]%andb_true_iff.
  apply negb_true_iff in Hc. rewrite Hc, (IH Ha). done.
Qed.

Lemma split_comma_app a b :
  comma_free a = true → Str.split "," (a +:+ String "," b) = a :: Str.split "," b.
Proof.
  unfold comma_free. induction a as [|c a IH].
  - intros _. change ("" +:+ String "," b) with (String "," b).
    cbn [Str.split]. by rewrite Ascii.eqb_refl.
  - cbn [Str.all_chars]. intros [Hc Ha]%andb_true_iff.
    apply negb_true_iff in Hc.
    change (String c a +:+ String "," b) with (String c (a +:+ String "," b)).
    cbn [Str.split]. by rewrite Hc, (IH Ha).
Qed.

Lemma strip_after_space s : Str.strip (String " " s) = Str.strip s.
Proof. reflexivity. Qed.

Lemma match_state_two_letters st :
  String.length st = 2%nat → Str.all_chars Str.is_upper st = true →
  match_state_zip st = Some (st, None).
Proof.
  destruct st as [|c1 [|c2 [|c3 st]]]; try discriminate. intros _ Hu.
  unfold match_state_zip. cbn [Str.take String.length Nat.eqb]. rewrite Hu.
  reflexivity.
Qed.

Lemma append_empty s : s +:+ "" = s.
Proof.
  induction s as [|x s IH]; [done|].
  change (String x s +:+ "") with (String x (s +:+ "")). by rewrite IH.
Qed.

Lemma part_some s : s ≠ "" → part (Some s) = Some s.
Proof. intros Hs. cbn. by destruct (String.eqb_spec s ""). Qed.

Lemma comma_free_space s : comma_free s = true → comma_free (String " " s) = true.
Proof. intros H. unfold comma_free in *. cbn [Str.all_chars]. by rewrite H. Qed.

(** The first three parts of an address that has a street, a city and a
    state, whatever follows the state. *)
Lemma split_full_address a b c (tail : string) :
  comma_free a = true → comma_free b = true → comma_free c = true →
  tail = "" ∨ (∃ t, tail = String "," t) →
  ∃ rest,
    Str.split "," (a +:+ String "," (String " " (b +:+ String ","
                     (String " " (c +:+ tail)))))
    = a :: String " " b :: String " " c :: rest.
Proof.
  intros Ha Hb Hc Ht.
  rewrite (split_comma_app a _ Ha).
  change (String " " (b +:+ ?x)) with (String " " b +:+ x).
  rewrite (split_comma_app (String " " b) _ (comma_free_space _ Hb)).
  change (String " " (c +:+ tail)) with (String " " c +:+ tail).
  destruct Ht as [-> | [t ->]].
  - exists []. f_equal. f_equal. rewrite append_empty.
    apply split_comma_free, comma_free_space, Hc.
  - eexists. f_equal. f_equal.
    apply (split_comma_app (String " " c) _ (comma_free_space _ Hc)).
Qed.

Lemma extract_full_address st ct sta zipcode :
  st ≠ "" → ct ≠ "" →
  comma_free st = true → comma_free ct = true → comma_free sta = true →
  String.length (Str.strip sta) = 2%nat →
  Str.all_chars Str.is_upper (Str.strip sta) = true →
  let full :=
    get_full_address
      (Some {| ZillowListing.street := Some st; ZillowListing.city := Some ct;
               ZillowListing.state := Some sta;
               ZillowListing.zipcode := zipcode |}) in
  extract_address_components (VStr full)
  = Ok {| full_address := full; street := Str.strip st; city := Str.strip ct;
          state := Str.strip sta; zip := "" |}.
Proof.
  intros Hst Hct Cst Cct Csta Hlen Hup full.
  assert (sta ≠ "") as Hsta by (intros ->; discriminate).
  assert (∃ tail,
            full = st +:+ String "," (String " " (ct +:+ String ","
                           (String " " (sta +:+ tail))))
            ∧ (tail = "" ∨ ∃ t, tail = String "," t)) as (tail & Hfull & Htail).
  { unfold full, get_full_address. cbn [omap list_omap ZillowListing.street
      ZillowListing.city ZillowListing.state ZillowListing.zipcode].
    rewrite !part_some by done.
    destruct (part zipcode) as [z|].
    - exists (String "," (String " " z)). split; [reflexivity|eauto].
    - exists "". split; [|auto]. by rewrite append_empty. }
  destruct (split_full_address st ct sta tail Cst Cct Csta Htail) as [rest Hs].
  unfold extract_address_components. rewrite Hfull, Hs.
  cbn [map lookup list_lookup default].
  rewrite !strip_after_space, strip_idem.
  by rewrite (match_state_two_letters _ Hlen Hup).
Qed.
End FullAddress.

(** X28. From the full address [get_full_address] builds for a listing
    with a street, a city and a state of two upper-case letters, each
    without comma, [extract_address_components] reads the street, the city
    and the state, and an empty ZIP whatever the [zipcode] of the listing:
    the ZIP stands in a fourth part, which the extraction does not read. *)
Theorem X28_zip_not_read_from_full_address :
  ∀ (street city state : string) (zipcode : option string),
    street ≠ "" → city ≠ "" →
    Notions.comma_free street = true → Notions.comma_free city = true →
    Notions.comma_free state = true →
    String.length (Str.strip state) = 2%nat →
    Str.all_chars Str.is_upper (Str.strip state) = true →
    AddressNormalizer.extract_address_components
      (VStr (ZillowListing.get_full_address
               (Some {| ZillowListing.street := Some street;
                        ZillowListing.city := Some city;
                        ZillowListing.state := Some state;
                        ZillowListing.zipcode := zipcode |})))
    = Ok {| AddressNormalizer.full_address :=
              ZillowListing.get_full_address
                (Some {| ZillowListing.street := Some street;
                         ZillowListing.city := Some city;
                         ZillowListing.state := Some state;
                         ZillowListing.zipcode := zipcode |});
            AddressNormalizer.street := Str.strip street;
            AddressNormalizer.city := Str.strip city;
            AddressNormalizer.state := Str.strip state;
            AddressNormalizer.zip := "" |}.
Proof.
  intros street city state zipcode Hs Hc Cs Cc Cst Hlen Hup.
  by apply extract_full_address.
Qed.

Lemma X28_zip_not_read_from_full_address_witness :
  ZillowListing.get_full_address
    (Some {| ZillowListing.street := Some "12 Oak St";
             ZillowListing.city := Some "Seattle";
             ZillowListing.state := Some "WA";
             ZillowListing.zipcode := Some "98101" |})
  = "12 Oak St, Seattle, WA, 98101"
  ∧ AddressNormalizer.extract_address_components
      (VStr (ZillowListing.get_full_address
               (Some {| ZillowListing.street := Some "12 Oak St";
                        ZillowListing.city := Some "Seattle";
                        ZillowListing.state := Some "WA";
                        ZillowListing.zipcode := Some "98101" |})))
    = Ok {| AddressNormalizer.full_address :=
              ZillowListing.get_full_address
                (Some {| ZillowListing.street := Some "12 Oak St";
                         ZillowListing.city := Some "Seattle";
                         ZillowListing.state := Some "WA";
                         ZillowListing.zipcode := Some "98101" |});
            AddressNormalizer.street := Str.strip "12 Oak St";
            AddressNormalizer.city := Str.strip "Seattle";
            AddressNormalizer.state := Str.strip "WA";
            AddressNormalizer.zip := "" |}.
Proof.
  split; [reflexivity|].
  apply (X28_zip_not_read_from_full_address "12 Oak St" "Seattle" "WA"
           (Some "98101")); first [ discriminate | reflexivity ].
Defined.
